(** * Workspace provisioning and teardown (tools-iottwinmaker, lib/workspace.ts)

    A shallow embedding of the orchestration code of [workspace.ts].  Every
    function of the file is an [async] function whose only effects are
    remote calls through the client facade [aws()], [console.log] lines and
    the [delay] of the retry loop.  An execution is therefore modelled as a
    function from the trace of events so far to an outcome and the extended
    trace; the remote services are an oracle that answers each call from
    the trace that precedes it.

    - A remote call resolves with a response or rejects with a thrown
      value; the facade itself ([aws()], its [region] field) does not
      throw.
    - The two pagination loops of [deleteS3Bucket] run as long as the
      service says the listing is truncated; they carry fuel, one unit per
      page, and a run that uses it up ends as [OutOfFuel].
    - Strings are sequences of code units below 256, that is, the
      JavaScript strings made of the characters U+0000 to U+00FF, and the
      attempt budget of the retry loop is a natural number. *)

From Stdlib Require Import String Ascii List Bool Arith Lia ZArith.
Import ListNotations.
Open Scope string_scope.
Open Scope list_scope.

Set Implicit Arguments.
Set Warnings "-register-all".

(** ** JavaScript strings and values *)

(** Strings are sequences of code units below 256: the JavaScript strings
    made of the characters U+0000 to U+00FF.  The upper-case letters of this
    range are 'A'..'Z' (65..90) and, in the Latin-1 supplement, U+00C0 to
    U+00DE (192..222) without the multiplication sign U+00D7 (215).
    [String.prototype.toLowerCase] maps each of them to the letter 32 units
    up and leaves every other unit of the range alone; the mappings that
    depend on the context or yield several units concern characters
    outside the range. *)
Definition isUpper (c : ascii) : bool :=
  ((65 <=? nat_of_ascii c)%nat && (nat_of_ascii c <=? 90)%nat)
  || ((192 <=? nat_of_ascii c)%nat && (nat_of_ascii c <=? 222)%nat
      && negb (nat_of_ascii c =? 215)%nat).

Definition lowerChar (c : ascii) : ascii :=
  if isUpper c then ascii_of_nat (nat_of_ascii c + 32) else c.

Fixpoint toLowerCase (s : string) : string :=
  match s with
  | EmptyString => EmptyString
  | String c s' => String (lowerChar c) (toLowerCase s')
  end.

(** [s.includes(sub)] *)
Definition includes (s sub : string) : bool :=
  match index 0 sub s with
  | Some _ => true
  | None => false
  end.

(** A template literal prints an [undefined] field as the text
    "undefined". *)
Definition show (o : option string) : string :=
  match o with
  | Some s => s
  | None => "undefined"
  end.

(** [!x] for a field of type [string | undefined] is false exactly for a
    non-empty string. *)
Definition truthy (o : option string) : bool :=
  match o with
  | Some EmptyString => false
  | Some _ => true
  | None => false
  end.

(** ** Thrown values *)

Inductive ErrorClass :=
| ValidationException
| ResourceNotFoundException
| NoSuchBucket
| OtherError (name : string).

(** What a [catch] clause can receive: an [Error] instance of some class
    with its message, or a value that is not an [Error] at all. *)
Inductive Thrown :=
| JsError (cls : ErrorClass) (message : string)
| NonError (text : string).

Definition className (c : ErrorClass) : string :=
  match c with
  | ValidationException => "ValidationException"
  | ResourceNotFoundException => "ResourceNotFoundException"
  | NoSuchBucket => "NoSuchBucket"
  | OtherError n => n
  end.

(** [new Error(msg)] *)
Definition newError (msg : string) : Thrown := JsError (OtherError "Error") msg.

(** [`${e}`], following [Error.prototype.toString]. *)
Definition errorToString (e : Thrown) : string :=
  match e with
  | JsError c m =>
      match className c, m with
      | EmptyString, _ => m
      | n, EmptyString => n
      | n, _ => n ++ ": " ++ m
      end
  | NonError t => t
  end.

Definition instanceofError (e : Thrown) : bool :=
  match e with
  | JsError _ _ => true
  | NonError _ => false
  end.

Definition instanceofValidationException (e : Thrown) : bool :=
  match e with
  | JsError ValidationException _ => true
  | _ => false
  end.

Definition instanceofResourceNotFoundException (e : Thrown) : bool :=
  match e with
  | JsError ResourceNotFoundException _ => true
  | _ => false
  end.

Definition instanceofNoSuchBucket (e : Thrown) : bool :=
  match e with
  | JsError NoSuchBucket _ => true
  | _ => false
  end.

(** [e.message.includes(sub)], only ever evaluated behind an [instanceof]
    test that has already succeeded. *)
Definition messageIncludes (e : Thrown) (sub : string) : bool :=
  match e with
  | JsError _ m => includes m sub
  | NonError _ => false
  end.

(** ** Requests and responses of the client facade *)

Inductive RoleType := WorkspaceRole | WorkspaceDashboardRole.

Definition roleTypeText (t : RoleType) : string :=
  match t with
  | WorkspaceRole => "WorkspaceRole"
  | WorkspaceDashboardRole => "WorkspaceDashboardRole"
  end.

(** A small JSON value type for the object literals and the imported policy
    templates that the code hands to [JSON.stringify]. *)
Inductive Json :=
| JString (s : string)
| JBool (b : bool)
| JArray (items : list Json)
| JObject (fields : list (string * Json)).

Record CORSRule := {
  AllowedHeaders : list string;
  AllowedMethods : list string;
  AllowedOrigins : list string;
  ExposeHeaders : list string
}.

(** One constructor per facade operation, carrying the request fields the
    code fills in. *)
Inductive Call :=
| CreateRole (RoleName Path AssumeRolePolicyDocument Description : string)
| CreatePolicy (PolicyName PolicyDocument Description : string)
| AttachRolePolicy (RoleName PolicyArn : string)
| ListInstanceProfilesForRole (RoleName : option string)
| RemoveRoleFromInstanceProfile (RoleName InstanceProfileName : option string)
| ListRolePolicies (RoleName : option string)
| DeleteRolePolicy (RoleName : option string) (PolicyName : string)
| ListAttachedRolePolicies (RoleName : option string)
| DetachRolePolicy (RoleName PolicyArn : option string)
| DeletePolicy (PolicyArn : option string)
| DeleteRole (RoleName : option string)
| CreateBucket (Bucket : string) (LocationConstraint : option string)
| PutBucketVersioning (Bucket Status : string)
| PutBucketPolicy (Bucket Policy : string)
| PutPublicAccessBlock (Bucket : string)
    (BlockPublicAcls BlockPublicPolicy IgnorePublicAcls RestrictPublicBuckets : bool)
| PutBucketEncryption (Bucket SSEAlgorithm : string)
| PutBucketCors (Bucket : string) (CORSRules : list CORSRule)
| PutBucketAcl (Bucket GrantReadACP GrantWrite : string)
| PutBucketLogging (Bucket TargetBucket TargetPrefix : string)
| GetBucketLogging (Bucket : option string)
| ListObjectsV2 (Bucket ContinuationToken : option string)
| ListObjectVersions (Bucket VersionIdMarker KeyMarker : option string)
| DeleteObject (Bucket Key VersionId : option string)
| DeleteBucket (Bucket : option string)
| CreateWorkspace (workspaceId role s3Location : string)
| GetWorkspace (workspaceId : string)
| DeleteWorkspace (workspaceId : string)
| GetCurrentIdentity.

Record ArnHolder := { Arn : option string }.
Record CreateRoleCommandOutput := { Role : option ArnHolder }.
Record CreatePolicyCommandOutput := { Policy : option ArnHolder }.
Record CreateBucketCommandOutput := { Location : option string }.
Record CreateWorkspaceCommandOutput := { cw_arn : option string }.
Record GetWorkspaceCommandOutput := {
  gw_workspaceId : option string;
  gw_arn : option string
}.
Record Identity := { accountId : string; accountArn : string }.

Record LoggingEnabledRec := { TargetBucket : option string }.
Record GetBucketLoggingCommandOutput := { LoggingEnabled : option LoggingEnabledRec }.

Record S3Object := { Key : option string }.
Record ObjectVersion := { v_Key : option string; v_VersionId : option string }.

Record ListObjectsV2CommandOutput := {
  lo_IsTruncated : option bool;
  lo_NextContinuationToken : option string;
  Contents : option (list S3Object)
}.
Record ListObjectVersionsCommandOutput := {
  lv_IsTruncated : option bool;
  lv_NextVersionIdMarker : option string;
  lv_NextKeyMarker : option string;
  Versions : option (list ObjectVersion);
  DeleteMarkers : option (list ObjectVersion)
}.

Record InstanceProfile := { InstanceProfileName : option string }.
Record AttachedPolicy := { ap_PolicyName : option string; ap_PolicyArn : option string }.
Record ListInstanceProfilesOutput := { InstanceProfiles : option (list InstanceProfile) }.
Record ListRolePoliciesOutput := { PolicyNames : option (list string) }.
Record ListAttachedRolePoliciesOutput := { AttachedPolicies : option (list AttachedPolicy) }.

(** The type of the response of each operation; operations whose response
    the code never reads answer [unit]. *)
Definition RespOf (c : Call) : Type :=
  match c with
  | CreateRole _ _ _ _ => CreateRoleCommandOutput
  | CreatePolicy _ _ _ => CreatePolicyCommandOutput
  | CreateBucket _ _ => CreateBucketCommandOutput
  | CreateWorkspace _ _ _ => CreateWorkspaceCommandOutput
  | GetWorkspace _ => GetWorkspaceCommandOutput
  | GetCurrentIdentity => Identity
  | GetBucketLogging _ => GetBucketLoggingCommandOutput
  | ListObjectsV2 _ _ => ListObjectsV2CommandOutput
  | ListObjectVersions _ _ _ => ListObjectVersionsCommandOutput
  | ListInstanceProfilesForRole _ => ListInstanceProfilesOutput
  | ListRolePolicies _ => ListRolePoliciesOutput
  | ListAttachedRolePolicies _ => ListAttachedRolePoliciesOutput
  | _ => unit
  end.

(** A remote call either rejects with a thrown value or resolves. *)
Inductive Result (A : Type) :=
| Rejected (e : Thrown)
| Resolved (a : A).
Arguments Rejected {A} e.
Arguments Resolved {A} a.

(** ** Traces *)

Inductive Event :=
| Called (c : Call) (r : Result (RespOf c))
| Logged (line : string)
| Slept (ms : Z).

Definition Trace := list Event.

(** The remote services: the answer to a call may depend on everything that
    happened before it.  [aws_region] is the facade's [region] field. *)
Record Env := {
  respond : Trace -> forall c : Call, Result (RespOf c);
  aws_region : string
}.

Definition callOf (ev : Event) : option Call :=
  match ev with
  | Called c _ => Some c
  | _ => None
  end.

(** The remote calls of a trace, in order. *)
Fixpoint calls (t : Trace) : list Call :=
  match t with
  | [] => []
  | Called c _ :: t' => c :: calls t'
  | _ :: t' => calls t'
  end.

(** ** The execution monad *)

Inductive Outcome (A : Type) :=
| Returned (a : A)
| Threw (e : Thrown)
| OutOfFuel.
Arguments Returned {A} a.
Arguments Threw {A} e.
Arguments OutOfFuel {A}.

Definition M (A : Type) : Type := Trace -> Outcome A * Trace.

Definition ret {A} (a : A) : M A := fun t => (Returned a, t).

Definition throw {A} (e : Thrown) : M A := fun t => (Threw e, t).

Definition outOfFuel {A} : M A := fun t => (OutOfFuel, t).

Definition bind {A B} (m : M A) (k : A -> M B) : M B :=
  fun t =>
    match m t with
    | (Returned a, t') => k a t'
    | (Threw e, t') => (Threw e, t')
    | (OutOfFuel, t') => (OutOfFuel, t')
    end.

(** [try { body } catch (e) { handler }] *)
Definition tryCatch {A} (body : M A) (handler : Thrown -> M A) : M A :=
  fun t =>
    match body t with
    | (Threw e, t') => handler e t'
    | r => r
    end.

(** [console.log(line)] *)
Definition log (line : string) : M unit :=
  fun t => (Returned tt, t ++ [Logged line]).

Declare Scope js_scope.
Delimit Scope js_scope with js.
Notation "x <- m ;; k" := (bind m (fun x => k))
  (at level 100, m at next level, right associativity) : js_scope.
Notation "m ;; k" := (bind m (fun _ => k))
  (at level 100, right associativity) : js_scope.
Open Scope js_scope.

(** [for (const x of xs) { body x }] *)
Fixpoint forOf {A} (xs : list A) (body : A -> M unit) : M unit :=
  match xs with
  | [] => ret tt
  | x :: xs' => body x ;; forOf xs' body
  end.

(** [if (xs != undefined) { for (const x of xs) { body x } }] *)
Definition forOfDefined {A} (xs : option (list A)) (body : A -> M unit) : M unit :=
  match xs with
  | Some l => forOf l body
  | None => ret tt
  end.

(** Modelled from the spec: [delay] of [./utils], which is not part of the
    sources at hand; the spec has the retry loop "sleep 2000 ms".  The sleep
    is recorded in the trace. *)
Definition delay (ms : Z) : M unit :=
  fun t => (Returned tt, t ++ [Slept ms]).

(** [if (!x) { throw err; }] followed by a use of [x] as a string. *)
Definition requireTruthy (x : option string) (err : Thrown) : M string :=
  match x with
  | Some (String c s) => ret (String c s)
  | _ => throw err
  end.

(** [if (b) { await m; }] *)
Definition whenTrue {A} (b : bool) (m : M A) : M unit :=
  if b then m ;; ret tt else ret tt.

(** The line feed of the log lines that contain one. *)
Definition LF : string := String "010"%char EmptyString.

(** ** Sample services

    Concrete services for the worked examples further down. *)
Module Sample.

(** The answer of a service with nothing to report. *)
Definition answer (c : Call) : RespOf c :=
  match c as c0 return RespOf c0 with
  | CreateRole _ _ _ _ => {| Role := None |}
  | CreatePolicy _ _ _ => {| Policy := None |}
  | CreateBucket _ _ => {| Location := None |}
  | CreateWorkspace _ _ _ => {| cw_arn := None |}
  | GetWorkspace _ => {| gw_workspaceId := None; gw_arn := None |}
  | GetCurrentIdentity => {| accountId := ""; accountArn := "" |}
  | GetBucketLogging _ => {| LoggingEnabled := None |}
  | ListObjectsV2 _ _ =>
      {| lo_IsTruncated := None; lo_NextContinuationToken := None; Contents := None |}
  | ListObjectVersions _ _ _ =>
      {| lv_IsTruncated := None; lv_NextVersionIdMarker := None;
         lv_NextKeyMarker := None; Versions := None; DeleteMarkers := None |}
  | ListInstanceProfilesForRole _ => {| InstanceProfiles := None |}
  | ListRolePolicies _ => {| PolicyNames := None |}
  | ListAttachedRolePolicies _ => {| AttachedPolicies := None |}
  | _ => tt
  end.

Definition isCreateWorkspace (c : Call) : bool :=
  match c with
  | CreateWorkspace _ _ _ => true
  | _ => false
  end.

(** The number of [createWorkspace] calls made so far. *)
Definition attemptsSoFar (t : Trace) : nat :=
  length (filter isCreateWorkspace (calls t)).

Definition roleNotPropagated : Thrown :=
  JsError ValidationException "Could not assume the role provided".

(** An account 123456789012 in us-west-2 in which a new role takes [lag]
    rejected [createWorkspace] calls to propagate, and in which
    [getWorkspace] finds nothing until the workspace is created and answers
    [fetched] from then on. *)
Definition provisioning (lag : nat) (fetched : GetWorkspaceCommandOutput) : Env :=
  {| respond := fun t c =>
       match c as c0 return Result (RespOf c0) with
       | GetCurrentIdentity =>
           Resolved {| accountId := "123456789012";
                       accountArn := "arn:aws:iam::123456789012:user/dev" |}
       | CreateRole n _ _ _ =>
           Resolved {| Role := Some {| Arn := Some ("arn:aws:iam::123456789012:role/" ++ n)%string |} |}
       | CreatePolicy n _ _ =>
           Resolved {| Policy :=
                         Some {| Arn := Some ("arn:aws:iam::123456789012:policy/" ++ n)%string |} |}
       | CreateBucket b _ => Resolved {| Location := Some ("/" ++ b)%string |}
       | CreateWorkspace w _ _ =>
           if (attemptsSoFar t <? lag)%nat
           then Rejected roleNotPropagated
           else Resolved
                  {| cw_arn :=
                       Some ("arn:aws:iottwinmaker:us-west-2:123456789012:workspace/" ++ w)%string |}
       | GetWorkspace _ =>
           if (lag <? attemptsSoFar t)%nat
           then Resolved fetched
           else Rejected (JsError ResourceNotFoundException "Workspace not found")
       | c' => Resolved (answer c')
       end;
     aws_region := "us-west-2" |}.

(** An account in which [getWorkspace] answers [workspace]. *)
Definition existing (workspace : GetWorkspaceCommandOutput) : Env :=
  {| respond := fun _ c =>
       match c as c0 return Result (RespOf c0) with
       | GetWorkspace _ => Resolved workspace
       | c' => Resolved (answer c')
       end;
     aws_region := "us-west-2" |}.

(** An account in which every [createWorkspace] and [getWorkspace] call is
    rejected with [e]. *)
Definition refusing (e : Thrown) : Env :=
  {| respond := fun _ c =>
       match c as c0 return Result (RespOf c0) with
       | CreateWorkspace _ _ _ => Rejected e
       | GetWorkspace _ => Rejected e
       | c' => Resolved (answer c')
       end;
     aws_region := "us-west-2" |}.

Definition object (key : string) : S3Object := {| Key := Some key |}.

Definition version (key id : string) : ObjectVersion :=
  {| v_Key := Some key; v_VersionId := Some id |}.

(** A bucket "demo-bucket" with three objects listed on two pages and two
    versions, logging to "demo-bucket-logs", which is empty.  The answers do
    not depend on the calls made before. *)
Definition storage : Env :=
  {| respond := fun _ c =>
       match c as c0 return Result (RespOf c0) with
       | GetBucketLogging (Some "demo-bucket") =>
           Resolved {| LoggingEnabled := Some {| TargetBucket := Some "demo-bucket-logs" |} |}
       | ListObjectsV2 (Some "demo-bucket") None =>
           Resolved {| lo_IsTruncated := Some true;
                       lo_NextContinuationToken := Some "page-2";
                       Contents := Some [object "a.json"; object "b.json"] |}
       | ListObjectsV2 (Some "demo-bucket") (Some "page-2") =>
           Resolved {| lo_IsTruncated := Some false;
                       lo_NextContinuationToken := None;
                       Contents := Some [object "c.json"] |}
       | ListObjectVersions (Some "demo-bucket") None None =>
           Resolved {| lv_IsTruncated := Some false;
                       lv_NextVersionIdMarker := None;
                       lv_NextKeyMarker := None;
                       Versions := Some [version "a.json" "v1"; version "b.json" "v1"];
                       DeleteMarkers := None |}
       | c' => Resolved (answer c')
       end;
     aws_region := "us-west-2" |}.

(** Storage in which only the buckets that satisfy [present] exist; the
    existing ones are empty and log to [loggingTarget].  A call on a bucket
    that does not exist is rejected with [message]. *)
Definition missing (message : string) (present : string -> bool)
    (loggingTarget : option string) : Env :=
  let there (b : option string) :=
    match b with
    | Some n => present n
    | None => false
    end in
  {| respond := fun _ c =>
       match c as c0 return Result (RespOf c0) with
       | GetBucketLogging b =>
           if there b
           then Resolved
                  {| LoggingEnabled :=
                       option_map (fun target => {| TargetBucket := Some target |})
                         loggingTarget |}
           else Rejected (JsError (OtherError "NoSuchBucket") message)
       | ListObjectsV2 b _ =>
           if there b then Resolved (answer (ListObjectsV2 b None))
           else Rejected (JsError NoSuchBucket message)
       | ListObjectVersions b _ _ =>
           if there b then Resolved (answer (ListObjectVersions b None None))
           else Rejected (JsError NoSuchBucket message)
       | DeleteBucket b =>
           if there b then Resolved tt else Rejected (JsError NoSuchBucket message)
       | c' => Resolved (answer c')
       end;
     aws_region := "us-west-2" |}.

(** A role in one instance profile, with two inline policies and one
    attached managed policy. *)
Definition identities : Env :=
  {| respond := fun _ c =>
       match c as c0 return Result (RespOf c0) with
       | ListInstanceProfilesForRole _ =>
           Resolved {| InstanceProfiles :=
                         Some [{| InstanceProfileName := Some "profile-1" |}] |}
       | ListRolePolicies _ =>
           Resolved {| PolicyNames := Some ["inline-a"; "inline-b"]%string |}
       | ListAttachedRolePolicies _ =>
           Resolved {| AttachedPolicies :=
                         Some [{| ap_PolicyName := Some "managed-1";
                                  ap_PolicyArn :=
                                    Some "arn:aws:iam::123456789012:policy/managed-1" |}] |}
       | c' => Resolved (answer c')
       end;
     aws_region := "us-west-2" |}.

(** Stand-ins for the imports of [workspace.ts] that are not at hand. *)
Definition airportCode (region : string) : string :=
  if (region =? "us-east-1")%string then "iad"
  else if (region =? "us-west-2")%string then "pdx"
  else region.

Definition fillTemplate (template : string) (params : list (string * string)) : string :=
  template.

Definition stringify (document : Json) : string := "{}".

Definition document : Json := JObject [].

(** A fetched record with an id and no arn, and one with an arn and no id. *)
Definition arnless : GetWorkspaceCommandOutput :=
  {| gw_workspaceId := Some "demo"; gw_arn := None |}.

Definition idless : GetWorkspaceCommandOutput :=
  {| gw_workspaceId := None;
     gw_arn := Some "arn:aws:iottwinmaker:us-west-2:123456789012:workspace/demo" |}.

Definition createDemo : Call := CreateWorkspace "demo" "role-arn" "bucket-arn".

Definition bucketMissing : Thrown :=
  JsError NoSuchBucket "The specified bucket does not exist".

(** Storage without any bucket. *)
Definition nothingThere : Env :=
  missing "The specified bucket does not exist" (fun _ => false) None.

(** Storage with "demo-bucket" only, which logs to "demo-bucket-logs"; a
    call on another bucket is rejected with [message]. *)
Definition targetGone (message : string) : Env :=
  missing message (fun n => (n =? "demo-bucket")%string) (Some "demo-bucket-logs").

(** Storage that refuses the two logging-setup calls. *)
Definition noLogging : Env :=
  {| respond := fun _ c =>
       match c as c0 return Result (RespOf c0) with
       | PutBucketAcl _ _ _ => Rejected (JsError (OtherError "AccessDenied") "Access Denied")
       | PutBucketLogging _ _ _ =>
           Rejected (JsError (OtherError "AccessDenied") "Access Denied")
       | c' => Resolved (answer c')
       end;
     aws_region := "us-west-2" |}.

Definition isDeleteObject (c : Call) : bool :=
  match c with
  | DeleteObject _ _ _ => true
  | _ => false
  end.

(** A versioned bucket with one object, "a.json", in one version, whose
    listings have pages of one entry.  Deleting the object without a version
    id leaves a delete marker behind, which the version listing then shows
    on a second page: the answers depend on the delete calls made so far,
    and no call is rejected. *)
Definition versioned : Env :=
  {| respond := fun t c =>
       match c as c0 return Result (RespOf c0) with
       | ListObjectsV2 _ _ =>
           Resolved {| lo_IsTruncated := Some false;
                       lo_NextContinuationToken := None;
                       Contents := Some [object "a.json"] |}
       | ListObjectVersions _ None _ =>
           if existsb isDeleteObject (calls t)
           then Resolved {| lv_IsTruncated := Some true;
                            lv_NextVersionIdMarker := Some "v1";
                            lv_NextKeyMarker := Some "a.json";
                            Versions := Some [version "a.json" "v1"];
                            DeleteMarkers := None |}
           else Resolved {| lv_IsTruncated := Some false;
                            lv_NextVersionIdMarker := None;
                            lv_NextKeyMarker := None;
                            Versions := Some [version "a.json" "v1"];
                            DeleteMarkers := None |}
       | ListObjectVersions _ (Some _) _ =>
           Resolved {| lv_IsTruncated := Some false;
                       lv_NextVersionIdMarker := None;
                       lv_NextKeyMarker := None;
                       Versions := None;
                       DeleteMarkers := Some [version "a.json" "marker-1"] |}
       | c' => Resolved (answer c')
       end;
     aws_region := "us-west-2" |}.

(** Storage in which every bucket is empty and has logging enabled without
    a target bucket in the configuration. *)
Definition unnamedTarget : Env :=
  {| respond := fun _ c =>
       match c as c0 return Result (RespOf c0) with
       | GetBucketLogging _ =>
           Resolved {| LoggingEnabled := Some {| TargetBucket := None |} |}
       | c' => Resolved (answer c')
       end;
     aws_region := "us-west-2" |}.

End Sample.

Section Workspace.

Set Default Proof Using "Type".

Variable env : Env.

(** The imports of [workspace.ts] that are not part of the sources at hand:
    the two helpers of [./utils], the four policy documents of [./policy/*]
    and the built-in [JSON.stringify]. *)
Variable regionToAirportCode : string -> string.
Variable replaceTemplateVars : string -> list (string * string) -> string.
Variable JSON_stringify : Json -> string.
Variable WORKSPACE_ROLE_ASSUME_POLICY : Json.
Variable WORKSPACE_DASHBOARD_ROLE_ASSUME_POLICY : Json.
Variable workspaceRolePolicyTemplate : Json.
Variable workspaceDashboardRolePolicyTemplate : Json.

(** [await aws().svc.op(request)] *)
Definition call (c : Call) : M (RespOf c) :=
  fun t =>
    match respond env t c with
    | Resolved a => (Returned a, t ++ [Called c (Resolved a)])
    | Rejected e => (Threw e, t ++ [Called c (Rejected e)])
    end.

(** *** createRoleAndPolicy (workspace.ts 33-80) *)

Definition roleNameOf (roleType : RoleType) (workspaceId accountId region : string)
  : string :=
  match roleType with
  | WorkspaceRole =>
      toLowerCase
        ("twinmaker-workspace-" ++ workspaceId ++ "-" ++ accountId ++ "-" ++ region)
  | WorkspaceDashboardRole =>
      toLowerCase
        ("twinmaker-" ++ roleTypeText roleType ++ "-" ++ workspaceId ++ "-"
           ++ accountId ++ "-" ++ region)
  end.

Definition policyNameOf (roleType : RoleType) (workspaceId accountId region : string)
  : string :=
  match roleType with
  | WorkspaceRole =>
      toLowerCase
        ("twinmaker-workspace-" ++ workspaceId ++ "-" ++ accountId ++ "-" ++ region
           ++ "-AutoPolicy")
  | WorkspaceDashboardRole =>
      toLowerCase
        ("twinmaker-" ++ roleTypeText roleType ++ "-" ++ workspaceId ++ "-"
           ++ accountId ++ "-" ++ region ++ "-AutoPolicy")
  end.

(** [!resp.X || !resp.X.Arn] is false exactly when this is a non-empty
    string. *)
Definition arnOf (o : option ArnHolder) : option string :=
  match o with
  | Some h => Arn h
  | None => None
  end.

Definition createRoleAndPolicy (workspaceId accountId region : string)
    (roleType : RoleType) (roleAssumePolicy rolePolicy : string) : M string :=
  let roleName := roleNameOf roleType workspaceId accountId region in
  let policyName := policyNameOf roleType workspaceId accountId region in
  log ("Creating Role " ++ roleName ++ "...") ;;
  createRoleResponse <-
    call (CreateRole roleName "/" roleAssumePolicy
            (roleTypeText roleType ++ " generated by AWS IoT TwinMaker TMDT")) ;;
  roleArn <- requireTruthy (arnOf (Role createRoleResponse))
               (newError ("Failed to create role " ++ roleName ++ ".")) ;;
  log ("Created Role: " ++ roleArn ++ ".") ;;
  createPolicyResponse <-
    call (CreatePolicy policyName rolePolicy
            (roleTypeText roleType ++ " Policy generated by AWS IoT TwinMaker TMDT")) ;;
  policyArn <- requireTruthy (arnOf (Policy createPolicyResponse))
                 (newError ("Failed to create policy for role " ++ roleArn ++ ".")) ;;
  log ("Created Policy: " ++ policyArn) ;;
  call (AttachRolePolicy roleName policyArn) ;;
  log ("Attached Policy: " ++ policyArn ++ " to Role: " ++ roleArn ++ ".") ;;
  ret roleArn.

(** *** createS3Bucket (workspace.ts 86-147) *)

Definition s3BucketPolicy (s3BucketName : string) : Json :=
  JObject
    [("Statement",
      JArray
        [JObject
           [("Action", JString "s3:*");
            ("Effect", JString "Deny");
            ("Principal", JString "*");
            ("Resource",
             JArray [JString ("arn:aws:s3:::" ++ s3BucketName);
                     JString ("arn:aws:s3:::" ++ s3BucketName ++ "/*")]);
            ("Condition",
             JObject [("Bool", JObject [("aws:SecureTransport", JBool false)])])]])].

Definition createS3Bucket (s3BucketName region : string) : M unit :=
  let params :=
    CreateBucket s3BucketName
      (if negb (region =? "us-east-1")%string then Some region else None) in
  createBucketResponse <- call params ;;
  call (PutBucketVersioning s3BucketName "Enabled") ;;
  call (PutBucketPolicy s3BucketName (JSON_stringify (s3BucketPolicy s3BucketName))) ;;
  call (PutPublicAccessBlock s3BucketName true true true true) ;;
  call (PutBucketEncryption s3BucketName "AES256") ;;
  log ("S3 Bucket created: " ++ show (Location createBucketResponse)).

(** *** Access logging (workspace.ts 150-192) *)

Definition grantPermissionsToWriteLogs (bucketName : string) : M bool :=
  tryCatch
    (call (PutBucketAcl bucketName
             "URI=http://acs.amazonaws.com/groups/s3/LogDelivery"
             "URI=http://acs.amazonaws.com/groups/s3/LogDelivery") ;;
     ret true)
    (fun _ => ret false).

Definition putBucketLogging (sourceBucketName targetBucketName : string) : M bool :=
  tryCatch
    (call (PutBucketLogging sourceBucketName targetBucketName "logs/") ;;
     ret true)
    (fun _ => ret false).

Definition enableAccessLogging (sourceBucketName targetBucketName : string) : M bool :=
  tryCatch
    (grantPermissionsToWriteLogs targetBucketName ;;
     putBucketLogging sourceBucketName targetBucketName ;;
     ret true)
    (fun _ => ret false).

(** *** createWorkspaceS3Bucket (workspace.ts 201-227) *)

Definition workspaceBucketName (workspaceId accountId region : string) : string :=
  toLowerCase
    ("twinmaker-workspace-" ++ workspaceId ++ "-" ++ accountId ++ "-"
       ++ regionToAirportCode region).

Record BucketInfo := { s3BucketName : string; s3BucketArn : string }.

Definition corsRules : list CORSRule :=
  [{| AllowedHeaders := ["*"];
      AllowedMethods := ["GET"; "PUT"; "POST"; "DELETE"; "HEAD"];
      AllowedOrigins := ["*"];
      ExposeHeaders := ["ETag"] |}]%string.

Definition createWorkspaceS3Bucket (workspaceId accountId region : string)
  : M BucketInfo :=
  let s3BucketName := workspaceBucketName workspaceId accountId region in
  log ("Creating S3 Bucket for the TwinMaker Workspace in region: " ++ region ++ "...") ;;
  createS3Bucket s3BucketName region ;;
  log "Configuring CORS Policy..." ;;
  call (PutBucketCors s3BucketName corsRules) ;;
  log "CORS Policy configured" ;;
  log "Creating bucket for access logging..." ;;
  let s3LoggingBucketName := (s3BucketName ++ "-logs")%string in
  createS3Bucket s3LoggingBucketName region ;;
  log "Enabling access logging for workspace S3 Bucket..." ;;
  enableAccessLogging s3BucketName s3LoggingBucketName ;;
  log "Access logging enabled." ;;
  ret {| s3BucketName := s3BucketName;
         s3BucketArn := "arn:aws:s3:::" ++ s3BucketName |}.

(** *** retryWorkspaceCreation (workspace.ts 237-270) *)

Definition retryEligible (err : Thrown) : bool :=
  (instanceofValidationException err
     && messageIncludes err "Could not assume the role provided")
  || (instanceofValidationException err
     && messageIncludes err "Could not access S3 with the role provided").

(** The [try]/[catch] statement of the loop body: [Some arn] is the
    [return workspaceArn], [None] falls through to the loop head. *)
Definition tryCreateWorkspace (workspaceId workspaceRoleArn s3BucketArn : string)
  : M (option string) :=
  tryCatch
    (createWorkspaceResponse <-
       call (CreateWorkspace workspaceId workspaceRoleArn s3BucketArn) ;;
     workspaceArn <- requireTruthy (cw_arn createWorkspaceResponse)
                       (newError "Failed to create Workspace") ;;
     log ("Created Workspace: " ++ workspaceArn) ;;
     ret (Some workspaceArn))
    (fun err =>
       if retryEligible err
       then
         log "Waiting for the newly created role to be propagated..." ;;
         delay 2000 ;;
         ret None
       else throw err).

(** [attempts] is a JavaScript number; the one caller passes the literal 10,
    and on a natural number [while (attempts > 0) { attempts--; ... }] is
    recursion on [attempts]. *)
Fixpoint retryWorkspaceCreation (workspaceId workspaceRoleArn s3BucketArn : string)
    (attempts : nat) : M string :=
  match attempts with
  | O => throw (newError "Retry exhausted")
  | S attempts' =>
      r <- tryCreateWorkspace workspaceId workspaceRoleArn s3BucketArn ;;
      match r with
      | Some workspaceArn => ret workspaceArn
      | None =>
          retryWorkspaceCreation workspaceId workspaceRoleArn s3BucketArn attempts'
      end
  end.

(** *** prepareWorkspace (workspace.ts 277-331) *)

Record ProvisionedWorkspace := {
  workspaceArn : string;
  workspaceS3BucketArn : string;
  workspaceRoleArn : string;
  workspaceDashboardRoleArn : string
}.

Definition dashboardWarning : string :=
  LF ++ "WARNING: Dashboard role policy will be created without video permissions. Please either edit the policy in IAM or create workspace in console to self-define any additional permissions." ++ LF.

(** [policyParams] is a [Record<string, string>]; its keys are kept in
    insertion order, and the two keys added later are new. *)
Definition prepareWorkspace (workspaceId : string) : M ProvisionedWorkspace :=
  let region := aws_region env in
  identity <- call GetCurrentIdentity ;;
  let accountId := accountId identity in
  let accountArn := accountArn identity in
  bucket <- createWorkspaceS3Bucket workspaceId accountId region ;;
  let s3BucketArn := s3BucketArn bucket in
  let policyParams :=
    [("accountId", accountId);
     ("accountArn", accountArn);
     ("region", region);
     ("workspaceId", workspaceId);
     ("workspaceS3BucketArn", s3BucketArn)]%string in
  let workspaceRolePolicy :=
    replaceTemplateVars (JSON_stringify workspaceRolePolicyTemplate) policyParams in
  workspaceRoleArn <-
    createRoleAndPolicy workspaceId accountId (regionToAirportCode region)
      WorkspaceRole (JSON_stringify WORKSPACE_ROLE_ASSUME_POLICY) workspaceRolePolicy ;;
  workspaceArn <- retryWorkspaceCreation workspaceId workspaceRoleArn s3BucketArn 10 ;;
  let policyParams :=
    policyParams ++ [("workspaceArn", workspaceArn);
                     ("dashboardRoleAssumedByArn", accountArn)]%string in
  let workspaceDashboardRoleAssumePolicy :=
    replaceTemplateVars (JSON_stringify WORKSPACE_DASHBOARD_ROLE_ASSUME_POLICY)
      policyParams in
  let workspaceDashboardRolePolicy :=
    replaceTemplateVars (JSON_stringify workspaceDashboardRolePolicyTemplate)
      policyParams in
  log dashboardWarning ;;
  workspaceDashboardRoleArn <-
    createRoleAndPolicy workspaceId accountId (regionToAirportCode region)
      WorkspaceDashboardRole workspaceDashboardRoleAssumePolicy
      workspaceDashboardRolePolicy ;;
  ret {| workspaceArn := workspaceArn;
         workspaceS3BucketArn := s3BucketArn;
         workspaceRoleArn := workspaceRoleArn;
         workspaceDashboardRoleArn := workspaceDashboardRoleArn |}.

(** *** createWorkspaceIfNotExists (workspace.ts 338-359) *)

Record WorkspaceRef := {
  ref_workspaceId : string;
  ref_workspaceArn : option string
}.

Definition createWorkspaceIfNotExists (workspaceId : string) : M WorkspaceRef :=
  log ("Creating a new Workspace: " ++ workspaceId) ;;
  workspace <-
    tryCatch
      (workspace <- call (GetWorkspace workspaceId) ;;
       log "Found an existing Workspace with the same Id. Skip creating Workspace." ;;
       ret workspace)
      (fun e =>
         if instanceofResourceNotFoundException e
         then
           prepareWorkspace workspaceId ;;
           call (GetWorkspace workspaceId)
         else throw (newError ("Failed to get workspace. " ++ errorToString e))) ;;
  if negb (truthy (gw_workspaceId workspace))
  then throw (newError "Unable to get a valid workspace")
  else ret {| ref_workspaceId := workspaceId;
              ref_workspaceArn := gw_arn workspace |}.

(** *** deleteS3Bucket (workspace.ts 451-506) *)

(** [while (isTruncated)] on a [boolean | undefined]. *)
Definition isTrue (b : option bool) : bool :=
  match b with
  | Some true => true
  | _ => false
  end.

(** The first loop.  The number of pages is up to the service, so the loop
    carries fuel: one unit per iteration. *)
Fixpoint deleteObjectsLoop (fuel : nat) (s3BucketName : option string)
    (nonDryRun : bool) (isTruncated : option bool)
    (NextContinuationToken : option string) {struct fuel} : M unit :=
  if isTrue isTruncated then
    match fuel with
    | O => outOfFuel
    | S fuel' =>
        listObjectsResp <- call (ListObjectsV2 s3BucketName NextContinuationToken) ;;
        forOfDefined (Contents listObjectsResp)
          (fun obj =>
             whenTrue nonDryRun (call (DeleteObject s3BucketName (Key obj) None)) ;;
             log ("deleted S3 Object: " ++ show (Key obj))) ;;
        deleteObjectsLoop fuel' s3BucketName nonDryRun
          (lo_IsTruncated listObjectsResp)
          (lo_NextContinuationToken listObjectsResp)
    end
  else ret tt.

(** The second loop, over versions and delete markers. *)
Fixpoint deleteVersionsLoop (fuel : nat) (s3BucketName : option string)
    (nonDryRun : bool) (isTruncated : option bool)
    (NextVersionIdMarker NextKeyMarker : option string) {struct fuel} : M unit :=
  if isTrue isTruncated then
    match fuel with
    | O => outOfFuel
    | S fuel' =>
        listObjectVersionResp <-
          call (ListObjectVersions s3BucketName NextVersionIdMarker NextKeyMarker) ;;
        forOfDefined (Versions listObjectVersionResp)
          (fun version =>
             whenTrue nonDryRun
               (call (DeleteObject s3BucketName (v_Key version) (v_VersionId version))) ;;
             log ("deleted S3 Object: " ++ show (v_Key version) ++ ", version: "
                    ++ show (v_VersionId version))) ;;
        forOfDefined (DeleteMarkers listObjectVersionResp)
          (fun version =>
             whenTrue nonDryRun
               (call (DeleteObject s3BucketName (v_Key version) (v_VersionId version))) ;;
             log ("deleted S3 delete marker: " ++ show (v_Key version) ++ ", version: "
                    ++ show (v_VersionId version))) ;;
        deleteVersionsLoop fuel' s3BucketName nonDryRun
          (lv_IsTruncated listObjectVersionResp)
          (lv_NextVersionIdMarker listObjectVersionResp)
          (lv_NextKeyMarker listObjectVersionResp)
    end
  else ret tt.

Definition deleteS3Bucket (fuel : nat) (s3BucketName : option string)
    (nonDryRun : bool) : M unit :=
  deleteObjectsLoop fuel s3BucketName nonDryRun (Some true) None ;;
  deleteVersionsLoop fuel s3BucketName nonDryRun (Some true) None None ;;
  whenTrue nonDryRun (call (DeleteBucket s3BucketName)) ;;
  log (LF ++ "deleted S3 Bucket: " ++ show s3BucketName).

(** *** deleteWorkspaceBucketAndLogs (workspace.ts 364-390) *)

(** The first [try] statement: the logging bucket, if the bucket has one. *)
Definition deleteLoggingBucket (fuel : nat) (s3BucketName : option string)
    (nonDryRun : bool) : M unit :=
  tryCatch
    (bucketLoggingResp <- call (GetBucketLogging s3BucketName) ;;
     match LoggingEnabled bucketLoggingResp with
     | Some loggingEnabled =>
         log "Deleting logging bucket..." ;;
         deleteS3Bucket fuel (Some (show (TargetBucket loggingEnabled))) nonDryRun
     | None => ret tt
     end)
    (fun e =>
       if instanceofError e
          && messageIncludes e "The specified bucket does not exist"
       then log "Logging Bucket not found, moving on with deletion."
       else throw e).

(** The second [try] statement: the bucket itself. *)
Definition deleteWorkspaceBucket (fuel : nat) (s3BucketName : option string)
    (nonDryRun : bool) : M unit :=
  tryCatch
    (log "Deleting workspace bucket..." ;;
     deleteS3Bucket fuel s3BucketName nonDryRun)
    (fun e =>
       if instanceofNoSuchBucket e
       then log ("Bucket does not exist and cannot be deleted: " ++ show s3BucketName)
       else throw e).

Definition deleteWorkspaceBucketAndLogs (fuel : nat) (s3BucketName : option string)
    (nonDryRun : bool) : M unit :=
  deleteLoggingBucket fuel s3BucketName nonDryRun ;;
  deleteWorkspaceBucket fuel s3BucketName nonDryRun.

(** *** deleteIAMroleAndPolicy (workspace.ts 397-428) *)

Definition deleteIAMroleAndPolicy (roleName : option string) : M unit :=
  instanceProfileResp <- call (ListInstanceProfilesForRole roleName) ;;
  forOfDefined (InstanceProfiles instanceProfileResp)
    (fun instanceProfile =>
       call (RemoveRoleFromInstanceProfile roleName
               (InstanceProfileName instanceProfile)) ;;
       log ("removed role from instance profile: "
              ++ show (InstanceProfileName instanceProfile))) ;;
  rolePolicies <- call (ListRolePolicies roleName) ;;
  forOfDefined (PolicyNames rolePolicies)
    (fun policy =>
       call (DeleteRolePolicy roleName policy) ;;
       log ("deleted policy: " ++ policy)) ;;
  attachedRolePolicies <- call (ListAttachedRolePolicies roleName) ;;
  forOfDefined (AttachedPolicies attachedRolePolicies)
    (fun attachedPolicy =>
       call (DetachRolePolicy roleName (ap_PolicyArn attachedPolicy)) ;;
       call (DeletePolicy (ap_PolicyArn attachedPolicy)) ;;
       log ("detached and deleted policy: " ++ show (ap_PolicyName attachedPolicy))) ;;
  call (DeleteRole roleName) ;;
  log ("deleted role: " ++ show roleName).

(** *** deleteWorkspace (workspace.ts 435-445) *)

Definition deleteWorkspace (workspaceId : string) (nonDryRun : bool) : M unit :=
  tryCatch
    (whenTrue nonDryRun (call (DeleteWorkspace workspaceId)) ;;
     log ("deleted workspace: " ++ workspaceId))
    (fun err =>
       log ("Unable to delete workspace " ++ workspaceId ++ ":" ++ LF ++ " "
              ++ errorToString err) ;;
       throw err).

(** ** Vocabulary of the statements *)

(** *** What a computation appends to the trace *)

(** [Emits m P]: from every trace, [m] ends with some outcome [o] after
    appending some events [new], and [P o new] holds. *)
Definition Emits {A} (m : M A) (P : Outcome A -> Trace -> Prop) : Prop :=
  forall t : Trace, exists (o : Outcome A) (new : Trace), m t = (o, t ++ new) /\ P o new.

(** [Always Q m]: whatever the outcome, the events [m] appends satisfy
    [Q]. *)
Definition Always {A} (Q : Trace -> Prop) (m : M A) : Prop :=
  Emits m (fun _ new => Q new).

(** Every call of [new] satisfies [P]. *)
Definition callsAll (P : Call -> Prop) (new : Trace) : Prop := Forall P (calls new).

(** [Raises ok o new]: a run that throws does so because its last call was
    rejected, with the thrown value, and that call satisfies [ok]; the run
    never runs out of fuel. *)
Definition Raises {A} (ok : Call -> Prop) (o : Outcome A) (new : Trace) : Prop :=
  match o with
  | Returned _ => True
  | Threw e => exists (pre : Trace) (c : Call), new = pre ++ [Called c (Rejected e)] /\ ok c
  | OutOfFuel => False
  end.

(** [Straight cs o new]: the run made the calls [cs] in order and returned,
    or made an initial segment of [cs] and threw what its last call was
    rejected with. *)
Definition Straight {A} (cs : list Call) (o : Outcome A) (new : Trace) : Prop :=
  Raises (fun _ => True) o new
  /\ match o with
     | Returned _ => calls new = cs
     | _ => exists rest : list Call, cs = calls new ++ rest
     end.

(** [Yields ok v o new]: the run returns [v], or throws what its last call
    was rejected with, a call that satisfies [ok]. *)
Definition Yields {A} (ok : Call -> Prop) (v : A) (o : Outcome A) (new : Trace) : Prop :=
  Raises ok o new
  /\ match o with
     | Returned x => x = v
     | _ => True
     end.

(** [xs] of [if (xs != undefined) { for (const x of xs) ... }] as a list. *)
Definition entries {A} (xs : option (list A)) : list A :=
  match xs with
  | Some l => l
  | None => []
  end.

Definition isResolved {A} (r : Result A) : bool :=
  match r with
  | Resolved _ => true
  | Rejected _ => false
  end.

(** *** The retry loop *)

(** The result of a [createWorkspace] call recorded in an event. *)
Definition createWorkspaceResult (ev : Event)
  : option (Result CreateWorkspaceCommandOutput) :=
  match ev with
  | Called c r =>
      match c as c0
            return Result (RespOf c0) -> option (Result CreateWorkspaceCommandOutput)
      with
      | CreateWorkspace _ _ _ => fun r0 => Some r0
      | _ => fun _ => None
      end r
  | _ => None
  end.

(** The results of the [createWorkspace] calls of a trace, in order. *)
Fixpoint attemptsOf (t : Trace) : list (Result CreateWorkspaceCommandOutput) :=
  match t with
  | [] => []
  | ev :: t' =>
      match createWorkspaceResult ev with
      | Some r => r :: attemptsOf t'
      | None => attemptsOf t'
      end
  end.

(** A failed attempt whose error lets the loop go on. *)
Definition retriedFailure (a : Result CreateWorkspaceCommandOutput) : Prop :=
  exists e : Thrown, a = Rejected e /\ retryEligible e = true.

Definition waitingLine : string :=
  "Waiting for the newly created role to be propagated...".

(** [RetryRun W n new out]: with a budget of [n] attempts the loop, whose
    call is [W], appends the events [new] to the trace and ends with
    [out]. *)
Inductive RetryRun (W : Call) : nat -> Trace -> Outcome string -> Prop :=
| RetryExhausted :
    RetryRun W 0 [] (Threw (newError "Retry exhausted"))
| RetryCreated n (r : Result (RespOf W)) (resp : CreateWorkspaceCommandOutput)
    (c : ascii) (s : string) :
    createWorkspaceResult (Called W r) = Some (Resolved resp) ->
    cw_arn resp = Some (String c s) ->
    RetryRun W (S n)
      [Called W r; Logged ("Created Workspace: " ++ String c s)]
      (Returned (String c s))
| RetryNoArn n (r : Result (RespOf W)) (resp : CreateWorkspaceCommandOutput) :
    createWorkspaceResult (Called W r) = Some (Resolved resp) ->
    truthy (cw_arn resp) = false ->
    RetryRun W (S n) [Called W r] (Threw (newError "Failed to create Workspace"))
| RetryFatal n (e : Thrown) :
    retryEligible e = false ->
    RetryRun W (S n) [Called W (Rejected e)] (Threw e)
| RetryAgain n (e : Thrown) (new : Trace) (out : Outcome string) :
    retryEligible e = true ->
    RetryRun W n new out ->
    RetryRun W (S n)
      (Called W (Rejected e) :: Logged waitingLine :: Slept 2000 :: new) out.

(** *** createWorkspaceIfNotExists *)

(** The last statements of [createWorkspaceIfNotExists], on the record a
    [getWorkspace] call resolved with. *)
Definition validated (workspaceId : string) (workspace : GetWorkspaceCommandOutput)
  : Outcome WorkspaceRef :=
  if truthy (gw_workspaceId workspace)
  then Returned {| ref_workspaceId := workspaceId;
                   ref_workspaceArn := gw_arn workspace |}
  else Threw (newError "Unable to get a valid workspace").

Definition foundLine : string :=
  "Found an existing Workspace with the same Id. Skip creating Workspace.".

(** What [createWorkspaceIfNotExists] does from trace [t], by the answer to
    its first [getWorkspace] call. *)
Definition createWorkspaceIfNotExistsCases (workspaceId : string) (t : Trace)
  : Outcome WorkspaceRef * Trace :=
  let t0 := t ++ [Logged ("Creating a new Workspace: " ++ workspaceId)] in
  match respond env t0 (GetWorkspace workspaceId) with
  | Resolved workspace =>
      (validated workspaceId workspace,
       t0 ++ [Called (GetWorkspace workspaceId) (Resolved workspace);
              Logged foundLine])
  | Rejected e =>
      let t1 := t0 ++ [Called (GetWorkspace workspaceId) (Rejected e)] in
      if instanceofResourceNotFoundException e
      then
        match prepareWorkspace workspaceId t1 with
        | (Returned _, t2) =>
            match respond env t2 (GetWorkspace workspaceId) with
            | Resolved workspace =>
                (validated workspaceId workspace,
                 t2 ++ [Called (GetWorkspace workspaceId) (Resolved workspace)])
            | Rejected e' =>
                (Threw e', t2 ++ [Called (GetWorkspace workspaceId) (Rejected e')])
            end
        | (Threw e', t2) => (Threw e', t2)
        | (OutOfFuel, t2) => (OutOfFuel, t2)
        end
      else (Threw (newError ("Failed to get workspace. " ++ errorToString e)), t1)
  end.

(** *** Bucket teardown *)

Definition isDeleteCall (c : Call) : bool :=
  match c with
  | DeleteObject _ _ _ | DeleteBucket _ | DeleteWorkspace _ => true
  | _ => false
  end.

(** None of the calls of [new] is a [deleteObject], [deleteBucket] or
    [deleteWorkspace]. *)
Definition noDeleteCalls (new : Trace) : Prop :=
  Forall (fun c => isDeleteCall c = false) (calls new).

Definition isDeleteEvent (ev : Event) : bool :=
  match ev with
  | Called c _ => isDeleteCall c
  | _ => false
  end.

(** A trace with its delete calls left out. *)
Definition withoutDeletes (t : Trace) : Trace :=
  filter (fun ev => negb (isDeleteEvent ev)) t.

(** [Sim mc md]: started from traces that agree up to delete calls, [mc] and
    [md] end with the same outcome and append events that agree up to
    delete calls. *)
Definition Sim {A} (mc md : M A) : Prop :=
  forall tc td : Trace,
    withoutDeletes tc = withoutDeletes td ->
    exists (o : Outcome A) (nc nd : Trace),
      mc tc = (o, tc ++ nc) /\ md td = (o, td ++ nd)
      /\ withoutDeletes nc = withoutDeletes nd.

Definition deleteObjectCall (b : option string) (obj : S3Object) : Call :=
  DeleteObject b (Key obj) None.

Definition deleteVersionCall (b : option string) (version : ObjectVersion) : Call :=
  DeleteObject b (v_Key version) (v_VersionId version).

(** For a listing event, the delete calls its page asks for: one per listed
    object, or one per listed version followed by one per listed delete
    marker. *)
Definition pageDeletes (ev : Event) : option (list Call) :=
  match ev with
  | Called c r =>
      match c as c0 return Result (RespOf c0) -> option (list Call) with
      | ListObjectsV2 b _ =>
          fun r0 =>
            Some match r0 with
                 | Resolved page => map (deleteObjectCall b) (entries (Contents page))
                 | Rejected _ => []
                 end
      | ListObjectVersions b _ _ =>
          fun r0 =>
            Some match r0 with
                 | Resolved page =>
                     map (deleteVersionCall b)
                       (entries (Versions page) ++ entries (DeleteMarkers page))
                 | Rejected _ => []
                 end
      | _ => fun _ => None
      end r
  | _ => None
  end.

(** The calls a listing event accounts for: the listing call itself and,
    in a committed run, the delete calls for its page.  Any other event
    accounts for none. *)
Definition accountedCalls (commit : bool) (ev : Event) : list Call :=
  match callOf ev, pageDeletes ev with
  | Some c, Some deletes => c :: (if commit then deletes else [])
  | _, _ => []
  end.

(** The calls of [new] are its listing calls, each followed in a committed
    run by the delete calls for its page. *)
Definition listedThenDeleted (commit : bool) (new : Trace) : Prop :=
  calls new = flat_map (accountedCalls commit) new.

Definition isListingCall (c : Call) : bool :=
  match c with
  | ListObjectsV2 _ _ | ListObjectVersions _ _ _ => true
  | _ => false
  end.

(** The number of listing calls among the appended events. *)
Definition pagesListed (new : Trace) : nat :=
  length (filter isListingCall (calls new)).

(** [Ends fuel o new]: a run that does not return throws what its last call
    was rejected with, or has used up its fuel on [fuel] pages. *)
Definition Ends {A} (fuel : nat) (o : Outcome A) (new : Trace) : Prop :=
  match o with
  | Returned _ => True
  | Threw e => exists (pre : Trace) (c : Call), new = pre ++ [Called c (Rejected e)]
  | OutOfFuel => (fuel <= pagesListed new)%nat
  end.

(** *** Role teardown *)

Definition removeProfileCalls (roleName : option string) (instanceProfile : InstanceProfile)
  : list Call :=
  [RemoveRoleFromInstanceProfile roleName (InstanceProfileName instanceProfile)].

Definition deleteInlineCalls (roleName : option string) (policy : string) : list Call :=
  [DeleteRolePolicy roleName policy].

Definition detachDeleteCalls (roleName : option string) (attachedPolicy : AttachedPolicy)
  : list Call :=
  [DetachRolePolicy roleName (ap_PolicyArn attachedPolicy);
   DeletePolicy (ap_PolicyArn attachedPolicy)].

(** The calls of a complete role teardown, given the three listings. *)
Definition roleTeardownCalls (roleName : option string)
    (profiles : option (list InstanceProfile)) (inline : option (list string))
    (attached : option (list AttachedPolicy)) : list Call :=
  [ListInstanceProfilesForRole roleName]
    ++ flat_map (removeProfileCalls roleName) (entries profiles)
    ++ [ListRolePolicies roleName]
    ++ flat_map (deleteInlineCalls roleName) (entries inline)
    ++ [ListAttachedRolePolicies roleName]
    ++ flat_map (detachDeleteCalls roleName) (entries attached)
    ++ [DeleteRole roleName].

(** *** Provisioning *)

Definition isLoggingSetupCall (c : Call) : bool :=
  match c with
  | PutBucketAcl _ _ _ | PutBucketLogging _ _ _ => true
  | _ => false
  end.

Definition logDeliveryGroup : string :=
  "URI=http://acs.amazonaws.com/groups/s3/LogDelivery".

(** No code unit of [s] is an upper-case letter, of 'A'..'Z' or of the
    Latin-1 supplement: [s] is a string that [toLowerCase] leaves as it
    is. *)
Fixpoint isLowerCase (s : string) : bool :=
  match s with
  | EmptyString => true
  | String c s' => negb (isUpper c) && isLowerCase s'
  end.

(** A call of the role provisioner on the role [roleName] or the policy
    [policyName]. *)
Definition onRole (roleName policyName : string) (c : Call) : Prop :=
  match c with
  | CreateRole n _ _ _ => n = roleName
  | CreatePolicy n _ _ => n = policyName
  | AttachRolePolicy n _ => n = roleName
  | _ => False
  end.

(** A call of the bucket provisioner on the bucket [bucketName] or on its
    logging bucket. *)
Definition onBucket (bucketName : string) (c : Call) : Prop :=
  match c with
  | CreateBucket n _
  | PutBucketVersioning n _
  | PutBucketPolicy n _
  | PutPublicAccessBlock n _ _ _ _
  | PutBucketEncryption n _
  | PutBucketCors n _
  | PutBucketAcl n _ _ => n = bucketName \/ n = (bucketName ++ "-logs")%string
  | PutBucketLogging source target _ =>
      source = bucketName /\ target = (bucketName ++ "-logs")%string
  | _ => False
  end.

(** *** Sleeps, phases and pages *)

(** The sleeps of a trace, in order. *)
Fixpoint sleepsOf (t : Trace) : list Z :=
  match t with
  | [] => []
  | Slept ms :: t' => ms :: sleepsOf t'
  | _ :: t' => sleepsOf t'
  end.

(** An attempt that was rejected with an error the loop retries on. *)
Definition isRetried (a : Result CreateWorkspaceCommandOutput) : bool :=
  match a with
  | Rejected e => retryEligible e
  | Resolved _ => false
  end.

(** [LocationConstraint] of the [createBucket] request for a region. *)
Definition locationConstraintOf (region : string) : option string :=
  if (region =? "us-east-1")%string then None else Some region.

(** The calls that set up one bucket, in the order of [createS3Bucket]. *)
Definition secureBucketCalls (s3BucketName : string) (locationConstraint : option string)
  : list Call :=
  [CreateBucket s3BucketName locationConstraint;
   PutBucketVersioning s3BucketName "Enabled";
   PutBucketPolicy s3BucketName (JSON_stringify (s3BucketPolicy s3BucketName));
   PutPublicAccessBlock s3BucketName true true true true;
   PutBucketEncryption s3BucketName "AES256"].

(** The calls of [createWorkspaceS3Bucket] for the bucket [s3BucketName]. *)
Definition workspaceBucketCalls (s3BucketName region : string) : list Call :=
  secureBucketCalls s3BucketName (locationConstraintOf region)
    ++ [PutBucketCors s3BucketName corsRules]
    ++ secureBucketCalls (s3BucketName ++ "-logs") (locationConstraintOf region)
    ++ [PutBucketAcl (s3BucketName ++ "-logs") logDeliveryGroup logDeliveryGroup;
        PutBucketLogging s3BucketName (s3BucketName ++ "-logs") "logs/"].

(** A call that removes or detaches something. *)
Definition isDestructiveCall (c : Call) : bool :=
  match c with
  | RemoveRoleFromInstanceProfile _ _
  | DeleteRolePolicy _ _
  | DetachRolePolicy _ _
  | DeletePolicy _
  | DeleteRole _
  | DeleteObject _ _ _
  | DeleteBucket _
  | DeleteWorkspace _ => true
  | _ => false
  end.

(** [Phased phases cs]: the calls [cs] fall into consecutive segments, one
    per phase and possibly empty, the calls of a segment satisfying the
    predicate of its phase. *)
Fixpoint Phased (phases : list (Call -> Prop)) (cs : list Call) : Prop :=
  match phases with
  | [] => cs = []
  | P :: rest => exists l1 l2 : list Call, cs = l1 ++ l2 /\ Forall P l1 /\ Phased rest l2
  end.

Definition inPhases (phases : list (Call -> Prop)) (new : Trace) : Prop :=
  Phased phases (calls new).

(** A [createWorkspace] call for the workspace [workspaceId]. *)
Definition createsWorkspace (workspaceId : string) (c : Call) : Prop :=
  exists role s3Location : string, c = CreateWorkspace workspaceId role s3Location.

(** [WhenReturned P o new]: if the run returned [a], then [P a new]. *)
Definition WhenReturned {A} (P : A -> Trace -> Prop) (o : Outcome A) (new : Trace)
  : Prop :=
  match o with
  | Returned a => P a new
  | _ => True
  end.

(** How a listing call ended: with a page that announces another one, whose
    request is to carry the markers [next]; with the last page; or
    rejected. *)
Inductive PageEnd (K : Type) :=
| More (next : K)
| Last
| Failed.
#[global] Arguments More {K} next.
#[global] Arguments Last {K}.
#[global] Arguments Failed {K}.

(** For a [listObjectsV2] event, the continuation token of the request and
    how the call ended. *)
Definition objectStep (ev : Event) : option (option string * PageEnd (option string)) :=
  match ev with
  | Called c r =>
      match c as c0
            return Result (RespOf c0) -> option (option string * PageEnd (option string))
      with
      | ListObjectsV2 _ token =>
          fun r0 =>
            Some (token,
                  match r0 with
                  | Resolved page =>
                      if isTrue (lo_IsTruncated page)
                      then More (lo_NextContinuationToken page)
                      else Last
                  | Rejected _ => Failed
                  end)
      | _ => fun _ => None
      end r
  | _ => None
  end.

(** For a [listObjectVersions] event, the version-id marker and the key
    marker of the request and how the call ended. *)
Definition versionStep (ev : Event)
  : option ((option string * option string) * PageEnd (option string * option string)) :=
  match ev with
  | Called c r =>
      match c as c0
            return Result (RespOf c0)
                   -> option ((option string * option string)
                              * PageEnd (option string * option string))
      with
      | ListObjectVersions _ versionIdMarker keyMarker =>
          fun r0 =>
            Some ((versionIdMarker, keyMarker),
                  match r0 with
                  | Resolved page =>
                      if isTrue (lv_IsTruncated page)
                      then More (lv_NextVersionIdMarker page, lv_NextKeyMarker page)
                      else Last
                  | Rejected _ => Failed
                  end)
      | _ => fun _ => None
      end r
  | _ => None
  end.

(** The listing steps of a trace, in order. *)
Definition stepsOf {K} (step : Event -> option (K * PageEnd K)) (t : Trace)
  : list (K * PageEnd K) :=
  flat_map (fun ev => match step ev with Some s => [s] | None => [] end) t.

(** [chained start steps]: the first request carries [start], each further
    request carries the markers that the page before it announced, and no
    request follows the last page or a rejected call. *)
Fixpoint chained {K} (start : K) (steps : list (K * PageEnd K)) : Prop :=
  match steps with
  | [] => True
  | (requested, how) :: rest =>
      requested = start
      /\ match how with
         | More next => chained next rest
         | _ => rest = []
         end
  end.

(** The listing went up to its last page. *)
Definition complete {K} (steps : list (K * PageEnd K)) : Prop :=
  exists (pre : list (K * PageEnd K)) (k : K), steps = pre ++ [(k, Last)].

(** No call of the trace was rejected. *)
Definition allResolved (t : Trace) : bool :=
  forallb (fun ev => match ev with
                     | Called _ (Rejected _) => false
                     | _ => true
                     end) t.

(** A call of the first loop of a bucket teardown on the bucket [b]. *)
Definition objectPhase (b : option string) (c : Call) : Prop :=
  (exists token, c = ListObjectsV2 b token) \/ (exists key, c = DeleteObject b key None).

(** A call of the second loop of a bucket teardown on the bucket [b]. *)
Definition versionPhase (b : option string) (c : Call) : Prop :=
  (exists versionIdMarker keyMarker, c = ListObjectVersions b versionIdMarker keyMarker)
  \/ (exists key versionId, c = DeleteObject b key versionId).

(** A call of a bucket teardown on the bucket [b]. *)
Definition teardownOn (b : option string) (c : Call) : Prop :=
  match c with
  | ListObjectsV2 b' _
  | ListObjectVersions b' _ _
  | DeleteObject b' _ _
  | DeleteBucket b' => b' = b
  | _ => False
  end.

(** The bucket that the answer to the logging query makes the teardown
    delete first: the target bucket of the logging configuration, read as a
    string. *)
Definition loggingTargetOf (r : Result GetBucketLoggingCommandOutput)
  : option (option string) :=
  match r with
  | Resolved resp =>
      match LoggingEnabled resp with
      | Some loggingEnabled => Some (Some (show (TargetBucket loggingEnabled)))
      | None => None
      end
  | Rejected _ => None
  end.

(** ** Reasoning about runs *)

Lemma bind_unfold {A B} (m : M A) (k : A -> M B) (t : Trace) :
  bind m k t =
  match m t with
  | (Returned a, t') => k a t'
  | (Threw e, t') => (Threw e, t')
  | (OutOfFuel, t') => (OutOfFuel, t')
  end.
Proof. reflexivity. Qed.

Lemma call_resolved (c : Call) (t : Trace) (a : RespOf c) :
  respond env t c = Resolved a ->
  call c t = (Returned a, t ++ [Called c (Resolved a)]).
Proof. intros H. unfold call. rewrite H. reflexivity. Qed.

Lemma call_rejected (c : Call) (t : Trace) (e : Thrown) :
  respond env t c = Rejected e ->
  call c t = (Threw e, t ++ [Called c (Rejected e)]).
Proof. intros H. unfold call. rewrite H. reflexivity. Qed.

Lemma calls_app (t1 t2 : Trace) : calls (t1 ++ t2) = calls t1 ++ calls t2.
Proof.
  induction t1 as [|ev t1 IH]; simpl; [reflexivity|].
  destruct ev; simpl; rewrite IH; reflexivity.
Qed.

(** *** What a computation appends to the trace *)

Lemma Emits_weaken {A} (m : M A) (P Q : Outcome A -> Trace -> Prop) :
  Emits m P -> (forall o new, P o new -> Q o new) -> Emits m Q.
Proof.
  intros Hm HPQ t. destruct (Hm t) as (o & new & Hrun & HP).
  exists o, new. split; [assumption|apply HPQ; assumption].
Qed.

Lemma Emits_ret {A} (a : A) (P : Outcome A -> Trace -> Prop) :
  P (Returned a) [] -> Emits (ret a) P.
Proof.
  intros HP t. exists (Returned a), []. rewrite app_nil_r. split; [reflexivity|assumption].
Qed.

Lemma Emits_throw {A} (e : Thrown) (P : Outcome A -> Trace -> Prop) :
  P (Threw e) [] -> Emits (throw e) P.
Proof.
  intros HP t. exists (Threw e), []. rewrite app_nil_r. split; [reflexivity|assumption].
Qed.

Lemma Emits_outOfFuel {A} (P : Outcome A -> Trace -> Prop) :
  P OutOfFuel [] -> Emits outOfFuel P.
Proof.
  intros HP t. exists OutOfFuel, []. rewrite app_nil_r. split; [reflexivity|assumption].
Qed.

Lemma Emits_log (line : string) (P : Outcome unit -> Trace -> Prop) :
  P (Returned tt) [Logged line] -> Emits (log line) P.
Proof.
  intros HP t. exists (Returned tt), [Logged line]. split; [reflexivity|assumption].
Qed.

Lemma Emits_delay (ms : Z) (P : Outcome unit -> Trace -> Prop) :
  P (Returned tt) [Slept ms] -> Emits (delay ms) P.
Proof.
  intros HP t. exists (Returned tt), [Slept ms]. split; [reflexivity|assumption].
Qed.

Lemma Emits_call (c : Call) (P : Outcome (RespOf c) -> Trace -> Prop) :
  (forall a : RespOf c, P (Returned a) [Called c (Resolved a)]) ->
  (forall e : Thrown, P (Threw e) [Called c (Rejected e)]) ->
  Emits (call c) P.
Proof.
  intros Hok Herr t. unfold call.
  destruct (respond env t c) as [e|a].
  - exists (Threw e), [Called c (Rejected e)]. split; [reflexivity|apply Herr].
  - exists (Returned a), [Called c (Resolved a)]. split; [reflexivity|apply Hok].
Qed.

Lemma Emits_bind {A B} (m : M A) (k : A -> M B) (P : Outcome B -> Trace -> Prop) :
  Emits m (fun o n1 =>
             match o with
             | Returned a => Emits (k a) (fun o2 n2 => P o2 (n1 ++ n2))
             | Threw e => P (Threw e) n1
             | OutOfFuel => P OutOfFuel n1
             end) ->
  Emits (bind m k) P.
Proof.
  intros Hm t. destruct (Hm t) as (o & n1 & Hrun & HP).
  rewrite bind_unfold, Hrun. destruct o as [a|e|].
  - destruct (HP (t ++ n1)) as (o2 & n2 & Hrun2 & HP2).
    exists o2, (n1 ++ n2). rewrite app_assoc. split; assumption.
  - exists (Threw e), n1. split; [reflexivity|assumption].
  - exists OutOfFuel, n1. split; [reflexivity|assumption].
Qed.

Lemma Emits_tryCatch {A} (body : M A) (handler : Thrown -> M A)
    (P : Outcome A -> Trace -> Prop) :
  Emits body (fun o n1 =>
                match o with
                | Threw e => Emits (handler e) (fun o2 n2 => P o2 (n1 ++ n2))
                | Returned a => P (Returned a) n1
                | OutOfFuel => P OutOfFuel n1
                end) ->
  Emits (tryCatch body handler) P.
Proof.
  intros Hm t. destruct (Hm t) as (o & n1 & Hrun & HP).
  unfold tryCatch. rewrite Hrun. destruct o as [a|e|].
  - exists (Returned a), n1. split; [reflexivity|assumption].
  - destruct (HP (t ++ n1)) as (o2 & n2 & Hrun2 & HP2).
    exists o2, (n1 ++ n2). rewrite app_assoc. split; assumption.
  - exists OutOfFuel, n1. split; [reflexivity|assumption].
Qed.

Section Closed.

Variable Q : Trace -> Prop.
Hypothesis Q_nil : Q [].
Hypothesis Q_app : forall n1 n2 : Trace, Q n1 -> Q n2 -> Q (n1 ++ n2).

Lemma Always_ret {A} (a : A) : Always Q (ret a).
Proof using Q_nil. apply Emits_ret. exact Q_nil. Qed.

Lemma Always_throw {A} (e : Thrown) : Always Q (@throw A e).
Proof using Q_nil. apply Emits_throw. exact Q_nil. Qed.

Lemma Always_outOfFuel {A} : Always Q (@outOfFuel A).
Proof using Q_nil. apply Emits_outOfFuel. exact Q_nil. Qed.

Lemma Always_bind {A B} (m : M A) (k : A -> M B) :
  Always Q m -> (forall a, Always Q (k a)) -> Always Q (bind m k).
Proof using Q_app.
  intros Hm Hk. apply Emits_bind. eapply Emits_weaken; [exact Hm|].
  intros [a|e|] n1 H1; cbn; try assumption.
  eapply Emits_weaken; [apply Hk|]. intros o2 n2 H2. apply Q_app; assumption.
Qed.

Lemma Always_tryCatch {A} (body : M A) (handler : Thrown -> M A) :
  Always Q body -> (forall e, Always Q (handler e)) -> Always Q (tryCatch body handler).
Proof using Q_app.
  intros Hm Hk. apply Emits_tryCatch. eapply Emits_weaken; [exact Hm|].
  intros [a|e|] n1 H1; cbn; try assumption.
  eapply Emits_weaken; [apply Hk|]. intros o2 n2 H2. apply Q_app; assumption.
Qed.

Lemma Always_forOf {A} (xs : list A) (body : A -> M unit) :
  (forall x, Always Q (body x)) -> Always Q (forOf xs body).
Proof using Q_nil Q_app.
  intros Hbody. induction xs as [|x xs IH]; cbn [forOf].
  - apply Always_ret.
  - apply Always_bind; [apply Hbody|intros _; exact IH].
Qed.

Lemma Always_forOfDefined {A} (xs : option (list A)) (body : A -> M unit) :
  (forall x, Always Q (body x)) -> Always Q (forOfDefined xs body).
Proof using Q_nil Q_app.
  intros Hbody. destruct xs as [l|]; cbn [forOfDefined].
  - apply Always_forOf; assumption.
  - apply Always_ret.
Qed.

Lemma Always_whenTrue {A} (b : bool) (m : M A) :
  (b = true -> Always Q m) -> Always Q (whenTrue b m).
Proof using Q_nil Q_app.
  intros Hm. unfold whenTrue. destruct b.
  - apply Always_bind; [apply Hm; reflexivity|intros _; apply Always_ret].
  - apply Always_ret.
Qed.

End Closed.

Lemma Always_log (Q : Trace -> Prop) (line : string) :
  Q [Logged line] -> Always Q (log line).
Proof. intros H. apply Emits_log. exact H. Qed.

Lemma Always_call (Q : Trace -> Prop) (c : Call) :
  (forall r : Result (RespOf c), Q [Called c r]) -> Always Q (call c).
Proof. intros H. apply Emits_call; intros; apply H. Qed.

(** One step of a proof that a computation built from the primitives keeps
    an append-closed property of the appended events. *)
Ltac always_step Hnil Happ :=
  lazymatch goal with
  | |- Always _ (ret _) => apply Always_ret; exact Hnil
  | |- Always _ (throw _) => apply Always_throw; exact Hnil
  | |- Always _ outOfFuel => apply Always_outOfFuel; exact Hnil
  | |- Always _ (log _) => apply Always_log
  | |- Always _ (call _) => apply Always_call; intros ?
  | |- Always _ (bind _ _) => apply Always_bind; [exact Happ| |intros ?]
  | |- Always _ (tryCatch _ _) => apply Always_tryCatch; [exact Happ| |intros ?]
  | |- Always _ (forOfDefined _ _) =>
      apply Always_forOfDefined; [exact Hnil|exact Happ|intros ?]
  | |- Always _ (forOf _ _) => apply Always_forOf; [exact Hnil|exact Happ|intros ?]
  | |- Always _ (whenTrue _ _) =>
      apply Always_whenTrue; [exact Hnil|exact Happ|intros ?]
  | |- Always _ (if ?c then _ else _) => destruct c
  | |- Always _ (match ?x with Some _ => _ | None => _ end) => destruct x
  end.

(** *** The runs of the retry loop *)

Lemma retry_run (workspaceId workspaceRoleArn s3BucketArn : string) (n : nat) :
  forall t : Trace,
  exists (out : Outcome string) (new : Trace),
    retryWorkspaceCreation workspaceId workspaceRoleArn s3BucketArn n t
      = (out, t ++ new)
    /\ RetryRun (CreateWorkspace workspaceId workspaceRoleArn s3BucketArn) n new out.
Proof.
  induction n as [|n IH]; intros t.
  - exists (Threw (newError "Retry exhausted")), [].
    simpl. unfold throw. rewrite app_nil_r. split; [reflexivity|constructor].
  - cbn [retryWorkspaceCreation]. rewrite bind_unfold.
    unfold tryCreateWorkspace, tryCatch. rewrite bind_unfold.
    unfold call.
    destruct (respond env t (CreateWorkspace workspaceId workspaceRoleArn s3BucketArn))
      as [e|resp] eqn:Hr.
    + destruct (retryEligible e) eqn:He.
      * unfold bind, log, delay, ret. cbn.
        destruct (IH (((t ++ [Called (CreateWorkspace workspaceId workspaceRoleArn
                                       s3BucketArn) (Rejected e)])
                         ++ [Logged waitingLine]) ++ [Slept 2000]))
          as (out & new & Hrun & HR).
        exists out, (Called (CreateWorkspace workspaceId workspaceRoleArn s3BucketArn)
                       (Rejected e) :: Logged waitingLine :: Slept 2000 :: new).
        split.
        -- etransitivity; [exact Hrun|].
           rewrite <- !app_assoc. reflexivity.
        -- apply RetryAgain; assumption.
      * exists (Threw e),
          [Called (CreateWorkspace workspaceId workspaceRoleArn s3BucketArn) (Rejected e)].
        unfold throw. split; [reflexivity|]. apply RetryFatal; assumption.
    + rewrite bind_unfold. cbn in resp.
      destruct (cw_arn resp) as [[|c s]|] eqn:Harn.
      * exists (Threw (newError "Failed to create Workspace")),
          [Called (CreateWorkspace workspaceId workspaceRoleArn s3BucketArn) (Resolved resp)].
        cbn. split; [reflexivity|].
        eapply RetryNoArn; [reflexivity|]. rewrite Harn. reflexivity.
      * exists (Returned (String c s)),
          [Called (CreateWorkspace workspaceId workspaceRoleArn s3BucketArn) (Resolved resp);
           Logged ("Created Workspace: " ++ String c s)].
        cbn. unfold bind, log, ret. cbn.
        rewrite <- app_assoc. split; [reflexivity|].
        eapply RetryCreated; [reflexivity|exact Harn].
      * exists (Threw (newError "Failed to create Workspace")),
          [Called (CreateWorkspace workspaceId workspaceRoleArn s3BucketArn) (Resolved resp)].
        cbn. split; [reflexivity|].
        eapply RetryNoArn; [reflexivity|]. rewrite Harn. reflexivity.
Qed.

Lemma retry_run_calls (w r b : string) (n : nat) (new : Trace) (out : Outcome string) :
  RetryRun (CreateWorkspace w r b) n new out ->
  Forall (eq (CreateWorkspace w r b)) (calls new)
  /\ (length (calls new) <= n)%nat
  /\ length (attemptsOf new) = length (calls new).
Proof.
  induction 1 as [|n r0 resp c s Hr Harn|n r0 resp Hr Harn|n e He|n e new out He HR IH].
  - repeat split; simpl; [constructor|lia].
  - cbn in Hr. repeat split; simpl; [repeat constructor|lia].
  - cbn in Hr. repeat split; simpl; [repeat constructor|lia].
  - repeat split; simpl; [repeat constructor|lia].
  - destruct IH as (Hall & Hlen & Hatt). repeat split; simpl.
    + constructor; [reflexivity|assumption].
    + lia.
    + rewrite Hatt. reflexivity.
Qed.

Lemma retry_run_success (w r b : string) (n : nat) (new : Trace) (out : Outcome string) :
  RetryRun (CreateWorkspace w r b) n new out ->
  forall (k : nat) (resp : CreateWorkspaceCommandOutput) (arn : string),
    nth_error (attemptsOf new) k = Some (Resolved resp) ->
    cw_arn resp = Some arn -> arn <> EmptyString ->
    out = Returned arn.
Proof.
  induction 1 as [|n r0 resp0 c s Hr Harn|n r0 resp0 Hr Harn|n e He|n e new out He HR IH];
    intros k resp arn Hk Hresp Hne.
  - destruct k; discriminate Hk.
  - cbn in Hr. injection Hr as ->. cbn in Hk.
    destruct k as [|k]; [|destruct k; discriminate Hk].
    cbn in Hk. injection Hk as <-. rewrite Harn in Hresp.
    injection Hresp as <-. reflexivity.
  - cbn in Hr. injection Hr as ->. cbn in Hk.
    destruct k as [|k]; [|destruct k; discriminate Hk].
    cbn in Hk. injection Hk as <-. rewrite Hresp in Harn.
    destruct arn; [contradiction Hne; reflexivity|discriminate Harn].
  - cbn in Hk. destruct k as [|k]; [discriminate Hk|destruct k; discriminate Hk].
  - cbn in Hk. destruct k as [|k]; [discriminate Hk|].
    cbn in Hk. eapply IH; eassumption.
Qed.

Lemma retry_run_exhausted (w r b : string) (n : nat) (new : Trace) (out : Outcome string) :
  RetryRun (CreateWorkspace w r b) n new out ->
  Forall retriedFailure (attemptsOf new) ->
  out = Threw (newError "Retry exhausted") /\ length (calls new) = n.
Proof.
  induction 1 as [|n r0 resp0 c s Hr Harn|n r0 resp0 Hr Harn|n e He|n e new out He HR IH];
    intros Hall.
  - split; reflexivity.
  - cbn in Hr. injection Hr as ->. cbn in Hall.
    inversion Hall as [|a l (e & Hee & _) _]. discriminate Hee.
  - cbn in Hr. injection Hr as ->. cbn in Hall.
    inversion Hall as [|a l (e & Hee & _) _]. discriminate Hee.
  - cbn in Hall. inversion Hall as [|a l (e' & Hee & He') _].
    injection Hee as <-. congruence.
  - cbn in Hall. inversion Hall as [|a l _ Hrest]. subst.
    destruct (IH Hrest) as [-> Hlen]. split; [reflexivity|].
    simpl. rewrite Hlen. reflexivity.
Qed.

Lemma retriedFailure_not_exhausted (a : Result CreateWorkspaceCommandOutput) :
  retriedFailure a -> a <> Rejected (newError "Retry exhausted").
Proof.
  intros (e & -> & He) Heq. injection Heq as ->. discriminate He.
Qed.

(** C1.  With a budget of 10 attempts the retry loop issues nothing but
    [createWorkspace] calls, and at most 10 of them; [attemptsOf] lists
    their results.  If the k-th of them resolves with a non-empty arn, the
    loop returns that arn.  If every one
    of them is rejected with an error that makes the loop retry, the loop
    has made exactly 10 calls and throws [Error('Retry exhausted')], an
    error that none of the calls was rejected with. *)
Theorem retryWorkspaceCreation_bound (w r b : string) (t : Trace) :
  exists (out : Outcome string) (new : Trace),
    retryWorkspaceCreation w r b 10 t = (out, t ++ new)
    /\ Forall (eq (CreateWorkspace w r b)) (calls new)
    /\ (length (calls new) <= 10)%nat
    /\ length (attemptsOf new) = length (calls new)
    /\ (forall (k : nat) (resp : CreateWorkspaceCommandOutput) (arn : string),
          nth_error (attemptsOf new) k = Some (Resolved resp) ->
          cw_arn resp = Some arn -> arn <> EmptyString ->
          out = Returned arn)
    /\ (Forall retriedFailure (attemptsOf new) ->
          out = Threw (newError "Retry exhausted")
          /\ length (calls new) = 10%nat
          /\ Forall (fun a => a <> Rejected (newError "Retry exhausted"))
               (attemptsOf new)).
Proof.
  destruct (retry_run w r b 10 t) as (out & new & Hrun & HR).
  exists out, new.
  destruct (retry_run_calls HR) as (Hall & Hlen & Hatt).
  repeat split; try assumption.
  - intros k resp arn. apply (retry_run_success HR).
  - apply (retry_run_exhausted HR); assumption.
  - apply (retry_run_exhausted HR); assumption.
  - eapply Forall_impl; [|eassumption].
    intros a. apply retriedFailure_not_exhausted.
Qed.

(** C2.  When the [createWorkspace] call of an attempt is rejected with [e],
    the loop logs, sleeps 2000 ms and goes on with the remaining budget if
    [e] is a [ValidationException] whose message contains one of the two
    phrases, and otherwise rethrows [e] at once: the rejected call is the
    last event, nothing is slept and no further call is made. *)
Theorem retryWorkspaceCreation_on_failure (w r b : string) (n : nat) (t : Trace)
    (e : Thrown) :
  respond env t (CreateWorkspace w r b) = Rejected e ->
  (retryEligible e = true <->
     instanceofValidationException e = true
     /\ (messageIncludes e "Could not assume the role provided" = true
         \/ messageIncludes e "Could not access S3 with the role provided" = true))
  /\ (retryEligible e = true ->
        retryWorkspaceCreation w r b (S n) t =
        retryWorkspaceCreation w r b n
          (t ++ [Called (CreateWorkspace w r b) (Rejected e);
                 Logged "Waiting for the newly created role to be propagated...";
                 Slept 2000]))
  /\ (retryEligible e = false ->
        retryWorkspaceCreation w r b (S n) t =
        (Threw e, t ++ [Called (CreateWorkspace w r b) (Rejected e)])).
Proof.
  intros Hr. split; [|split].
  - unfold retryEligible.
    destruct (instanceofValidationException e); cbn.
    + rewrite orb_true_iff. split; [intros H; split; [reflexivity|exact H]|].
      intros [_ H]. exact H.
    + split; [discriminate|]. intros [H _]. discriminate H.
  - intros He. cbn [retryWorkspaceCreation]. rewrite bind_unfold.
    unfold tryCreateWorkspace, tryCatch. rewrite bind_unfold.
    rewrite (call_rejected _ _ Hr). rewrite He.
    unfold bind, log, delay, ret. cbn. rewrite <- !app_assoc. reflexivity.
  - intros He. cbn [retryWorkspaceCreation]. rewrite bind_unfold.
    unfold tryCreateWorkspace, tryCatch. rewrite bind_unfold.
    rewrite (call_rejected _ _ Hr). rewrite He. reflexivity.
Qed.

(** *** createWorkspaceIfNotExists, case by case *)

Lemma createWorkspaceIfNotExists_cases (workspaceId : string) (t : Trace) :
  createWorkspaceIfNotExists workspaceId t
  = createWorkspaceIfNotExistsCases workspaceId t.
Proof.
  unfold createWorkspaceIfNotExists, createWorkspaceIfNotExistsCases.
  rewrite bind_unfold. unfold log at 1. cbn iota.
  rewrite bind_unfold. unfold tryCatch. rewrite bind_unfold. unfold call at 1.
  destruct (respond env _ (GetWorkspace workspaceId)) as [e|workspace].
  - destruct (instanceofResourceNotFoundException e).
    + rewrite bind_unfold.
      destruct (prepareWorkspace workspaceId _) as [[p|e'|] t2]; try reflexivity.
      unfold call.
      destruct (respond env t2 (GetWorkspace workspaceId)) as [e'|workspace];
        [reflexivity|].
      unfold validated. destruct (truthy (gw_workspaceId workspace)); reflexivity.
    + reflexivity.
  - unfold bind, log, ret, validated, foundLine. rewrite <- app_assoc. cbn.
    destruct (truthy (gw_workspaceId workspace)); reflexivity.
Qed.

(** C3, amended.  [createWorkspaceIfNotExists] logs and fetches the
    workspace by id.  If the fetch resolves, nothing else is called: the
    function returns the requested id with the fetched [arn] when the
    fetched record has a [workspaceId], and throws
    [Error('Unable to get a valid workspace')] when it has none.  If the
    fetch is rejected with a [ResourceNotFoundException], [prepareWorkspace]
    runs, and if it returns the workspace is fetched again and the fetched
    record is treated the same way.  If the fetch is rejected with anything
    else, [Error('Failed to get workspace. ' + e)] is thrown and nothing
    else is called. *)
Theorem createWorkspaceIfNotExists_fetch (workspaceId : string) (t : Trace) :
  let t0 := t ++ [Logged ("Creating a new Workspace: " ++ workspaceId)] in
  (forall workspace : GetWorkspaceCommandOutput,
     respond env t0 (GetWorkspace workspaceId) = Resolved workspace ->
     createWorkspaceIfNotExists workspaceId t =
     ((if truthy (gw_workspaceId workspace)
       then Returned {| ref_workspaceId := workspaceId;
                        ref_workspaceArn := gw_arn workspace |}
       else Threw (newError "Unable to get a valid workspace")),
      t0 ++ [Called (GetWorkspace workspaceId) (Resolved workspace);
             Logged "Found an existing Workspace with the same Id. Skip creating Workspace."]))
  /\ (forall e : Thrown,
        respond env t0 (GetWorkspace workspaceId) = Rejected e ->
        instanceofResourceNotFoundException e = true ->
        createWorkspaceIfNotExists workspaceId t =
        match prepareWorkspace workspaceId
                (t0 ++ [Called (GetWorkspace workspaceId) (Rejected e)])
        with
        | (Returned _, t2) =>
            match respond env t2 (GetWorkspace workspaceId) with
            | Resolved workspace =>
                ((if truthy (gw_workspaceId workspace)
                  then Returned {| ref_workspaceId := workspaceId;
                                   ref_workspaceArn := gw_arn workspace |}
                  else Threw (newError "Unable to get a valid workspace")),
                 t2 ++ [Called (GetWorkspace workspaceId) (Resolved workspace)])
            | Rejected e' =>
                (Threw e', t2 ++ [Called (GetWorkspace workspaceId) (Rejected e')])
            end
        | (Threw e', t2) => (Threw e', t2)
        | (OutOfFuel, t2) => (OutOfFuel, t2)
        end)
  /\ (forall e : Thrown,
        respond env t0 (GetWorkspace workspaceId) = Rejected e ->
        instanceofResourceNotFoundException e = false ->
        createWorkspaceIfNotExists workspaceId t =
        (Threw (newError ("Failed to get workspace. " ++ errorToString e)),
         t0 ++ [Called (GetWorkspace workspaceId) (Rejected e)])).
Proof.
  intros t0. rewrite createWorkspaceIfNotExists_cases.
  unfold createWorkspaceIfNotExistsCases. fold t0.
  split; [|split].
  - intros workspace ->. reflexivity.
  - intros e -> ->. reflexivity.
  - intros e -> ->. reflexivity.
Qed.

(** Whenever [createWorkspaceIfNotExists] returns, the [arn] it returns is
    the one of the record its last [getWorkspace] call resolved with, a
    record that has a [workspaceId]; the id is the requested one. *)
Lemma createWorkspaceIfNotExists_returned (workspaceId : string) (t t' : Trace)
    (ref : WorkspaceRef) :
  createWorkspaceIfNotExists workspaceId t = (Returned ref, t') ->
  exists (before after : Trace) (workspace : GetWorkspaceCommandOutput),
    t' = before ++ Called (GetWorkspace workspaceId) (Resolved workspace) :: after
    /\ calls after = []
    /\ truthy (gw_workspaceId workspace) = true
    /\ ref = {| ref_workspaceId := workspaceId;
                ref_workspaceArn := gw_arn workspace |}.
Proof.
  rewrite createWorkspaceIfNotExists_cases. unfold createWorkspaceIfNotExistsCases.
  set (t0 := t ++ [Logged ("Creating a new Workspace: " ++ workspaceId)]).
  destruct (respond env t0 (GetWorkspace workspaceId)) as [e|workspace].
  - destruct (instanceofResourceNotFoundException e); [|discriminate].
    destruct (prepareWorkspace workspaceId _) as [[p|e'|] t2]; try discriminate.
    destruct (respond env t2 (GetWorkspace workspaceId)) as [e'|workspace];
      [discriminate|].
    unfold validated. destruct (truthy (gw_workspaceId workspace)) eqn:Hid;
      [|discriminate].
    intros H. injection H as <- <-.
    exists t2, [], workspace. repeat split; assumption.
  - unfold validated. destruct (truthy (gw_workspaceId workspace)) eqn:Hid;
      [|discriminate].
    intros H. injection H as <- <-.
    exists t0, [Logged foundLine], workspace. repeat split; assumption.
Qed.

(** *** Dry runs issue no delete call *)

Lemma noDeleteCalls_nil : noDeleteCalls [].
Proof. constructor. Qed.

Lemma noDeleteCalls_app (n1 n2 : Trace) :
  noDeleteCalls n1 -> noDeleteCalls n2 -> noDeleteCalls (n1 ++ n2).
Proof.
  unfold noDeleteCalls. intros H1 H2. rewrite calls_app.
  apply Forall_app. split; assumption.
Qed.

Ltac dry_step :=
  first
    [ always_step noDeleteCalls_nil noDeleteCalls_app
    | discriminate
    | solve [repeat constructor] ].

Lemma deleteObjectsLoop_dry (fuel : nat) (b : option string) :
  forall (isTruncated : option bool) (token : option string),
    Always noDeleteCalls (deleteObjectsLoop fuel b false isTruncated token).
Proof.
  induction fuel as [|fuel IH]; intros isTruncated token;
    cbn [deleteObjectsLoop]; repeat dry_step.
  apply IH.
Qed.

Lemma deleteVersionsLoop_dry (fuel : nat) (b : option string) :
  forall (isTruncated : option bool) (versionIdMarker keyMarker : option string),
    Always noDeleteCalls
      (deleteVersionsLoop fuel b false isTruncated versionIdMarker keyMarker).
Proof.
  induction fuel as [|fuel IH]; intros isTruncated versionIdMarker keyMarker;
    cbn [deleteVersionsLoop]; repeat dry_step.
  apply IH.
Qed.

Lemma deleteS3Bucket_dry (fuel : nat) (b : option string) :
  Always noDeleteCalls (deleteS3Bucket fuel b false).
Proof.
  unfold deleteS3Bucket. repeat dry_step.
  - apply deleteObjectsLoop_dry.
  - apply deleteVersionsLoop_dry.
Qed.

Lemma deleteWorkspaceBucketAndLogs_dry (fuel : nat) (b : option string) :
  Always noDeleteCalls (deleteWorkspaceBucketAndLogs fuel b false).
Proof.
  unfold deleteWorkspaceBucketAndLogs, deleteLoggingBucket, deleteWorkspaceBucket.
  repeat dry_step; apply deleteS3Bucket_dry.
Qed.

Lemma deleteWorkspace_dry (w : string) :
  Always noDeleteCalls (deleteWorkspace w false).
Proof. unfold deleteWorkspace. repeat dry_step. Qed.

(** *** A dry run against a committed run *)

Lemma withoutDeletes_app (t1 t2 : Trace) :
  withoutDeletes (t1 ++ t2) = withoutDeletes t1 ++ withoutDeletes t2.
Proof. apply filter_app. Qed.

Lemma withoutDeletes_noDeleteCalls (t : Trace) :
  noDeleteCalls t -> withoutDeletes t = t.
Proof.
  unfold noDeleteCalls, withoutDeletes.
  induction t as [|ev t IH]; intros H; [reflexivity|].
  destruct ev as [c r|line|ms]; cbn in H |- *.
  - inversion H as [|c0 l Hc Hl]; subst. rewrite Hc. cbn. f_equal. apply IH. exact Hl.
  - f_equal. apply IH. exact H.
  - f_equal. apply IH. exact H.
Qed.

Lemma Sim_ret {A} (a : A) : Sim (ret a) (ret a).
Proof.
  intros tc td _. exists (Returned a), [], []. rewrite !app_nil_r.
  repeat split; reflexivity.
Qed.

Lemma Sim_outOfFuel {A} : Sim (@outOfFuel A) outOfFuel.
Proof.
  intros tc td _. exists OutOfFuel, [], []. rewrite !app_nil_r.
  repeat split; reflexivity.
Qed.

Lemma Sim_log (line : string) : Sim (log line) (log line).
Proof.
  intros tc td _. exists (Returned tt), [Logged line], [Logged line].
  repeat split; reflexivity.
Qed.

Lemma Sim_bind {A B} (mc md : M A) (kc kd : A -> M B) :
  Sim mc md -> (forall a, Sim (kc a) (kd a)) -> Sim (bind mc kc) (bind md kd).
Proof.
  intros Hm Hk tc td Ht.
  destruct (Hm tc td Ht) as (o & nc & nd & Hc & Hd & Hn).
  rewrite !bind_unfold, Hc, Hd. destruct o as [a|e|].
  - destruct (Hk a (tc ++ nc) (td ++ nd)) as (o2 & nc2 & nd2 & Hc2 & Hd2 & Hn2).
    { rewrite !withoutDeletes_app. congruence. }
    exists o2, (nc ++ nc2), (nd ++ nd2). rewrite !app_assoc.
    repeat split; try assumption.
    rewrite !withoutDeletes_app. congruence.
  - exists (Threw e), nc, nd. repeat split; assumption.
  - exists OutOfFuel, nc, nd. repeat split; assumption.
Qed.

Lemma Sim_forOf {A} (xs : list A) (bc bd : A -> M unit) :
  (forall x, Sim (bc x) (bd x)) -> Sim (forOf xs bc) (forOf xs bd).
Proof.
  intros Hb. induction xs as [|x xs IH]; cbn [forOf].
  - apply Sim_ret.
  - apply Sim_bind; [apply Hb|intros _; exact IH].
Qed.

Lemma Sim_forOfDefined {A} (xs : option (list A)) (bc bd : A -> M unit) :
  (forall x, Sim (bc x) (bd x)) -> Sim (forOfDefined xs bc) (forOfDefined xs bd).
Proof.
  intros Hb. destruct xs as [l|]; cbn [forOfDefined].
  - apply Sim_forOf; assumption.
  - apply Sim_ret.
Qed.

Lemma Sim_throw {A} (e : Thrown) : Sim (@throw A e) (throw e).
Proof.
  intros tc td _. exists (Threw e), [], []. rewrite !app_nil_r.
  repeat split; reflexivity.
Qed.

Lemma Sim_tryCatch {A} (bc bd : M A) (hc hd : Thrown -> M A) :
  Sim bc bd -> (forall e, Sim (hc e) (hd e)) -> Sim (tryCatch bc hc) (tryCatch bd hd).
Proof.
  intros Hb Hh tc td Ht.
  destruct (Hb tc td Ht) as (o & nc & nd & Hc & Hd & Hn).
  unfold tryCatch. rewrite Hc, Hd. destruct o as [a|e|].
  - exists (Returned a), nc, nd. repeat split; assumption.
  - destruct (Hh e (tc ++ nc) (td ++ nd)) as (o2 & nc2 & nd2 & Hc2 & Hd2 & Hn2).
    { rewrite !withoutDeletes_app. congruence. }
    exists o2, (nc ++ nc2), (nd ++ nd2). rewrite !app_assoc.
    repeat split; try assumption.
    rewrite !withoutDeletes_app. congruence.
  - exists OutOfFuel, nc, nd. repeat split; assumption.
Qed.

Section DryVersusCommitted.

(** The services answer from what was listed, not from what was deleted in
    the meantime, and no delete call is rejected. *)
Hypothesis answers_ignore_deletes :
  forall (t : Trace) (c : Call), respond env t c = respond env (withoutDeletes t) c.
Hypothesis deletes_resolve :
  forall (t : Trace) (c : Call),
    isDeleteCall c = true -> exists a : RespOf c, respond env t c = Resolved a.

Lemma Sim_call (c : Call) : Sim (call c) (call c).
Proof using answers_ignore_deletes.
  intros tc td Ht. unfold call.
  rewrite (answers_ignore_deletes tc), (answers_ignore_deletes td), Ht.
  destruct (respond env (withoutDeletes td) c) as [e|a].
  - exists (Threw e), [Called c (Rejected e)], [Called c (Rejected e)].
    repeat split; reflexivity.
  - exists (Returned a), [Called c (Resolved a)], [Called c (Resolved a)].
    repeat split; reflexivity.
Qed.

(** The gate [if (nonDryRun) { await delete }]: taken on one side, not on
    the other. *)
Lemma Sim_gate (c : Call) :
  isDeleteCall c = true -> Sim (whenTrue true (call c)) (whenTrue false (call c)).
Proof using deletes_resolve.
  intros Hc tc td Ht. unfold whenTrue. rewrite bind_unfold. unfold call.
  destruct (deletes_resolve tc c Hc) as (a & Ha). rewrite Ha.
  exists (Returned tt), [Called c (Resolved a)], [].
  unfold ret. rewrite app_nil_r. repeat split; try reflexivity.
  cbn. rewrite Hc. reflexivity.
Qed.

Ltac sim_step :=
  lazymatch goal with
  | |- Sim (ret _) (ret _) => apply Sim_ret
  | |- Sim (throw _) (throw _) => apply Sim_throw
  | |- Sim outOfFuel outOfFuel => apply Sim_outOfFuel
  | |- Sim (log _) (log _) => apply Sim_log
  | |- Sim (call _) (call _) => apply Sim_call
  | |- Sim (whenTrue true (call _)) (whenTrue false (call _)) =>
      apply Sim_gate; reflexivity
  | |- Sim (bind _ _) (bind _ _) => apply Sim_bind; [|intros ?]
  | |- Sim (tryCatch _ _) (tryCatch _ _) => apply Sim_tryCatch; [|intros ?]
  | |- Sim (forOfDefined _ _) (forOfDefined _ _) => apply Sim_forOfDefined; intros ?
  | |- Sim (if ?c then _ else _) (if ?c then _ else _) => destruct c
  | |- Sim (match ?x with Some _ => _ | None => _ end)
           (match ?x with Some _ => _ | None => _ end) => destruct x
  end.

Lemma deleteObjectsLoop_sim (fuel : nat) (b : option string) :
  forall (isTruncated : option bool) (token : option string),
    Sim (deleteObjectsLoop fuel b true isTruncated token)
        (deleteObjectsLoop fuel b false isTruncated token).
Proof using answers_ignore_deletes deletes_resolve.
  induction fuel as [|fuel IH]; intros isTruncated token;
    cbn [deleteObjectsLoop]; repeat sim_step.
  apply IH.
Qed.

Lemma deleteVersionsLoop_sim (fuel : nat) (b : option string) :
  forall (isTruncated : option bool) (versionIdMarker keyMarker : option string),
    Sim (deleteVersionsLoop fuel b true isTruncated versionIdMarker keyMarker)
        (deleteVersionsLoop fuel b false isTruncated versionIdMarker keyMarker).
Proof using answers_ignore_deletes deletes_resolve.
  induction fuel as [|fuel IH]; intros isTruncated versionIdMarker keyMarker;
    cbn [deleteVersionsLoop]; repeat sim_step.
  apply IH.
Qed.

Lemma deleteS3Bucket_sim (fuel : nat) (b : option string) :
  Sim (deleteS3Bucket fuel b true) (deleteS3Bucket fuel b false).
Proof using answers_ignore_deletes deletes_resolve.
  unfold deleteS3Bucket. repeat sim_step.
  - apply deleteObjectsLoop_sim.
  - apply deleteVersionsLoop_sim.
Qed.

Lemma deleteS3Bucket_dry_against_committed (fuel : nat) (b : option string) (t : Trace) :
  exists (o : Outcome unit) (committed dry : Trace),
    deleteS3Bucket fuel b true t = (o, t ++ committed)
    /\ deleteS3Bucket fuel b false t = (o, t ++ dry)
    /\ dry = withoutDeletes committed.
Proof using answers_ignore_deletes deletes_resolve.
  destruct (deleteS3Bucket_sim fuel b t t eq_refl)
    as (o & nc & nd & Hc & Hd & Hn).
  exists o, nc, nd. repeat split; try assumption.
  destruct (deleteS3Bucket_dry fuel b t) as (o' & new & Hrun & Hno).
  rewrite Hd in Hrun. injection Hrun as _ Heq. apply app_inv_head in Heq. subst new.
  rewrite Hn. symmetry. apply withoutDeletes_noDeleteCalls. assumption.
Qed.

Lemma deleteWorkspaceBucketAndLogs_sim (fuel : nat) (b : option string) :
  Sim (deleteWorkspaceBucketAndLogs fuel b true)
      (deleteWorkspaceBucketAndLogs fuel b false).
Proof using answers_ignore_deletes deletes_resolve.
  unfold deleteWorkspaceBucketAndLogs, deleteLoggingBucket, deleteWorkspaceBucket.
  repeat sim_step; apply deleteS3Bucket_sim.
Qed.

Lemma deleteWorkspaceBucketAndLogs_dry_against_committed (fuel : nat)
    (b : option string) (t : Trace) :
  exists (o : Outcome unit) (committed dry : Trace),
    deleteWorkspaceBucketAndLogs fuel b true t = (o, t ++ committed)
    /\ deleteWorkspaceBucketAndLogs fuel b false t = (o, t ++ dry)
    /\ dry = withoutDeletes committed.
Proof using answers_ignore_deletes deletes_resolve.
  destruct (deleteWorkspaceBucketAndLogs_sim fuel b t t eq_refl)
    as (o & nc & nd & Hc & Hd & Hn).
  exists o, nc, nd. repeat split; try assumption.
  destruct (deleteWorkspaceBucketAndLogs_dry fuel b t) as (o' & new & Hrun & Hno).
  rewrite Hd in Hrun. injection Hrun as _ Heq. apply app_inv_head in Heq. subst new.
  rewrite Hn. symmetry. apply withoutDeletes_noDeleteCalls. assumption.
Qed.

End DryVersusCommitted.

(** *** The calls of a teardown that returns *)

Lemma listedThenDeleted_cons_page (commit : bool) (ev : Event) (c : Call)
    (deletes : list Call) (n2 n3 : Trace) :
  callOf ev = Some c ->
  pageDeletes ev = Some deletes ->
  calls n2 = (if commit then deletes else []) ->
  flat_map (accountedCalls commit) n2 = [] ->
  listedThenDeleted commit n3 ->
  listedThenDeleted commit ([ev] ++ n2 ++ n3).
Proof.
  unfold listedThenDeleted. intros Hc Hp H2 H2' H3.
  rewrite !calls_app, !flat_map_app, H2, H2', H3. cbn [flat_map].
  unfold accountedCalls at 2. rewrite Hc, Hp.
  destruct ev as [c0 r|line|ms]; cbn in Hc; try discriminate Hc.
  injection Hc as ->. cbn [calls]. rewrite app_nil_r. reflexivity.
Qed.

(** The gated delete loop over one page. *)
Lemma forOf_gated_deletes {A} (commit : bool) (del : A -> Call) (msg : A -> string)
    (xs : list A) :
  (forall x r, accountedCalls commit (Called (del x) r) = []) ->
  Emits (forOf xs (fun x => whenTrue commit (call (del x)) ;; log (msg x)))
    (fun o new =>
       flat_map (accountedCalls commit) new = []
       /\ (o = Returned tt -> calls new = if commit then map del xs else [])).
Proof.
  intros Hdel. induction xs as [|x xs IH]; cbn [forOf].
  - apply Emits_ret. split; [reflexivity|]. destruct commit; reflexivity.
  - apply Emits_bind. apply Emits_bind. unfold whenTrue. destruct commit.
    + apply Emits_bind. apply Emits_call.
      * intros a. apply Emits_ret. apply Emits_log.
        eapply Emits_weaken; [exact IH|]. cbn beta. intros o new [Hf Hc].
        rewrite !flat_map_app, Hf. cbn [flat_map]. rewrite Hdel. cbn.
        split; [reflexivity|]. intros Ho. rewrite (Hc Ho). reflexivity.
      * intros e. cbn [flat_map]. rewrite Hdel. split; [reflexivity|discriminate].
    + apply Emits_ret. apply Emits_log.
      eapply Emits_weaken; [exact IH|]. cbn beta. intros o new [Hf Hc].
      rewrite !flat_map_app, Hf. cbn.
      split; [reflexivity|]. intros Ho. rewrite (Hc Ho). reflexivity.
Qed.

Lemma forOfDefined_gated_deletes {A} (commit : bool) (del : A -> Call)
    (msg : A -> string) (xs : option (list A)) :
  (forall x r, accountedCalls commit (Called (del x) r) = []) ->
  Emits (forOfDefined xs (fun x => whenTrue commit (call (del x)) ;; log (msg x)))
    (fun o new =>
       flat_map (accountedCalls commit) new = []
       /\ (o = Returned tt -> calls new = if commit then map del (entries xs) else [])).
Proof.
  intros Hdel. destruct xs as [l|]; cbn [forOfDefined entries].
  - apply forOf_gated_deletes. exact Hdel.
  - apply Emits_ret. split; [reflexivity|]. destruct commit; reflexivity.
Qed.

Lemma deleteObjectsLoop_returned (commit : bool) (fuel : nat) (b : option string) :
  forall (isTruncated : option bool) (token : option string),
    Emits (deleteObjectsLoop fuel b commit isTruncated token)
      (fun o new => o = Returned tt -> listedThenDeleted commit new).
Proof.
  induction fuel as [|fuel IH]; intros isTruncated token;
    cbn [deleteObjectsLoop]; destruct (isTrue isTruncated).
  - apply Emits_outOfFuel. discriminate.
  - apply Emits_ret. reflexivity.
  - apply Emits_bind. apply Emits_call; [intros page|discriminate].
    apply Emits_bind.
    eapply Emits_weaken;
      [apply (forOfDefined_gated_deletes commit (deleteObjectCall b)
                (fun obj => "deleted S3 Object: " ++ show (Key obj))%string);
       reflexivity|].
    cbn beta. intros [[]|e|] n2 [Hf Hc]; try discriminate.
    eapply Emits_weaken; [apply IH|]. cbn beta. intros o n3 H3 Ho.
    eapply listedThenDeleted_cons_page;
      [reflexivity|reflexivity|apply Hc; reflexivity|exact Hf|apply H3; exact Ho].
  - apply Emits_ret. reflexivity.
Qed.

Lemma deleteVersionsLoop_returned (commit : bool) (fuel : nat) (b : option string) :
  forall (isTruncated : option bool) (versionIdMarker keyMarker : option string),
    Emits (deleteVersionsLoop fuel b commit isTruncated versionIdMarker keyMarker)
      (fun o new => o = Returned tt -> listedThenDeleted commit new).
Proof.
  induction fuel as [|fuel IH]; intros isTruncated versionIdMarker keyMarker;
    cbn [deleteVersionsLoop]; destruct (isTrue isTruncated).
  - apply Emits_outOfFuel. discriminate.
  - apply Emits_ret. reflexivity.
  - apply Emits_bind. apply Emits_call; [intros page|discriminate].
    apply Emits_bind.
    eapply Emits_weaken;
      [apply (forOfDefined_gated_deletes commit (deleteVersionCall b)
                (fun version =>
                   "deleted S3 Object: " ++ show (v_Key version) ++ ", version: "
                     ++ show (v_VersionId version))%string);
       reflexivity|].
    cbn beta. intros [[]|e|] n2 [Hf Hc]; try discriminate.
    apply Emits_bind.
    eapply Emits_weaken;
      [apply (forOfDefined_gated_deletes commit (deleteVersionCall b)
                (fun version =>
                   "deleted S3 delete marker: " ++ show (v_Key version) ++ ", version: "
                     ++ show (v_VersionId version))%string);
       reflexivity|].
    cbn beta. intros [[]|e|] n2' [Hf' Hc']; try discriminate.
    eapply Emits_weaken; [apply IH|]. cbn beta. intros o n3 H3 Ho.
    rewrite (app_assoc n2 n2' n3).
    eapply listedThenDeleted_cons_page;
      [reflexivity|reflexivity| |rewrite flat_map_app, Hf, Hf'; reflexivity
      |apply H3; exact Ho].
    rewrite calls_app, (Hc eq_refl), (Hc' eq_refl).
    destruct commit; [rewrite map_app|]; reflexivity.
  - apply Emits_ret. reflexivity.
Qed.

(** The calls of a bucket teardown that returns: the listing calls, each
    followed in a committed run by the delete calls for its page, and in a
    committed run the final [deleteBucket]. *)
Lemma deleteS3Bucket_returned (commit : bool) (fuel : nat) (b : option string) :
  Emits (deleteS3Bucket fuel b commit)
    (fun o new =>
       o = Returned tt ->
       calls new = flat_map (accountedCalls commit) new
                     ++ (if commit then [DeleteBucket b] else [])).
Proof.
  unfold deleteS3Bucket. apply Emits_bind.
  eapply Emits_weaken; [apply deleteObjectsLoop_returned|].
  cbn beta. intros [[]|e|] n1 H1; try discriminate.
  apply Emits_bind.
  eapply Emits_weaken; [apply deleteVersionsLoop_returned|].
  cbn beta. intros [[]|e|] n2 H2; try discriminate.
  specialize (H1 eq_refl). specialize (H2 eq_refl).
  unfold listedThenDeleted in H1, H2.
  apply Emits_bind. unfold whenTrue. destruct commit.
  - apply Emits_bind. apply Emits_call; [intros a|discriminate].
    apply Emits_ret. apply Emits_log. intros _.
    rewrite !calls_app, !flat_map_app, H1, H2. cbn. rewrite !app_nil_r.
    rewrite <- app_assoc. reflexivity.
  - apply Emits_ret. apply Emits_log. intros _.
    rewrite !calls_app, !flat_map_app, H1, H2. cbn. rewrite !app_nil_r.
    reflexivity.
Qed.

Lemma deleteWorkspace_committed (w : string) :
  Emits (deleteWorkspace w true) (fun _ new => calls new = [DeleteWorkspace w]).
Proof.
  unfold deleteWorkspace, whenTrue. apply Emits_tryCatch. apply Emits_bind.
  apply Emits_bind. apply Emits_call.
  - intros a. apply Emits_ret. apply Emits_log. reflexivity.
  - intros e. apply Emits_bind. apply Emits_log. apply Emits_throw. reflexivity.
Qed.

(** *** Straight-line runs *)

Lemma Raises_prepend {A} (ok : Call -> Prop) (o : Outcome A) (n1 n2 : Trace) :
  Raises ok o n2 -> Raises ok o (n1 ++ n2).
Proof.
  destruct o as [a|e|]; cbn; [intros _; exact I| |intros []].
  intros (pre & c & -> & Hok). exists (n1 ++ pre), c.
  rewrite app_assoc. split; [reflexivity|assumption].
Qed.

Lemma Straight_prepend {A B} (cs1 cs2 : list Call) (a : A) (o : Outcome B)
    (n1 n2 : Trace) :
  Straight cs1 (Returned a) n1 -> Straight cs2 o n2 ->
  Straight (cs1 ++ cs2) o (n1 ++ n2).
Proof.
  intros [_ H1] [Hr H2]. cbn in H1. split.
  - apply Raises_prepend. assumption.
  - rewrite calls_app, H1. destruct o as [b|e|].
    + rewrite H2. reflexivity.
    + destruct H2 as (rest & ->). exists rest. rewrite app_assoc. reflexivity.
    + destruct H2 as (rest & ->). exists rest. rewrite app_assoc. reflexivity.
Qed.

Lemma Straight_stopped {A B} (cs1 cs2 : list Call) (e : Thrown) (n1 : Trace) :
  Straight cs1 (@Threw A e) n1 -> Straight (cs1 ++ cs2) (@Threw B e) n1.
Proof.
  intros [Hr (rest & ->)]. split; [exact Hr|].
  exists (rest ++ cs2). rewrite app_assoc. reflexivity.
Qed.

Lemma Straight_ret {A} (a : A) : Emits (ret a) (Straight []).
Proof. apply Emits_ret. split; [exact I|reflexivity]. Qed.

Lemma Straight_log (line : string) : Emits (log line) (Straight []).
Proof. apply Emits_log. split; [exact I|reflexivity]. Qed.

Lemma Straight_call (c : Call) : Emits (call c) (Straight [c]).
Proof.
  apply Emits_call.
  - intros a. split; [exact I|reflexivity].
  - intros e. split.
    + exists [], c. split; [reflexivity|exact I].
    + exists []. reflexivity.
Qed.

Lemma Straight_bind {A B} (m : M A) (k : A -> M B) (cs1 cs2 : list Call) :
  Emits m (Straight cs1) -> (forall a, Emits (k a) (Straight cs2)) ->
  Emits (bind m k) (Straight (cs1 ++ cs2)).
Proof.
  intros Hm Hk. apply Emits_bind. eapply Emits_weaken; [exact Hm|].
  intros [a|e|] n1 H1; cbn beta iota.
  - eapply Emits_weaken; [apply Hk|]. intros o2 n2 H2.
    eapply Straight_prepend; eassumption.
  - apply (Straight_stopped (A:=A)). assumption.
  - destruct H1 as [[] _].
Qed.

Lemma Straight_forOf {A} (xs : list A) (body : A -> M unit) (f : A -> list Call) :
  (forall x, Emits (body x) (Straight (f x))) ->
  Emits (forOf xs body) (Straight (flat_map f xs)).
Proof.
  intros Hbody. induction xs as [|x xs IH]; cbn [forOf flat_map].
  - apply Straight_ret.
  - apply Straight_bind; [apply Hbody|intros _; exact IH].
Qed.

Lemma Straight_forOfDefined {A} (xs : option (list A)) (body : A -> M unit)
    (f : A -> list Call) :
  (forall x, Emits (body x) (Straight (f x))) ->
  Emits (forOfDefined xs body) (Straight (flat_map f (entries xs))).
Proof.
  intros Hbody. destruct xs as [l|]; cbn [forOfDefined entries flat_map].
  - apply Straight_forOf. assumption.
  - apply Straight_ret.
Qed.

Lemma Raises_ret {A} (ok : Call -> Prop) (a : A) : Emits (ret a) (Raises ok).
Proof. apply Emits_ret. exact I. Qed.

Lemma Raises_log (ok : Call -> Prop) (line : string) : Emits (log line) (Raises ok).
Proof. apply Emits_log. exact I. Qed.

Lemma Raises_call (ok : Call -> Prop) (c : Call) : ok c -> Emits (call c) (Raises ok).
Proof.
  intros Hok. apply Emits_call.
  - intros a. exact I.
  - intros e. exists [], c. split; [reflexivity|exact Hok].
Qed.

Lemma Raises_bind {A B} (ok : Call -> Prop) (m : M A) (k : A -> M B) :
  Emits m (Raises ok) -> (forall a, Emits (k a) (Raises ok)) ->
  Emits (bind m k) (Raises ok).
Proof.
  intros Hm Hk. apply Emits_bind. eapply Emits_weaken; [exact Hm|].
  intros [a|e|] n1 H1; cbn beta iota; try exact H1.
  eapply Emits_weaken; [apply Hk|]. intros o2 n2 H2.
  apply Raises_prepend. exact H2.
Qed.

Lemma Yields_bind {A B} (ok : Call -> Prop) (v : B) (m : M A) (k : A -> M B) :
  Emits m (Raises ok) -> (forall a, Emits (k a) (Yields ok v)) ->
  Emits (bind m k) (Yields ok v).
Proof.
  intros Hm Hk. apply Emits_bind. eapply Emits_weaken; [exact Hm|].
  intros [a|e|] n1 H1; cbn beta iota.
  - eapply Emits_weaken; [apply Hk|]. intros o2 n2 [H2 H2'].
    split; [apply Raises_prepend; exact H2|exact H2'].
  - split; [exact H1|exact I].
  - destruct H1.
Qed.

(** *** Enough fuel *)

Lemma pagesListed_app (n1 n2 : Trace) :
  pagesListed (n1 ++ n2) = (pagesListed n1 + pagesListed n2)%nat.
Proof.
  unfold pagesListed. rewrite calls_app, filter_app, length_app. reflexivity.
Qed.

Lemma Ends_prepend {A} (fuel : nat) (o : Outcome A) (n1 n2 : Trace) :
  Ends fuel o n2 -> Ends fuel o (n1 ++ n2).
Proof.
  destruct o as [a|e|]; cbn.
  - intros _. exact I.
  - intros (pre & c & ->). exists (n1 ++ pre), c. rewrite app_assoc. reflexivity.
  - intros H. rewrite pagesListed_app.
    apply (Nat.le_trans _ _ _ H). apply Nat.le_add_l.
Qed.

Lemma Ends_less {A} (fuel fuel' : nat) (o : Outcome A) (new : Trace) :
  (fuel' <= fuel)%nat -> Ends fuel o new -> Ends fuel' o new.
Proof.
  intros Hle. destruct o as [a|e|]; cbn; try (intros H; exact H).
  intros H. exact (Nat.le_trans _ _ _ Hle H).
Qed.

Lemma Ends_bind {A B} (fuel : nat) (m : M A) (k : A -> M B) :
  Emits m (Ends fuel) -> (forall a, Emits (k a) (Ends fuel)) ->
  Emits (bind m k) (Ends fuel).
Proof.
  intros Hm Hk. apply Emits_bind. eapply Emits_weaken; [exact Hm|].
  intros [a|e|] n1 H1; cbn beta iota; try exact H1.
  eapply Emits_weaken; [apply Hk|]. intros o2 n2 H2.
  apply Ends_prepend. exact H2.
Qed.

Lemma Ends_straight {A} (fuel : nat) (m : M A) :
  Emits m (Raises (fun _ => True)) -> Emits m (Ends fuel).
Proof.
  intros Hm. eapply Emits_weaken; [exact Hm|].
  intros [a|e|] new H; cbn in *.
  - exact I.
  - destruct H as (pre & c & -> & _). exists pre, c. reflexivity.
  - destruct H.
Qed.

Lemma gated_deletes_raise {A} (commit : bool) (del : A -> Call) (msg : A -> string)
    (xs : option (list A)) :
  Emits (forOfDefined xs (fun x => whenTrue commit (call (del x)) ;; log (msg x)))
    (Raises (fun _ => True)).
Proof.
  destruct xs as [l|]; cbn [forOfDefined]; [|apply Raises_ret].
  induction l as [|x l IH]; cbn [forOf]; [apply Raises_ret|].
  apply Raises_bind; [|intros _; exact IH].
  apply Raises_bind; [|intros _; apply Raises_log].
  unfold whenTrue. destruct commit; [|apply Raises_ret].
  apply Raises_bind; [apply Raises_call; exact I|intros _; apply Raises_ret].
Qed.

Lemma Ends_after_page {A} (fuel : nat) (c : Call) (a : RespOf c) (o : Outcome A)
    (new : Trace) :
  isListingCall c = true -> Ends fuel o new ->
  Ends (S fuel) o ([Called c (Resolved a)] ++ new).
Proof.
  intros Hc. destruct o as [x|e|]; cbn [Ends].
  - intros _. exact I.
  - intros (pre & c' & ->). exists ([Called c (Resolved a)] ++ pre), c'.
    rewrite <- app_assoc. reflexivity.
  - intros H. rewrite pagesListed_app. unfold pagesListed at 1. cbn [calls filter].
    rewrite Hc. cbn [length Nat.add]. apply le_n_S. exact H.
Qed.

Lemma deleteObjectsLoop_ends (commit : bool) (fuel : nat) (b : option string) :
  forall (isTruncated : option bool) (token : option string),
    Emits (deleteObjectsLoop fuel b commit isTruncated token) (Ends fuel).
Proof.
  induction fuel as [|fuel IH]; intros isTruncated token;
    cbn [deleteObjectsLoop]; destruct (isTrue isTruncated).
  - apply Emits_outOfFuel. apply Nat.le_0_l.
  - apply Emits_ret. exact I.
  - apply Emits_bind. apply Emits_call.
    + intros page.
      eapply Emits_weaken;
        [apply (Ends_bind (fuel:=fuel));
         [apply Ends_straight; apply gated_deletes_raise|intros _; apply IH]|].
      cbn beta. intros o new H. apply Ends_after_page; [reflexivity|exact H].
    + intros e. exists [], (ListObjectsV2 b token). reflexivity.
  - apply Emits_ret. exact I.
Qed.

Lemma deleteVersionsLoop_ends (commit : bool) (fuel : nat) (b : option string) :
  forall (isTruncated : option bool) (versionIdMarker keyMarker : option string),
    Emits (deleteVersionsLoop fuel b commit isTruncated versionIdMarker keyMarker)
      (Ends fuel).
Proof.
  induction fuel as [|fuel IH]; intros isTruncated versionIdMarker keyMarker;
    cbn [deleteVersionsLoop]; destruct (isTrue isTruncated).
  - apply Emits_outOfFuel. apply Nat.le_0_l.
  - apply Emits_ret. exact I.
  - apply Emits_bind. apply Emits_call.
    + intros page.
      eapply Emits_weaken;
        [apply (Ends_bind (fuel:=fuel));
         [apply Ends_straight; apply gated_deletes_raise|intros _];
         apply (Ends_bind (fuel:=fuel));
         [apply Ends_straight; apply gated_deletes_raise|intros _; apply IH]|].
      cbn beta. intros o new H. apply Ends_after_page; [reflexivity|exact H].
    + intros e. exists [], (ListObjectVersions b versionIdMarker keyMarker).
      reflexivity.
  - apply Emits_ret. exact I.
Qed.

(** A bucket teardown returns unless one of its calls is rejected or the
    listings go on for [fuel] pages. *)
Lemma deleteS3Bucket_ends (commit : bool) (fuel : nat) (b : option string) :
  Emits (deleteS3Bucket fuel b commit) (Ends fuel).
Proof.
  unfold deleteS3Bucket.
  apply Ends_bind; [apply deleteObjectsLoop_ends|intros _].
  apply Ends_bind; [apply deleteVersionsLoop_ends|intros _].
  apply Ends_straight.
  apply Raises_bind; [|intros _; apply Raises_log].
  unfold whenTrue. destruct commit; [|apply Raises_ret].
  apply Raises_bind; [apply Raises_call; exact I|intros _; apply Raises_ret].
Qed.

(** *** The order of a role teardown *)

Lemma Straight_call_log (c : Call) (line : string) :
  Emits (call c ;; log line) (Straight [c]).
Proof.
  apply (@Straight_bind _ _ (call c) (fun _ => log line) [c] []); [apply Straight_call|].
  intros _. apply Straight_log.
Qed.

Lemma Straight_after_call {A} (c : Call) (a : RespOf c) (cs : list Call)
    (o : Outcome A) (new : Trace) :
  Straight cs o new -> Straight (c :: cs) o ([Called c (Resolved a)] ++ new).
Proof.
  intros H. apply (@Straight_prepend (RespOf c) A [c] cs a o); [|exact H].
  split; [exact I|reflexivity].
Qed.

Lemma Straight_rejected {A} (c : Call) (e : Thrown) (cs : list Call) :
  Straight (c :: cs) (@Threw A e) [Called c (Rejected e)].
Proof.
  split.
  - exists [], c. split; [reflexivity|exact I].
  - exists cs. reflexivity.
Qed.

(** C5.  Whatever the services answer, a role teardown that returns has made
    exactly these calls, in this order: the instance-profile listing, one
    [removeRoleFromInstanceProfile] per listed profile, the inline-policy
    listing, one [deleteRolePolicy] per listed name, the attached-policy
    listing, a [detachRolePolicy] and then a [deletePolicy] per listed
    policy, and [deleteRole] last; the three lists are those of the three
    listing responses, an absent list counting as empty.  A teardown that
    throws has made an initial segment of such a sequence and throws what
    its last call was rejected with, so an absent list is never the cause. *)
Theorem deleteIAMroleAndPolicy_order (roleName : option string) :
  Emits (deleteIAMroleAndPolicy roleName)
    (fun o new =>
       exists (profiles : ListInstanceProfilesOutput) (inline : ListRolePoliciesOutput)
              (attached : ListAttachedRolePoliciesOutput),
         Straight
           (roleTeardownCalls roleName (InstanceProfiles profiles)
              (PolicyNames inline) (AttachedPolicies attached)) o new
         /\ (o = Returned tt ->
             In (Called (ListInstanceProfilesForRole roleName) (Resolved profiles)) new
             /\ In (Called (ListRolePolicies roleName) (Resolved inline)) new
             /\ In (Called (ListAttachedRolePolicies roleName) (Resolved attached)) new)).
Proof.
  pose (noProfiles := {| InstanceProfiles := None |}).
  pose (noInline := {| PolicyNames := None |}).
  pose (noAttached := {| AttachedPolicies := None |}).
  unfold deleteIAMroleAndPolicy, roleTeardownCalls.
  apply Emits_bind. apply Emits_call; cycle 1.
  { intros e. exists noProfiles, noInline, noAttached.
    split; [apply Straight_rejected|discriminate]. }
  intros profiles. apply Emits_bind.
  eapply Emits_weaken.
  { apply (@Straight_forOfDefined _ _ _ (removeProfileCalls roleName)).
    intros x. apply Straight_call_log. }
  cbn beta. intros [[]|e|] n1 H1; cycle 1.
  { exists profiles, noInline, noAttached. split; [|discriminate].
    apply Straight_after_call. apply (Straight_stopped (A:=unit)). exact H1. }
  { destruct H1 as [[] _]. }
  apply Emits_bind. apply Emits_call; cycle 1.
  { intros e. exists profiles, noInline, noAttached. split; [|discriminate].
    apply Straight_after_call. eapply Straight_prepend; [exact H1|].
    apply Straight_rejected. }
  intros inline. apply Emits_bind.
  eapply Emits_weaken.
  { apply (@Straight_forOfDefined _ _ _ (deleteInlineCalls roleName)).
    intros x. apply Straight_call_log. }
  cbn beta. intros [[]|e|] n2 H2; cycle 1.
  { exists profiles, inline, noAttached. split; [|discriminate].
    apply Straight_after_call. eapply Straight_prepend; [exact H1|].
    apply Straight_after_call. apply (Straight_stopped (A:=unit)). exact H2. }
  { destruct H2 as [[] _]. }
  apply Emits_bind. apply Emits_call; cycle 1.
  { intros e. exists profiles, inline, noAttached. split; [|discriminate].
    apply Straight_after_call. eapply Straight_prepend; [exact H1|].
    apply Straight_after_call. eapply Straight_prepend; [exact H2|].
    apply Straight_rejected. }
  intros attached. apply Emits_bind.
  eapply Emits_weaken.
  { apply (@Straight_forOfDefined _ _ _ (detachDeleteCalls roleName)).
    intros x.
    apply (@Straight_bind _ _ _ _ [DetachRolePolicy roleName (ap_PolicyArn x)]
             [DeletePolicy (ap_PolicyArn x)]); [apply Straight_call|].
    intros _. apply Straight_call_log. }
  cbn beta. intros [[]|e|] n3 H3; cycle 1.
  { exists profiles, inline, attached. split; [|discriminate].
    apply Straight_after_call. eapply Straight_prepend; [exact H1|].
    apply Straight_after_call. eapply Straight_prepend; [exact H2|].
    apply Straight_after_call. apply (Straight_stopped (A:=unit)). exact H3. }
  { destruct H3 as [[] _]. }
  eapply Emits_weaken; [apply (Straight_call_log (DeleteRole roleName))|].
  cbn beta. intros o n4 H4.
  exists profiles, inline, attached. split.
  - apply Straight_after_call. eapply Straight_prepend; [exact H1|].
    apply Straight_after_call. eapply Straight_prepend; [exact H2|].
    apply Straight_after_call. eapply Straight_prepend; [exact H3|].
    exact H4.
  - intros _. repeat split.
    + left. reflexivity.
    + apply in_or_app. right. apply in_or_app. right.
      apply in_or_app. left. left. reflexivity.
    + apply in_or_app. right. apply in_or_app. right.
      apply in_or_app. right. apply in_or_app. right.
      apply in_or_app. left. left. reflexivity.
Qed.

(** *** Derived names *)

Lemma lowerChar_isUpper (c : ascii) : isUpper (lowerChar c) = false.
Proof. destruct c as [[] [] [] [] [] [] [] []]; reflexivity. Qed.

Lemma toLowerCase_isLowerCase (s : string) : isLowerCase (toLowerCase s) = true.
Proof.
  induction s as [|c s IH]; cbn [toLowerCase isLowerCase]; [reflexivity|].
  rewrite lowerChar_isUpper, IH. reflexivity.
Qed.

Lemma callsAll_nil (P : Call -> Prop) : callsAll P [].
Proof. constructor. Qed.

Lemma callsAll_app (P : Call -> Prop) (n1 n2 : Trace) :
  callsAll P n1 -> callsAll P n2 -> callsAll P (n1 ++ n2).
Proof.
  unfold callsAll. intros H1 H2. rewrite calls_app. apply Forall_app. split; assumption.
Qed.

Lemma Always_requireTruthy (Q : Trace -> Prop) (x : option string) (err : Thrown) :
  Q [] -> Always Q (requireTruthy x err).
Proof.
  intros Hnil. unfold requireTruthy. destruct x as [[|c s]|].
  - apply Always_throw. exact Hnil.
  - apply Always_ret. exact Hnil.
  - apply Always_throw. exact Hnil.
Qed.

Ltac names_step P :=
  first
    [ apply Always_requireTruthy; apply callsAll_nil
    | always_step (callsAll_nil P) (callsAll_app (P:=P))
    | solve [unfold callsAll; cbn [calls];
             first [apply Forall_nil
                   |apply Forall_cons; [cbn; auto|apply Forall_nil]]] ].

Lemma createRoleAndPolicy_names (workspaceId accountId region : string)
    (roleType : RoleType) (roleAssumePolicy rolePolicy : string) :
  Always
    (callsAll (onRole (roleNameOf roleType workspaceId accountId region)
                 (policyNameOf roleType workspaceId accountId region)))
    (createRoleAndPolicy workspaceId accountId region roleType roleAssumePolicy
       rolePolicy).
Proof.
  unfold createRoleAndPolicy.
  repeat names_step (onRole (roleNameOf roleType workspaceId accountId region)
                       (policyNameOf roleType workspaceId accountId region)).
Qed.

Lemma createS3Bucket_names (bucketName s3BucketName region : string) :
  s3BucketName = bucketName \/ s3BucketName = (bucketName ++ "-logs")%string ->
  Always (callsAll (onBucket bucketName)) (createS3Bucket s3BucketName region).
Proof.
  intros H. unfold createS3Bucket. repeat names_step (onBucket bucketName).
Qed.

Lemma createWorkspaceS3Bucket_names (workspaceId accountId region : string) :
  Always (callsAll (onBucket (workspaceBucketName workspaceId accountId region)))
    (createWorkspaceS3Bucket workspaceId accountId region).
Proof.
  unfold createWorkspaceS3Bucket, enableAccessLogging, grantPermissionsToWriteLogs,
    putBucketLogging.
  repeat names_step (onBucket (workspaceBucketName workspaceId accountId region)).
  - apply createS3Bucket_names. left. reflexivity.
  - apply createS3Bucket_names. right. reflexivity.
Qed.

Lemma lowerChar_fixed (c : ascii) : lowerChar c = c <-> isUpper c = false.
Proof.
  destruct c as [[] [] [] [] [] [] [] []]; vm_compute;
    split; intros H; first [reflexivity|discriminate H].
Qed.

Lemma isLowerCase_fixed (s : string) : isLowerCase s = true <-> toLowerCase s = s.
Proof.
  induction s as [|c s IH]; cbn [toLowerCase isLowerCase].
  - split; reflexivity.
  - rewrite andb_true_iff, negb_true_iff, IH, <- lowerChar_fixed. split.
    + intros [Hc Hs]. rewrite Hc, Hs. reflexivity.
    + intros H. injection H as Hc Hs. split; assumption.
Qed.

(** C6.  The bucket name, and for either role type the role name and the
    policy name, are the values of [workspaceBucketName], [roleNameOf] and
    [policyNameOf] at the workspace id, the account id and the region, and
    are entirely lower case: they contain no upper-case letter, of 'A'..'Z'
    or of the Latin-1 supplement, which is to say that lower-casing them
    again changes nothing.  Whatever the services answer, whatever came
    before and whatever the policy documents, every call of the role
    provisioner is made on that role name or policy name, and every call of
    the bucket provisioner on that bucket name or on it with "-logs"
    appended. *)
Theorem derived_names (workspaceId accountId region : string) :
  (forall s : string, isLowerCase s = true <-> toLowerCase s = s)
  /\ isLowerCase (workspaceBucketName workspaceId accountId region) = true
  /\ (forall roleType : RoleType,
        isLowerCase (roleNameOf roleType workspaceId accountId region) = true
        /\ isLowerCase (policyNameOf roleType workspaceId accountId region) = true)
  /\ (forall (roleType : RoleType) (roleAssumePolicy rolePolicy : string),
        Always
          (callsAll (onRole (roleNameOf roleType workspaceId accountId region)
                       (policyNameOf roleType workspaceId accountId region)))
          (createRoleAndPolicy workspaceId accountId region roleType
             roleAssumePolicy rolePolicy))
  /\ Always (callsAll (onBucket (workspaceBucketName workspaceId accountId region)))
       (createWorkspaceS3Bucket workspaceId accountId region).
Proof.
  split; [exact isLowerCase_fixed|].
  split; [apply toLowerCase_isLowerCase|].
  split.
  { intros []; split; apply toLowerCase_isLowerCase. }
  split; [intros; apply createRoleAndPolicy_names|].
  apply createWorkspaceS3Bucket_names.
Qed.

(** *** Absent buckets during teardown *)

(** C7.  When the logging query is rejected with an [Error] whose message
    contains the phrase, the teardown logs and goes on with the second
    statement, the bucket itself; when it is rejected with anything else,
    that is thrown and nothing else is called.  When the deletion of the
    bucket itself throws a [NoSuchBucket], the second statement logs and
    returns; anything else it rethrows. *)
Theorem deleteWorkspaceBucketAndLogs_absent (fuel : nat) (b : option string)
    (commit : bool) (t : Trace) :
  (forall e : Thrown,
     respond env t (GetBucketLogging b) = Rejected e ->
     deleteWorkspaceBucketAndLogs fuel b commit t =
     if instanceofError e && messageIncludes e "The specified bucket does not exist"
     then deleteWorkspaceBucket fuel b commit
            (t ++ [Called (GetBucketLogging b) (Rejected e);
                   Logged "Logging Bucket not found, moving on with deletion."])
     else (Threw e, t ++ [Called (GetBucketLogging b) (Rejected e)]))
  /\ (forall (e : Thrown) (t2 : Trace),
        deleteS3Bucket fuel b commit (t ++ [Logged "Deleting workspace bucket..."])
          = (Threw e, t2) ->
        deleteWorkspaceBucket fuel b commit t =
        if instanceofNoSuchBucket e
        then (Returned tt,
              t2 ++ [Logged ("Bucket does not exist and cannot be deleted: " ++ show b)])
        else (Threw e, t2)).
Proof.
  split.
  - intros e Hr. unfold deleteWorkspaceBucketAndLogs. rewrite bind_unfold.
    unfold deleteLoggingBucket, tryCatch. rewrite bind_unfold.
    rewrite (call_rejected _ _ Hr).
    destruct (instanceofError e && messageIncludes e _).
    + unfold log. rewrite <- app_assoc. reflexivity.
    + reflexivity.
  - intros e t2 Hrun. unfold deleteWorkspaceBucket, tryCatch.
    rewrite bind_unfold. unfold log at 1. cbn iota. rewrite Hrun.
    destruct (instanceofNoSuchBucket e); reflexivity.
Qed.

(** C9, amended.  When the logging query resolves and names a target
    bucket, and the deletion of that bucket throws [e], the first statement
    swallows [e] if it is an [Error] whose message contains the phrase,
    whatever its class, and the teardown goes on with the bucket itself;
    otherwise [e] is thrown out of [deleteWorkspaceBucketAndLogs]. *)
Theorem deleteWorkspaceBucketAndLogs_logging_target (fuel : nat) (b : option string)
    (commit : bool) (t t2 : Trace) (resp : GetBucketLoggingCommandOutput)
    (loggingEnabled : LoggingEnabledRec) (e : Thrown) :
  respond env t (GetBucketLogging b) = Resolved resp ->
  LoggingEnabled resp = Some loggingEnabled ->
  deleteS3Bucket fuel (Some (show (TargetBucket loggingEnabled))) commit
    (t ++ [Called (GetBucketLogging b) (Resolved resp);
           Logged "Deleting logging bucket..."])
    = (Threw e, t2) ->
  deleteWorkspaceBucketAndLogs fuel b commit t =
  if instanceofError e && messageIncludes e "The specified bucket does not exist"
  then deleteWorkspaceBucket fuel b commit
         (t2 ++ [Logged "Logging Bucket not found, moving on with deletion."])
  else (Threw e, t2).
Proof.
  intros Hr Hle Hrun. unfold deleteWorkspaceBucketAndLogs. rewrite bind_unfold.
  unfold deleteLoggingBucket, tryCatch. rewrite bind_unfold.
  rewrite (call_resolved _ _ Hr). cbn in resp. rewrite Hle.
  rewrite bind_unfold. unfold log at 1. cbn iota.
  rewrite <- app_assoc. cbn [app].
  match goal with
  | |- context [deleteS3Bucket ?f ?target ?c ?tr] =>
      replace (deleteS3Bucket f target c tr) with (@Threw unit e, t2)
        by (symmetry; exact Hrun)
  end.
  destruct (instanceofError e && messageIncludes e _); reflexivity.
Qed.

(** *** Logging setup is best effort *)

Lemma grantPermissionsToWriteLogs_flag (bucketName : string) :
  Emits (grantPermissionsToWriteLogs bucketName)
    (fun o new =>
       exists r,
         new = [Called (PutBucketAcl bucketName logDeliveryGroup logDeliveryGroup) r]
         /\ o = Returned (isResolved r)).
Proof.
  unfold grantPermissionsToWriteLogs. apply Emits_tryCatch. apply Emits_bind.
  apply Emits_call.
  - intros a. apply Emits_ret. exists (Resolved a). split; reflexivity.
  - intros e. apply Emits_ret. exists (Rejected e). split; reflexivity.
Qed.

Lemma putBucketLogging_flag (sourceBucketName targetBucketName : string) :
  Emits (putBucketLogging sourceBucketName targetBucketName)
    (fun o new =>
       exists r,
         new = [Called (PutBucketLogging sourceBucketName targetBucketName "logs/") r]
         /\ o = Returned (isResolved r)).
Proof.
  unfold putBucketLogging. apply Emits_tryCatch. apply Emits_bind.
  apply Emits_call.
  - intros a. apply Emits_ret. exists (Resolved a). split; reflexivity.
  - intros e. apply Emits_ret. exists (Rejected e). split; reflexivity.
Qed.

Lemma enableAccessLogging_returns (sourceBucketName targetBucketName : string) :
  Emits (enableAccessLogging sourceBucketName targetBucketName)
    (fun o new => o = Returned true).
Proof.
  unfold enableAccessLogging. apply Emits_tryCatch. apply Emits_bind.
  eapply Emits_weaken; [apply grantPermissionsToWriteLogs_flag|].
  cbn beta. intros o n1 (r & -> & ->). apply Emits_bind.
  eapply Emits_weaken; [apply putBucketLogging_flag|].
  cbn beta. intros o n2 (r' & -> & ->). apply Emits_ret. reflexivity.
Qed.

Ltac raises_step :=
  lazymatch goal with
  | |- Emits (bind _ _) (Raises _) => apply Raises_bind; [|intros ?]
  | |- Emits (log _) (Raises _) => apply Raises_log
  | |- Emits (call _) (Raises _) => apply Raises_call; reflexivity
  | |- Emits (ret _) (Raises _) => apply Raises_ret
  end.

Lemma createS3Bucket_raises (s3BucketName region : string) :
  Emits (createS3Bucket s3BucketName region)
    (Raises (fun c => isLoggingSetupCall c = false)).
Proof. unfold createS3Bucket. repeat raises_step. Qed.

(** C8.  Each of the two logging-setup steps makes its one call and returns
    whether the call resolved; neither throws, and neither does
    [enableAccessLogging].  [createWorkspaceS3Bucket] therefore returns the
    bucket name and arn, or throws what one of its other calls was rejected
    with: never what [putBucketAcl] or [putBucketLogging] was rejected
    with. *)
Theorem logging_setup_best_effort (workspaceId accountId region : string) :
  (forall bucketName : string,
     Emits (grantPermissionsToWriteLogs bucketName)
       (fun o new =>
          exists r,
            new = [Called (PutBucketAcl bucketName
                             "URI=http://acs.amazonaws.com/groups/s3/LogDelivery"
                             "URI=http://acs.amazonaws.com/groups/s3/LogDelivery") r]
            /\ o = Returned (isResolved r)))
  /\ (forall sourceBucketName targetBucketName : string,
        Emits (putBucketLogging sourceBucketName targetBucketName)
          (fun o new =>
             exists r,
               new = [Called (PutBucketLogging sourceBucketName targetBucketName "logs/") r]
               /\ o = Returned (isResolved r)))
  /\ (forall sourceBucketName targetBucketName : string,
        Emits (enableAccessLogging sourceBucketName targetBucketName)
          (fun o new => exists flag : bool, o = Returned flag))
  /\ Emits (createWorkspaceS3Bucket workspaceId accountId region)
       (fun o new =>
          match o with
          | Returned bucket =>
              bucket = {| s3BucketName := workspaceBucketName workspaceId accountId region;
                          s3BucketArn :=
                            "arn:aws:s3:::"
                              ++ workspaceBucketName workspaceId accountId region |}
          | Threw e =>
              exists (pre : Trace) (c : Call),
                new = pre ++ [Called c (Rejected e)] /\ isLoggingSetupCall c = false
          | OutOfFuel => False
          end).
Proof.
  split; [exact grantPermissionsToWriteLogs_flag|].
  split; [exact putBucketLogging_flag|].
  split.
  { intros src tgt. eapply Emits_weaken; [apply enableAccessLogging_returns|].
    cbn beta. intros o new ->. exists true. reflexivity. }
  eapply Emits_weaken.
  - unfold createWorkspaceS3Bucket.
    apply (Yields_bind
             (ok:=fun c => isLoggingSetupCall c = false)); [apply Raises_log|intros _].
    apply Yields_bind; [apply createS3Bucket_raises|intros _].
    apply Yields_bind; [apply Raises_log|intros _].
    apply Yields_bind; [apply Raises_call; reflexivity|intros _].
    apply Yields_bind; [apply Raises_log|intros _].
    apply Yields_bind; [apply Raises_log|intros _].
    apply Yields_bind; [apply createS3Bucket_raises|intros _].
    apply Yields_bind; [apply Raises_log|intros _].
    apply Yields_bind.
    { eapply Emits_weaken; [apply enableAccessLogging_returns|].
      cbn beta. intros o new ->. exact I. }
    intros _. apply Yields_bind; [apply Raises_log|intros _].
    apply Emits_ret. split; [exact I|reflexivity].
  - cbn beta. intros [bucket|e|] new [Hr Hv]; cbn in *; assumption.
Qed.

(** ** Further properties *)

(** *** The retry loop with any budget *)

Lemma sleepsOf_app (t1 t2 : Trace) : sleepsOf (t1 ++ t2) = sleepsOf t1 ++ sleepsOf t2.
Proof.
  induction t1 as [|ev t1 IH]; cbn [app sleepsOf]; [reflexivity|].
  destruct ev; cbn [app]; rewrite IH; reflexivity.
Qed.

Lemma retry_run_sleeps (w r b : string) (n : nat) (new : Trace) (out : Outcome string) :
  RetryRun (CreateWorkspace w r b) n new out ->
  sleepsOf new = repeat 2000%Z (length (filter isRetried (attemptsOf new)))
  /\ (Forall retriedFailure (attemptsOf new) ->
      sleepsOf new = repeat 2000%Z n
      /\ (n <> 0%nat -> exists pre : Trace, new = pre ++ [Slept 2000])).
Proof.
  induction 1 as [|n r0 resp c s Hr Harn|n r0 resp Hr Harn|n e He|n e new out He HR IH].
  - split; [reflexivity|]. intros _. split; [reflexivity|]. intros H. contradiction H.
    reflexivity.
  - cbn in Hr. injection Hr as ->. split; [reflexivity|]. cbn. intros Hall.
    inversion Hall as [|a l (e & Hee & _) _]. discriminate Hee.
  - cbn in Hr. injection Hr as ->. split; [reflexivity|]. cbn. intros Hall.
    inversion Hall as [|a l (e & Hee & _) _]. discriminate Hee.
  - split; [cbn; rewrite He; reflexivity|]. cbn. intros Hall.
    inversion Hall as [|a l (e' & Hee & He') _]. injection Hee as <-.
    rewrite He in He'. discriminate He'.
  - destruct IH as [IH1 IH2]. split.
    + cbn. rewrite He. cbn. rewrite IH1. reflexivity.
    + cbn. intros Hall. inversion Hall as [|a l _ Hrest]. subst.
      destruct (IH2 Hrest) as [Hs Hlast]. split.
      * rewrite Hs. reflexivity.
      * intros _. destruct n as [|n].
        -- inversion HR. subst.
           exists [Called (CreateWorkspace w r b) (Rejected e); Logged waitingLine].
           reflexivity.
        -- destruct Hlast as (pre & ->); [discriminate|].
           exists (Called (CreateWorkspace w r b) (Rejected e)
                     :: Logged waitingLine :: Slept 2000 :: pre).
           reflexivity.
Qed.

(** X1.  With any budget [n] the loop makes at most [n] calls and sleeps
    2000 ms once per rejection it retries on, and at no other time.  When
    every call is rejected that way, it sleeps [n] times, the last time
    after its last attempt, just before it throws.  With no budget it
    throws at once, without a call. *)
Theorem retryWorkspaceCreation_sleeps (w r b : string) (n : nat) (t : Trace) :
  exists (out : Outcome string) (new : Trace),
    retryWorkspaceCreation w r b n t = (out, t ++ new)
    /\ (length (calls new) <= n)%nat
    /\ sleepsOf new = repeat 2000%Z (length (filter isRetried (attemptsOf new)))
    /\ (Forall retriedFailure (attemptsOf new) ->
        out = Threw (newError "Retry exhausted")
        /\ sleepsOf new = repeat 2000%Z n
        /\ (n <> 0%nat -> exists pre : Trace, new = pre ++ [Slept 2000]))
    /\ (n = 0%nat -> new = [] /\ out = Threw (newError "Retry exhausted")).
Proof.
  destruct (retry_run w r b n t) as (out & new & Hrun & HR).
  exists out, new.
  destruct (retry_run_calls HR) as (_ & Hlen & _).
  destruct (retry_run_sleeps HR) as [Hs Hall].
  split; [exact Hrun|]. split; [exact Hlen|]. split; [exact Hs|]. split.
  - intros H. destruct (Hall H) as [H1 H2].
    split; [apply (retry_run_exhausted HR H)|]. split; assumption.
  - intros ->. inversion HR. split; reflexivity.
Qed.

(** X2.  A [createWorkspace] call that resolves without an arn, or with an
    empty one, ends the loop whatever budget is left: the loop throws
    [Error('Failed to create Workspace')]; it neither sleeps nor calls
    again. *)
Theorem retryWorkspaceCreation_missing_arn (w r b : string) (n : nat) (t : Trace)
    (resp : CreateWorkspaceCommandOutput) :
  respond env t (CreateWorkspace w r b) = Resolved resp ->
  truthy (cw_arn resp) = false ->
  retryWorkspaceCreation w r b (S n) t
  = (Threw (newError "Failed to create Workspace"),
     t ++ [Called (CreateWorkspace w r b) (Resolved resp)]).
Proof.
  intros Hr Harn. cbn [retryWorkspaceCreation]. rewrite bind_unfold.
  unfold tryCreateWorkspace, tryCatch. rewrite bind_unfold.
  rewrite (call_resolved _ _ Hr). rewrite bind_unfold.
  destruct (cw_arn resp) as [[|c s]|]; try discriminate Harn; reflexivity.
Qed.

(** *** Role provisioning *)

Lemma Emits_requireTruthy (x : option string) (err : Thrown)
    (P : Outcome string -> Trace -> Prop) :
  (forall (c : ascii) (s : string), x = Some (String c s) -> P (Returned (String c s)) []) ->
  (truthy x = false -> P (Threw err) []) ->
  Emits (requireTruthy x err) P.
Proof.
  intros Hok Herr. unfold requireTruthy. destruct x as [[|c s]|].
  - apply Emits_throw. apply Herr. reflexivity.
  - apply Emits_ret. apply Hok. reflexivity.
  - apply Emits_throw. apply Herr. reflexivity.
Qed.


(** *** Bucket provisioning *)

Lemma Straight_call_then {B} (c : Call) (k : RespOf c -> M B) (cs : list Call) :
  (forall a, Emits (k a) (Straight cs)) -> Emits (bind (call c) k) (Straight (c :: cs)).
Proof.
  intros Hk. apply (@Straight_bind _ _ (call c) k [c] cs); [apply Straight_call|exact Hk].
Qed.

Lemma Straight_log_then {B} (line : string) (k : unit -> M B) (cs : list Call) :
  (forall a, Emits (k a) (Straight cs)) -> Emits (bind (log line) k) (Straight cs).
Proof.
  intros Hk. apply (@Straight_bind _ _ (log line) k [] cs); [apply Straight_log|exact Hk].
Qed.

Lemma Straight_then_silent {A B} (m : M A) (k : A -> M B) (cs : list Call) :
  Emits m (Straight cs) -> (forall a, Emits (k a) (Straight [])) ->
  Emits (bind m k) (Straight cs).
Proof.
  intros Hm Hk. rewrite <- (app_nil_r cs). apply Straight_bind; assumption.
Qed.

Ltac straight_step :=
  lazymatch goal with
  | |- Emits (bind (call _) _) (Straight _) => apply Straight_call_then; intros ?
  | |- Emits (bind (log _) _) (Straight _) => apply Straight_log_then; intros ?
  | |- Emits (log _) (Straight _) => apply Straight_log
  | |- Emits (ret _) (Straight _) => apply Straight_ret
  | |- Emits (call _) (Straight _) => apply Straight_call
  end.

Lemma locationConstraintOf_eq (region : string) :
  (if negb (region =? "us-east-1")%string then Some region else None)
  = locationConstraintOf region.
Proof. unfold locationConstraintOf. destruct (region =? "us-east-1")%string; reflexivity. Qed.

Lemma createS3Bucket_straight (s3BucketName region : string) :
  Emits (createS3Bucket s3BucketName region)
    (Straight (secureBucketCalls s3BucketName (locationConstraintOf region))).
Proof.
  unfold createS3Bucket, secureBucketCalls. rewrite locationConstraintOf_eq.
  repeat straight_step.
Qed.

(** X4.  Whatever the region, a bucket is set up by five calls in this
    order: [createBucket], versioning, the bucket policy that denies
    requests without secure transport, the public access block with the
    four flags set, and AES256 encryption.  A set-up that throws has made
    an initial segment of them and throws what the last one was rejected
    with; nothing is undone.  The [createBucket] request carries the region
    as its location constraint, except for "us-east-1", where it carries
    none. *)
Theorem createS3Bucket_sequence (s3BucketName region : string) :
  Emits (createS3Bucket s3BucketName region)
    (Straight (secureBucketCalls s3BucketName (locationConstraintOf region)))
  /\ (locationConstraintOf region = None <-> region = "us-east-1"%string)
  /\ (region <> "us-east-1"%string -> locationConstraintOf region = Some region).
Proof.
  split; [apply createS3Bucket_straight|].
  unfold locationConstraintOf.
  destruct (String.eqb_spec region "us-east-1") as [Heq|Hne].
  - split; [split; intros _; [exact Heq|reflexivity]|]. intros H. contradiction (H Heq).
  - split; [split; [discriminate|intros H; contradiction (Hne H)]|]. reflexivity.
Qed.

(** X5.  [enableAccessLogging] always makes both calls, [putBucketAcl] on
    the target bucket and then [putBucketLogging] from the source to the
    target with prefix "logs/", and always returns [true]: the second call
    is made when the first was rejected, and [true] is returned when both
    were. *)
Theorem enableAccessLogging_always_true (sourceBucketName targetBucketName : string) :
  Emits (enableAccessLogging sourceBucketName targetBucketName)
    (fun o new =>
       o = Returned true
       /\ exists r1 r2,
            new = [Called (PutBucketAcl targetBucketName
                             "URI=http://acs.amazonaws.com/groups/s3/LogDelivery"
                             "URI=http://acs.amazonaws.com/groups/s3/LogDelivery") r1;
                   Called (PutBucketLogging sourceBucketName targetBucketName "logs/") r2]).
Proof.
  unfold enableAccessLogging. apply Emits_tryCatch. apply Emits_bind.
  eapply Emits_weaken; [apply grantPermissionsToWriteLogs_flag|].
  cbn beta. intros o n1 (r & -> & ->). apply Emits_bind.
  eapply Emits_weaken; [apply putBucketLogging_flag|].
  cbn beta. intros o n2 (r' & -> & ->). apply Emits_ret.
  split; [reflexivity|]. exists r, r'. reflexivity.
Qed.

Lemma enableAccessLogging_straight (sourceBucketName targetBucketName : string) :
  Emits (enableAccessLogging sourceBucketName targetBucketName)
    (Straight [PutBucketAcl targetBucketName logDeliveryGroup logDeliveryGroup;
               PutBucketLogging sourceBucketName targetBucketName "logs/"]).
Proof.
  unfold enableAccessLogging. apply Emits_tryCatch. apply Emits_bind.
  eapply Emits_weaken; [apply grantPermissionsToWriteLogs_flag|].
  cbn beta. intros o n1 (r & -> & ->). apply Emits_bind.
  eapply Emits_weaken; [apply putBucketLogging_flag|].
  cbn beta. intros o n2 (r' & -> & ->). apply Emits_ret.
  split; [exact I|reflexivity].
Qed.

(** X6.  The workspace bucket is provisioned in this order: the five set-up
    calls on the bucket, its CORS rules, the five set-up calls on the
    logging bucket, whose name is the bucket name with "-logs" appended and
    which is created in the same region, and last the two logging calls.
    A run that returns has made all of them, whatever the two logging calls
    answered; a run that throws has made an initial segment and throws what
    its last call was rejected with. *)
Theorem createWorkspaceS3Bucket_sequence (workspaceId accountId region : string) :
  Emits (createWorkspaceS3Bucket workspaceId accountId region)
    (Straight
       (workspaceBucketCalls (workspaceBucketName workspaceId accountId region) region)).
Proof.
  unfold createWorkspaceS3Bucket, workspaceBucketCalls.
  straight_step.
  apply Straight_bind; [apply createS3Bucket_straight|intros _].
  straight_step. cbn [app]. straight_step. straight_step. straight_step.
  apply Straight_bind; [apply createS3Bucket_straight|intros _].
  straight_step.
  apply Straight_then_silent; [apply enableAccessLogging_straight|intros _].
  repeat straight_step.
Qed.

(** *** Provisioning as a whole *)

Ltac provision_step P :=
  first
    [ lazymatch goal with
      | |- Always _ (delay _) => apply Emits_delay; apply callsAll_nil
      end
    | names_step P ].

Lemma retryWorkspaceCreation_keeps (P : Call -> Prop) (w r b : string) :
  P (CreateWorkspace w r b) ->
  forall n : nat, Always (callsAll P) (retryWorkspaceCreation w r b n).
Proof.
  intros HP n t. destruct (retry_run w r b n t) as (out & new & Hrun & HR).
  exists out, new. split; [exact Hrun|].
  destruct (retry_run_calls HR) as (Hall & _).
  unfold callsAll. eapply Forall_impl; [|exact Hall]. intros c <-. exact HP.
Qed.

(** X7.  Provisioning only ever adds: whatever the services answer and
    however far it gets, [createWorkspaceIfNotExists] makes no call that
    deletes, detaches or removes anything.  What a failed run has created
    stays. *)
Theorem createWorkspaceIfNotExists_never_destructive (workspaceId : string) :
  Always (callsAll (fun c => isDestructiveCall c = false))
    (createWorkspaceIfNotExists workspaceId).
Proof.
  unfold createWorkspaceIfNotExists, prepareWorkspace, createWorkspaceS3Bucket,
    createS3Bucket, enableAccessLogging, grantPermissionsToWriteLogs, putBucketLogging,
    createRoleAndPolicy.
  repeat provision_step (fun c => isDestructiveCall c = false).
  apply retryWorkspaceCreation_keeps. reflexivity.
Qed.

Lemma Phased_nil (phases : list (Call -> Prop)) : Phased phases [].
Proof.
  induction phases as [|P phases IH]; cbn [Phased]; [reflexivity|].
  exists [], []. split; [reflexivity|]. split; [constructor|exact IH].
Qed.

Lemma Phased_more (P : Call -> Prop) (phases : list (Call -> Prop)) (l cs : list Call) :
  Forall P l -> Phased (P :: phases) cs -> Phased (P :: phases) (l ++ cs).
Proof.
  intros Hl (l1 & l2 & -> & H1 & H2). exists (l ++ l1), l2.
  split; [apply app_assoc|]. split; [|exact H2].
  apply Forall_app. split; assumption.
Qed.

Lemma Phased_later (P : Call -> Prop) (phases : list (Call -> Prop)) (cs : list Call) :
  Phased phases cs -> Phased (P :: phases) cs.
Proof. intros H. exists [], cs. split; [reflexivity|]. split; [constructor|exact H]. Qed.

Lemma Phased_only (P : Call -> Prop) (phases : list (Call -> Prop)) (cs : list Call) :
  Forall P cs -> Phased (P :: phases) cs.
Proof.
  intros H. exists cs, []. split; [symmetry; apply app_nil_r|].
  split; [exact H|apply Phased_nil].
Qed.

Lemma Phased_bind {A B} (P : Call -> Prop) (phases : list (Call -> Prop))
    (m : M A) (k : A -> M B) :
  Always (callsAll P) m -> (forall a, Always (inPhases (P :: phases)) (k a)) ->
  Always (inPhases (P :: phases)) (bind m k).
Proof.
  intros Hm Hk. apply Emits_bind. eapply Emits_weaken; [exact Hm|].
  intros [a|e|] n1 H1; cbn beta iota.
  - eapply Emits_weaken; [apply Hk|]. cbn beta. intros o2 n2 H2.
    unfold inPhases. rewrite calls_app. apply Phased_more; assumption.
  - apply Phased_only. exact H1.
  - apply Phased_only. exact H1.
Qed.

Lemma Phased_next {A} (P : Call -> Prop) (phases : list (Call -> Prop)) (m : M A) :
  Always (inPhases phases) m -> Always (inPhases (P :: phases)) m.
Proof.
  intros Hm. eapply Emits_weaken; [exact Hm|]. cbn beta. intros o new H.
  apply Phased_later. exact H.
Qed.

Lemma Phased_log {B} (P : Call -> Prop) (phases : list (Call -> Prop)) (line : string)
    (k : unit -> M B) :
  (forall a, Always (inPhases (P :: phases)) (k a)) ->
  Always (inPhases (P :: phases)) (bind (log line) k).
Proof.
  intros Hk. apply Phased_bind; [|exact Hk]. apply Always_log. apply callsAll_nil.
Qed.

(** X8.  [prepareWorkspace] first asks for the caller's identity and, when
    that call is rejected, throws what it was rejected with after this one
    call.  Otherwise its further calls come in four phases, in this order
    and never interleaved, however far the run gets: calls on the workspace
    bucket and its logging bucket; calls on the workspace role and its
    policy; [createWorkspace] calls for the workspace; calls on the
    dashboard role and its policy.  All names are derived from the
    workspace id, the account id of the identity and the region. *)
Theorem prepareWorkspace_phases (workspaceId : string) :
  Emits (prepareWorkspace workspaceId)
    (fun o new =>
       exists (r : Result Identity) (rest : Trace),
         new = Called GetCurrentIdentity r :: rest
         /\ match r with
            | Rejected e => rest = [] /\ o = Threw e
            | Resolved identity =>
                let account := accountId identity in
                let code := regionToAirportCode (aws_region env) in
                Phased
                  [onBucket (workspaceBucketName workspaceId account (aws_region env));
                   onRole (roleNameOf WorkspaceRole workspaceId account code)
                     (policyNameOf WorkspaceRole workspaceId account code);
                   createsWorkspace workspaceId;
                   onRole (roleNameOf WorkspaceDashboardRole workspaceId account code)
                     (policyNameOf WorkspaceDashboardRole workspaceId account code)]
                  (calls rest)
            end).
Proof.
  unfold prepareWorkspace. apply Emits_bind. apply Emits_call; cycle 1.
  { intros e. exists (Rejected e), []. split; [reflexivity|]. split; reflexivity. }
  intros identity.
  eapply Emits_weaken; cycle 1.
  { cbn beta. intros o n2 H. exists (Resolved identity), n2.
    split; [reflexivity|exact H]. }
  apply Phased_bind; [apply createWorkspaceS3Bucket_names|intros bucket].
  apply Phased_next.
  apply Phased_bind; [apply createRoleAndPolicy_names|intros roleArn].
  apply Phased_next.
  apply Phased_bind.
  { apply retryWorkspaceCreation_keeps. exists roleArn, (s3BucketArn bucket). reflexivity. }
  intros arn. apply Phased_log. intros _.
  apply Phased_next.
  apply Phased_bind; [apply createRoleAndPolicy_names|intros dashboardArn].
  apply Emits_ret. apply Phased_nil.
Qed.

(** *** What a provisioning returns *)

Lemma WhenReturned_bind {A B} (m : M A) (k : A -> M B) (Pm : A -> Trace -> Prop)
    (P : B -> Trace -> Prop) :
  Emits m (WhenReturned Pm) ->
  (forall a n1, Pm a n1 -> Emits (k a) (WhenReturned (fun b n2 => P b (n1 ++ n2)))) ->
  Emits (bind m k) (WhenReturned P).
Proof.
  intros Hm Hk. apply Emits_bind. eapply Emits_weaken; [exact Hm|].
  intros [a|e|] n1 H1; cbn; [|exact I|exact I].
  eapply Emits_weaken; [apply (Hk a n1 H1)|].
  intros [b|e|] n2 H2; cbn in *; [exact H2|exact I|exact I].
Qed.

Lemma WhenReturned_any {A} (m : M A) (P : Outcome A -> Trace -> Prop) :
  Emits m P -> Emits m (WhenReturned (fun _ _ => True)).
Proof.
  intros Hm. eapply Emits_weaken; [exact Hm|]. intros [a|e|] new _; exact I.
Qed.

Lemma WhenReturned_then {A B} (m : M A) (k : A -> M B) (Pm : Outcome A -> Trace -> Prop)
    (P : B -> Prop) :
  Emits m Pm ->
  (forall a, Emits (k a) (WhenReturned (fun b _ => P b))) ->
  Emits (bind m k) (WhenReturned (fun b _ => P b)).
Proof.
  intros Hm Hk.
  apply (@WhenReturned_bind _ _ m k (fun _ _ => True) (fun b _ => P b)).
  - eapply WhenReturned_any. exact Hm.
  - intros a n1 _. apply Hk.
Qed.

Lemma createWorkspaceS3Bucket_value (workspaceId accountId region : string) :
  Emits (createWorkspaceS3Bucket workspaceId accountId region)
    (WhenReturned
       (fun bucket _ =>
          bucket = {| s3BucketName := workspaceBucketName workspaceId accountId region;
                      s3BucketArn :=
                        "arn:aws:s3:::"
                          ++ workspaceBucketName workspaceId accountId region |})).
Proof.
  unfold createWorkspaceS3Bucket.
  eapply WhenReturned_then; [apply Straight_log|intros _].
  eapply WhenReturned_then; [apply createS3Bucket_straight|intros _].
  eapply WhenReturned_then; [apply Straight_log|intros _].
  eapply WhenReturned_then; [apply Straight_call|intros _].
  eapply WhenReturned_then; [apply Straight_log|intros _].
  eapply WhenReturned_then; [apply Straight_log|intros _].
  eapply WhenReturned_then; [apply createS3Bucket_straight|intros _].
  eapply WhenReturned_then; [apply Straight_log|intros _].
  eapply WhenReturned_then; [apply enableAccessLogging_straight|intros _].
  eapply WhenReturned_then; [apply Straight_log|intros _].
  apply Emits_ret. reflexivity.
Qed.

Lemma createRoleAndPolicy_returned (workspaceId accountId region : string)
    (roleType : RoleType) (roleAssumePolicy rolePolicy : string) :
  Emits
    (createRoleAndPolicy workspaceId accountId region roleType roleAssumePolicy
       rolePolicy)
    (WhenReturned
       (fun roleArn new =>
          exists role : CreateRoleCommandOutput,
            In (Called
                  (CreateRole (roleNameOf roleType workspaceId accountId region) "/"
                     roleAssumePolicy
                     (roleTypeText roleType ++ " generated by AWS IoT TwinMaker TMDT"))
                  (Resolved role)) new
            /\ arnOf (Role role) = Some roleArn)).
Proof.
  unfold createRoleAndPolicy.
  apply Emits_bind. apply Emits_log. cbn beta iota.
  apply Emits_bind. apply Emits_call; [|intros e; exact I].
  intros role. cbn beta iota.
  apply Emits_bind. apply Emits_requireTruthy; [|intros _; exact I].
  intros c0 s0 Hrole.
  apply Emits_bind. apply Emits_log. cbn beta iota.
  apply Emits_bind. apply Emits_call; [|intros e; exact I].
  intros policy. cbn beta iota.
  apply Emits_bind. apply Emits_requireTruthy; [|intros _; exact I].
  intros c1 s1 Hpolicy.
  apply Emits_bind. apply Emits_log. cbn beta iota.
  apply Emits_bind. apply Emits_call; [|intros e; exact I].
  intros []. cbn beta iota.
  apply Emits_bind. apply Emits_log. cbn beta iota.
  apply Emits_ret. exists role. split; [|exact Hrole].
  cbn. right. left. reflexivity.
Qed.

Lemma retry_run_returned (w r b : string) (n : nat) (new : Trace) (arn : string) :
  RetryRun (CreateWorkspace w r b) n new (Returned arn) ->
  exists (pre : Trace) (created : CreateWorkspaceCommandOutput),
    new = pre ++ [Called (CreateWorkspace w r b) (Resolved created);
                  Logged ("Created Workspace: " ++ arn)]
    /\ cw_arn created = Some arn
    /\ arn <> ""%string
    /\ Forall retriedFailure (attemptsOf pre)
    /\ (length (sleepsOf pre) = length (calls pre)
        /\ S (length (calls pre)) <= n)%nat.
Proof.
  remember (Returned arn) as out eqn:Hout. intros HR. revert Hout.
  induction HR as [|n r0 resp c s Hr Harn|n r0 resp Hr Harn|n e He|n e new out He HR IH];
    intros Hout; try discriminate Hout.
  - injection Hout as <-. cbn in Hr. injection Hr as ->.
    exists [], resp. split; [reflexivity|]. split; [exact Harn|].
    split; [discriminate|]. split; [constructor|]. cbn. split; [reflexivity|lia].
  - destruct (IH Hout) as (pre & created & -> & Harn & Hne & Hall & Hs & Hn).
    exists (Called (CreateWorkspace w r b) (Rejected e)
              :: Logged waitingLine :: Slept 2000 :: pre), created.
    split; [reflexivity|]. split; [exact Harn|]. split; [exact Hne|]. split.
    + cbn. constructor; [|exact Hall]. exists e. split; [reflexivity|exact He].
    + cbn. split; [rewrite Hs; reflexivity|lia].
Qed.

Lemma retryWorkspaceCreation_returned (w r b : string) (n : nat) :
  Emits (retryWorkspaceCreation w r b n)
    (WhenReturned
       (fun arn new =>
          exists created : CreateWorkspaceCommandOutput,
            In (Called (CreateWorkspace w r b) (Resolved created)) new
            /\ cw_arn created = Some arn)).
Proof.
  intros t. destruct (retry_run w r b n t) as (out & new & Hrun & HR).
  exists out, new. split; [exact Hrun|].
  destruct out as [arn|e|]; cbn; [|exact I|exact I].
  destruct (retry_run_returned HR) as (pre & created & -> & Harn & _).
  exists created. split; [|exact Harn].
  apply in_or_app. right. left. reflexivity.
Qed.

(** X9.  What [prepareWorkspace] returns is what the services resolved
    with: the bucket arn is "arn:aws:s3:::" followed by the bucket name
    derived from the account id of the identity; the workspace role arn and
    the dashboard role arn are the arns the two [createRole] calls resolved
    with; the workspace arn is the arn that a [createWorkspace] call
    resolved with, and that call was made with the returned role arn and
    bucket arn. *)
Theorem prepareWorkspace_result (workspaceId : string) :
  Emits (prepareWorkspace workspaceId)
    (WhenReturned
       (fun p new =>
          exists (identity : Identity) (role dashboardRole : CreateRoleCommandOutput)
                 (created : CreateWorkspaceCommandOutput)
                 (document dashboardDocument : string),
            let account := accountId identity in
            let code := regionToAirportCode (aws_region env) in
            In (Called GetCurrentIdentity (Resolved identity)) new
            /\ workspaceS3BucketArn p
               = ("arn:aws:s3:::"
                    ++ workspaceBucketName workspaceId account (aws_region env))%string
            /\ In (Called
                     (CreateRole (roleNameOf WorkspaceRole workspaceId account code) "/"
                        document "WorkspaceRole generated by AWS IoT TwinMaker TMDT")
                     (Resolved role)) new
            /\ arnOf (Role role) = Some (workspaceRoleArn p)
            /\ In (Called
                     (CreateWorkspace workspaceId (workspaceRoleArn p)
                        (workspaceS3BucketArn p))
                     (Resolved created)) new
            /\ cw_arn created = Some (workspaceArn p)
            /\ In (Called
                     (CreateRole
                        (roleNameOf WorkspaceDashboardRole workspaceId account code) "/"
                        dashboardDocument
                        "WorkspaceDashboardRole generated by AWS IoT TwinMaker TMDT")
                     (Resolved dashboardRole)) new
            /\ arnOf (Role dashboardRole) = Some (workspaceDashboardRoleArn p))).
Proof.
  unfold prepareWorkspace.
  eapply WhenReturned_bind.
  { apply Emits_call with
      (P := WhenReturned (fun identity n => n = [Called GetCurrentIdentity (Resolved identity)])).
    - intros identity. reflexivity.
    - intros e. exact I. }
  intros identity n0 ->.
  eapply WhenReturned_bind; [apply createWorkspaceS3Bucket_value|].
  intros bucket n1 ->. cbn [s3BucketArn].
  eapply WhenReturned_bind; [apply createRoleAndPolicy_returned|].
  intros roleArn n2 (role & Hrole & Harn).
  eapply WhenReturned_bind; [apply retryWorkspaceCreation_returned|].
  intros arn n3 (created & Hcreated & Hcw).
  eapply WhenReturned_bind; [eapply WhenReturned_any; apply Straight_log|].
  intros _ n4 _.
  eapply WhenReturned_bind; [apply createRoleAndPolicy_returned|].
  intros dashboardArn n5 (dashboardRole & Hdashboard & Hdarn).
  apply Emits_ret. cbn [WhenReturned].
  eexists identity, role, dashboardRole, created, _, _.
  cbn zeta. cbn [workspaceS3BucketArn workspaceRoleArn workspaceArn
                  workspaceDashboardRoleArn].
  split; [left; reflexivity|].
  split; [reflexivity|].
  split.
  { apply in_or_app. right. apply in_or_app. right. apply in_or_app. left. exact Hrole. }
  split; [exact Harn|].
  split.
  { apply in_or_app. right. apply in_or_app. right. apply in_or_app. right.
    apply in_or_app. left. exact Hcreated. }
  split; [exact Hcw|].
  split.
  { apply in_or_app. right. apply in_or_app. right. apply in_or_app. right.
    apply in_or_app. right. apply in_or_app. right. apply in_or_app. left.
    exact Hdashboard. }
  exact Hdarn.
Qed.

(** *** Pagination of a bucket teardown *)

Lemma Emits_and {A} (m : M A) (P Q : Outcome A -> Trace -> Prop) :
  Emits m P -> Emits m Q -> Emits m (fun o new => P o new /\ Q o new).
Proof.
  intros HP HQ t. destruct (HP t) as (o & new & Hrun & Hp).
  destruct (HQ t) as (o' & new' & Hrun' & Hq).
  rewrite Hrun in Hrun'. injection Hrun' as <- Hnew.
  apply app_inv_head in Hnew. subst new'.
  exists o, new. split; [exact Hrun|]. split; assumption.
Qed.

Lemma stepsOf_app {K} (step : Event -> option (K * PageEnd K)) (t1 t2 : Trace) :
  stepsOf step (t1 ++ t2) = stepsOf step t1 ++ stepsOf step t2.
Proof. unfold stepsOf. apply flat_map_app. Qed.

Lemma quiet_app {K} (step : Event -> option (K * PageEnd K)) (n1 n2 : Trace) :
  stepsOf step n1 = [] -> stepsOf step n2 = [] -> stepsOf step (n1 ++ n2) = [].
Proof. intros H1 H2. rewrite stepsOf_app, H1, H2. reflexivity. Qed.

Ltac quiet_step step :=
  first
    [ always_step (eq_refl : stepsOf step [] = []) (quiet_app step)
    | reflexivity ].

Lemma deleteObjectsLoop_no_version_steps (commit : bool) (fuel : nat) (b : option string) :
  forall (isTruncated : option bool) (token : option string),
    Always (fun n => stepsOf versionStep n = [])
      (deleteObjectsLoop fuel b commit isTruncated token).
Proof.
  induction fuel as [|fuel IH]; intros isTruncated token; cbn [deleteObjectsLoop];
    repeat quiet_step versionStep.
  apply IH.
Qed.

Lemma deleteVersionsLoop_no_object_steps (commit : bool) (fuel : nat) (b : option string) :
  forall (isTruncated : option bool) (versionIdMarker keyMarker : option string),
    Always (fun n => stepsOf objectStep n = [])
      (deleteVersionsLoop fuel b commit isTruncated versionIdMarker keyMarker).
Proof.
  induction fuel as [|fuel IH]; intros isTruncated versionIdMarker keyMarker;
    cbn [deleteVersionsLoop]; repeat quiet_step objectStep.
  apply IH.
Qed.

Lemma gated_deletes_quiet {A K} (step : Event -> option (K * PageEnd K)) (commit : bool)
    (del : A -> Call) (msg : A -> string) (xs : option (list A)) :
  (forall x r, step (Called (del x) r) = None) ->
  (forall line, step (Logged line) = None) ->
  Always (fun n => stepsOf step n = [])
    (forOfDefined xs (fun x => whenTrue commit (call (del x)) ;; log (msg x))).
Proof.
  intros Hdel Hlog.
  repeat always_step (eq_refl : stepsOf step [] = []) (quiet_app step).
  - unfold stepsOf. cbn [flat_map]. rewrite Hdel. reflexivity.
  - unfold stepsOf. cbn [flat_map]. rewrite Hlog. reflexivity.
Qed.

Lemma complete_cons {K} (s : K * PageEnd K) (steps : list (K * PageEnd K)) :
  complete steps -> complete (s :: steps).
Proof. intros (pre & k & ->). exists (s :: pre), k. reflexivity. Qed.

Lemma deleteObjectsLoop_chain (commit : bool) (fuel : nat) (b : option string) :
  forall (isTruncated : option bool) (token : option string),
    Emits (deleteObjectsLoop fuel b commit isTruncated token)
      (fun o new =>
         if isTrue isTruncated
         then chained token (stepsOf objectStep new)
              /\ (o = Returned tt -> complete (stepsOf objectStep new))
         else new = []).
Proof.
  induction fuel as [|fuel IH]; intros isTruncated token;
    cbn [deleteObjectsLoop]; destruct (isTrue isTruncated).
  - apply Emits_outOfFuel. split; [exact I|discriminate].
  - apply Emits_ret. reflexivity.
  - apply Emits_bind. apply Emits_call; cycle 1.
    { intros e. split; [|discriminate]. cbn. split; reflexivity. }
    intros page. apply Emits_bind.
    eapply Emits_weaken;
      [apply (gated_deletes_quiet objectStep commit
                (fun obj => DeleteObject b (Key obj) None)
                (fun obj => "deleted S3 Object: " ++ show (Key obj))%string);
       reflexivity|].
    cbn beta. intros [[]|e|] n2 Hq; cbn beta iota.
    + eapply Emits_weaken; [apply IH|]. cbn beta. intros o n3 H3.
      rewrite !stepsOf_app, Hq. unfold stepsOf at 1 3. cbn [flat_map objectStep app].
      destruct (isTrue (lo_IsTruncated page)).
      * destruct H3 as [Hc Hd]. split; [split; [reflexivity|exact Hc]|].
        intros Ho. apply complete_cons. apply Hd. exact Ho.
      * subst n3. cbn. split; [split; reflexivity|].
        intros _. exists [], token. reflexivity.
    + rewrite stepsOf_app, Hq. unfold stepsOf. cbn [flat_map objectStep app].
      split; [|discriminate]. split; [reflexivity|].
      destruct (isTrue (lo_IsTruncated page)); [exact I|reflexivity].
    + rewrite stepsOf_app, Hq. unfold stepsOf. cbn [flat_map objectStep app].
      split; [|discriminate]. split; [reflexivity|].
      destruct (isTrue (lo_IsTruncated page)); [exact I|reflexivity].
  - apply Emits_ret. reflexivity.
Qed.

Lemma deleteVersionsLoop_chain (commit : bool) (fuel : nat) (b : option string) :
  forall (isTruncated : option bool) (versionIdMarker keyMarker : option string),
    Emits (deleteVersionsLoop fuel b commit isTruncated versionIdMarker keyMarker)
      (fun o new =>
         if isTrue isTruncated
         then chained (versionIdMarker, keyMarker) (stepsOf versionStep new)
              /\ (o = Returned tt -> complete (stepsOf versionStep new))
         else new = []).
Proof.
  induction fuel as [|fuel IH]; intros isTruncated versionIdMarker keyMarker;
    cbn [deleteVersionsLoop]; destruct (isTrue isTruncated).
  - apply Emits_outOfFuel. split; [exact I|discriminate].
  - apply Emits_ret. reflexivity.
  - apply Emits_bind. apply Emits_call; cycle 1.
    { intros e. split; [|discriminate]. cbn. split; reflexivity. }
    intros page. apply Emits_bind.
    eapply Emits_weaken;
      [apply (gated_deletes_quiet versionStep commit
                (fun version => DeleteObject b (v_Key version) (v_VersionId version))
                (fun version =>
                   "deleted S3 Object: " ++ show (v_Key version) ++ ", version: "
                     ++ show (v_VersionId version))%string);
       reflexivity|].
    cbn beta. intros [[]|e|] n2 Hq; cbn beta iota; cycle 1.
    { rewrite stepsOf_app, Hq. unfold stepsOf. cbn [flat_map versionStep app].
      split; [|discriminate]. split; [reflexivity|].
      destruct (isTrue (lv_IsTruncated page)); [exact I|reflexivity]. }
    { rewrite stepsOf_app, Hq. unfold stepsOf. cbn [flat_map versionStep app].
      split; [|discriminate]. split; [reflexivity|].
      destruct (isTrue (lv_IsTruncated page)); [exact I|reflexivity]. }
    apply Emits_bind.
    eapply Emits_weaken;
      [apply (gated_deletes_quiet versionStep commit
                (fun version => DeleteObject b (v_Key version) (v_VersionId version))
                (fun version =>
                   "deleted S3 delete marker: " ++ show (v_Key version) ++ ", version: "
                     ++ show (v_VersionId version))%string);
       reflexivity|].
    cbn beta. intros [[]|e|] n2' Hq'; cbn beta iota; cycle 1.
    { rewrite !stepsOf_app, Hq, Hq'. unfold stepsOf. cbn [flat_map versionStep app].
      split; [|discriminate]. split; [reflexivity|].
      destruct (isTrue (lv_IsTruncated page)); [exact I|reflexivity]. }
    { rewrite !stepsOf_app, Hq, Hq'. unfold stepsOf. cbn [flat_map versionStep app].
      split; [|discriminate]. split; [reflexivity|].
      destruct (isTrue (lv_IsTruncated page)); [exact I|reflexivity]. }
    eapply Emits_weaken; [apply IH|]. cbn beta. intros o n3 H3.
    rewrite !stepsOf_app, Hq, Hq'. unfold stepsOf at 1 3. cbn [flat_map versionStep app].
    destruct (isTrue (lv_IsTruncated page)).
    + destruct H3 as [Hc Hd]. split; [split; [reflexivity|exact Hc]|].
      intros Ho. apply complete_cons. apply Hd. exact Ho.
    + subst n3. cbn. split; [split; reflexivity|].
      intros _. exists [], (versionIdMarker, keyMarker). reflexivity.
  - apply Emits_ret. reflexivity.
Qed.

Lemma bucket_deletion_quiet {K} (step : Event -> option (K * PageEnd K)) (commit : bool)
    (b : option string) :
  (forall r, step (Called (DeleteBucket b) r) = None) ->
  (forall line, step (Logged line) = None) ->
  Always (fun n => stepsOf step n = [])
    (whenTrue commit (call (DeleteBucket b)) ;;
     log (LF ++ "deleted S3 Bucket: " ++ show b)).
Proof.
  intros Hdel Hlog.
  repeat always_step (eq_refl : stepsOf step [] = []) (quiet_app step).
  - unfold stepsOf. cbn [flat_map]. rewrite Hdel. reflexivity.
  - unfold stepsOf. cbn [flat_map]. rewrite Hlog. reflexivity.
Qed.

(** X10.  A bucket teardown pages through its two listings as the service
    tells it to.  The first [listObjectsV2] request carries no continuation
    token and each further one the token of the page before it; the first
    [listObjectVersions] request carries no markers and each further one
    the two markers of the page before it.  A listing goes on exactly as
    long as the page says [IsTruncated: true]: no request follows a page
    that says [false] or nothing, or a rejected request.  The version
    listing starts only when the object listing went up to its last page,
    and a teardown that returns went up to the last page of both. *)
Theorem deleteS3Bucket_pagination (fuel : nat) (b : option string) (commit : bool) :
  Emits (deleteS3Bucket fuel b commit)
    (fun o new =>
       chained None (stepsOf objectStep new)
       /\ chained (None, None) (stepsOf versionStep new)
       /\ (stepsOf versionStep new <> [] -> complete (stepsOf objectStep new))
       /\ (o = Returned tt ->
           complete (stepsOf objectStep new) /\ complete (stepsOf versionStep new))).
Proof.
  unfold deleteS3Bucket. apply Emits_bind.
  eapply Emits_weaken;
    [apply Emits_and;
     [apply (deleteObjectsLoop_chain commit fuel b (Some true) None)
     |apply (deleteObjectsLoop_no_version_steps commit fuel b (Some true) None)]|].
  cbn beta iota. intros [[]|e|] n1 [[Hc1 Hd1] Hq1]; cbn [isTrue] in *; cycle 1.
  { rewrite Hq1. split; [exact Hc1|]. split; [exact I|].
    split; [intros H; contradiction H; reflexivity|discriminate]. }
  { rewrite Hq1. split; [exact Hc1|]. split; [exact I|].
    split; [intros H; contradiction H; reflexivity|discriminate]. }
  specialize (Hd1 eq_refl).
  apply Emits_bind.
  eapply Emits_weaken;
    [apply Emits_and;
     [apply (deleteVersionsLoop_chain commit fuel b (Some true) None None)
     |apply (deleteVersionsLoop_no_object_steps commit fuel b (Some true) None None)]|].
  cbn beta iota. intros [[]|e|] n2 [[Hc2 Hd2] Hq2]; cbn [isTrue] in *; cycle 1.
  { rewrite !stepsOf_app, Hq1, Hq2, app_nil_r. cbn [app].
    split; [exact Hc1|]. split; [exact Hc2|]. split; [intros _; exact Hd1|discriminate]. }
  { rewrite !stepsOf_app, Hq1, Hq2, app_nil_r. cbn [app].
    split; [exact Hc1|]. split; [exact Hc2|]. split; [intros _; exact Hd1|discriminate]. }
  specialize (Hd2 eq_refl).
  eapply Emits_weaken;
    [apply Emits_and;
     [apply (@bucket_deletion_quiet _ objectStep commit b); reflexivity
     |apply (@bucket_deletion_quiet _ versionStep commit b); reflexivity]|].
  cbn beta. intros o n3 [Hq3 Hq3'].
  rewrite !stepsOf_app, Hq1, Hq2, Hq3, Hq3', !app_nil_r. cbn [app].
  split; [exact Hc1|]. split; [exact Hc2|]. split; [intros _; exact Hd1|].
  intros _. split; assumption.
Qed.

(** *** Dry runs and committed runs *)

Lemma deleteS3Bucket_listings (fuel : nat) (b : option string) (commit : bool) :
  Emits (deleteS3Bucket fuel b commit)
    (fun o new =>
       o = Returned tt ->
       (chained None (stepsOf objectStep new) /\ complete (stepsOf objectStep new))
       /\ chained (None, None) (stepsOf versionStep new)
       /\ complete (stepsOf versionStep new)).
Proof.
  unfold deleteS3Bucket. apply Emits_bind.
  eapply Emits_weaken;
    [apply Emits_and;
     [apply (deleteObjectsLoop_chain commit fuel b (Some true) None)
     |apply (deleteObjectsLoop_no_version_steps commit fuel b (Some true) None)]|].
  cbn beta iota. intros [[]|e|] n1 [[Hc1 Hd1] Hq1]; cbn [isTrue] in *;
    [|discriminate|discriminate].
  specialize (Hd1 eq_refl).
  apply Emits_bind.
  eapply Emits_weaken;
    [apply Emits_and;
     [apply (deleteVersionsLoop_chain commit fuel b (Some true) None None)
     |apply (deleteVersionsLoop_no_object_steps commit fuel b (Some true) None None)]|].
  cbn beta iota. intros [[]|e|] n2 [[Hc2 Hd2] Hq2]; cbn [isTrue] in *;
    [|discriminate|discriminate].
  specialize (Hd2 eq_refl).
  eapply Emits_weaken;
    [apply Emits_and;
     [apply (@bucket_deletion_quiet _ objectStep commit b); reflexivity
     |apply (@bucket_deletion_quiet _ versionStep commit b); reflexivity]|].
  cbn beta. intros o n3 [Hq3 Hq3'] _.
  rewrite !stepsOf_app, Hq1, Hq2, Hq3, Hq3', !app_nil_r. cbn [app].
  split; [split; assumption|]. split; assumption.
Qed.


(** *** The bucket is deleted last *)

Lemma allResolved_app (n1 n2 : Trace) :
  allResolved (n1 ++ n2) = allResolved n1 && allResolved n2.
Proof. apply forallb_app. Qed.

Lemma AllResolved_bind {A B} (m : M A) (k : A -> M B) :
  Emits m (WhenReturned (fun _ n => allResolved n = true)) ->
  (forall a, Emits (k a) (WhenReturned (fun _ n => allResolved n = true))) ->
  Emits (bind m k) (WhenReturned (fun _ n => allResolved n = true)).
Proof.
  intros Hm Hk.
  apply (@WhenReturned_bind _ _ m k (fun _ n => allResolved n = true)); [exact Hm|].
  intros a n1 H1. eapply Emits_weaken; [apply Hk|].
  intros [x|e|] n2 H2; cbn in *; [|exact I|exact I].
  rewrite allResolved_app, H1, H2. reflexivity.
Qed.

Lemma AllResolved_forOfDefined {A} (xs : option (list A)) (body : A -> M unit) :
  (forall x, Emits (body x) (WhenReturned (fun _ n => allResolved n = true))) ->
  Emits (forOfDefined xs body) (WhenReturned (fun _ n => allResolved n = true)).
Proof.
  intros Hbody. destruct xs as [l|]; cbn [forOfDefined]; [|apply Emits_ret; reflexivity].
  induction l as [|x l IH]; cbn [forOf]; [apply Emits_ret; reflexivity|].
  apply AllResolved_bind; [apply Hbody|intros _; exact IH].
Qed.

Ltac resolved_step :=
  lazymatch goal with
  | |- Emits (bind _ _) (WhenReturned _) => apply AllResolved_bind; [|intros ?]
  | |- Emits (call _) (WhenReturned _) =>
      apply Emits_call; [intros ?; reflexivity|intros ?; exact I]
  | |- Emits (log _) (WhenReturned _) => apply Emits_log; reflexivity
  | |- Emits (ret _) (WhenReturned _) => apply Emits_ret; reflexivity
  | |- Emits outOfFuel (WhenReturned _) => apply Emits_outOfFuel; exact I
  | |- Emits (forOfDefined _ _) (WhenReturned _) =>
      apply AllResolved_forOfDefined; intros ?
  | |- Emits (whenTrue _ _) (WhenReturned _) => unfold whenTrue
  | |- Emits (if ?c then _ else _) (WhenReturned _) => destruct c
  end.

Lemma deleteObjectsLoop_resolved (commit : bool) (fuel : nat) (b : option string) :
  forall (isTruncated : option bool) (token : option string),
    Emits (deleteObjectsLoop fuel b commit isTruncated token)
      (WhenReturned (fun _ n => allResolved n = true)).
Proof.
  induction fuel as [|fuel IH]; intros isTruncated token; cbn [deleteObjectsLoop];
    repeat resolved_step.
  apply IH.
Qed.

Lemma deleteVersionsLoop_resolved (commit : bool) (fuel : nat) (b : option string) :
  forall (isTruncated : option bool) (versionIdMarker keyMarker : option string),
    Emits (deleteVersionsLoop fuel b commit isTruncated versionIdMarker keyMarker)
      (WhenReturned (fun _ n => allResolved n = true)).
Proof.
  induction fuel as [|fuel IH]; intros isTruncated versionIdMarker keyMarker;
    cbn [deleteVersionsLoop]; repeat resolved_step.
  apply IH.
Qed.

Ltac phase_step P :=
  first
    [ always_step (callsAll_nil P) (callsAll_app (P:=P))
    | solve [unfold callsAll; cbn [calls];
             first [apply Forall_nil
                   |apply Forall_cons;
                    [unfold objectPhase, versionPhase; eauto|apply Forall_nil]]] ].

Lemma deleteObjectsLoop_phase (commit : bool) (fuel : nat) (b : option string) :
  forall (isTruncated : option bool) (token : option string),
    Always (callsAll (objectPhase b)) (deleteObjectsLoop fuel b commit isTruncated token).
Proof.
  induction fuel as [|fuel IH]; intros isTruncated token; cbn [deleteObjectsLoop];
    repeat phase_step (objectPhase b).
  apply IH.
Qed.

Lemma deleteVersionsLoop_phase (commit : bool) (fuel : nat) (b : option string) :
  forall (isTruncated : option bool) (versionIdMarker keyMarker : option string),
    Always (callsAll (versionPhase b))
      (deleteVersionsLoop fuel b commit isTruncated versionIdMarker keyMarker).
Proof.
  induction fuel as [|fuel IH]; intros isTruncated versionIdMarker keyMarker;
    cbn [deleteVersionsLoop]; repeat phase_step (versionPhase b).
  apply IH.
Qed.

Lemma Phased_two (P1 P2 : Call -> Prop) (l1 l2 : list Call) :
  Forall P1 l1 -> Forall P2 l2 -> Phased [P1; P2] (l1 ++ l2).
Proof.
  intros H1 H2. exists l1, l2. split; [reflexivity|]. split; [exact H1|].
  apply Phased_only. exact H2.
Qed.

(** X11.  The calls of a bucket teardown come in this order, however far it
    gets: the calls of the object listing loop, then those of the version
    listing loop, then at most one [deleteBucket], after which nothing is
    called; every one of them names the bucket it was given.  When
    [deleteBucket] is called at all, the run is a committed one, both
    listings went up to their last page and no call before it was rejected:
    a bucket whose contents could not be listed or deleted is not
    deleted. *)
Theorem deleteS3Bucket_bucket_last (fuel : nat) (b : option string) (commit : bool) :
  Emits (deleteS3Bucket fuel b commit)
    (fun o new =>
       exists pre : Trace,
         Phased [objectPhase b; versionPhase b] (calls pre)
         /\ (new = pre
             \/ exists (r : Result unit) (post : Trace),
                  new = pre ++ Called (DeleteBucket b) r :: post
                  /\ commit = true
                  /\ calls post = []
                  /\ allResolved pre = true
                  /\ complete (stepsOf objectStep pre)
                  /\ complete (stepsOf versionStep pre))).
Proof.
  unfold deleteS3Bucket. apply Emits_bind.
  eapply Emits_weaken;
    [apply Emits_and;
     [apply (deleteObjectsLoop_phase commit fuel b (Some true) None)
     |apply Emits_and;
      [apply (deleteObjectsLoop_resolved commit fuel b (Some true) None)
      |apply Emits_and;
       [apply (deleteObjectsLoop_chain commit fuel b (Some true) None)
       |apply (deleteObjectsLoop_no_version_steps commit fuel b (Some true) None)]]]|].
  cbn beta iota. intros [[]|e|] n1 (Hp1 & Hr1 & [_ Hd1] & Hq1); cbn [isTrue WhenReturned] in *;
    cycle 1.
  { exists n1. split; [|left; reflexivity].
    rewrite <- (app_nil_r (calls n1)). apply Phased_two; [exact Hp1|constructor]. }
  { exists n1. split; [|left; reflexivity].
    rewrite <- (app_nil_r (calls n1)). apply Phased_two; [exact Hp1|constructor]. }
  specialize (Hd1 eq_refl).
  apply Emits_bind.
  eapply Emits_weaken;
    [apply Emits_and;
     [apply (deleteVersionsLoop_phase commit fuel b (Some true) None None)
     |apply Emits_and;
      [apply (deleteVersionsLoop_resolved commit fuel b (Some true) None None)
      |apply Emits_and;
       [apply (deleteVersionsLoop_chain commit fuel b (Some true) None None)
       |apply (deleteVersionsLoop_no_object_steps commit fuel b (Some true) None
                 None)]]]|].
  cbn beta iota. intros [[]|e|] n2 (Hp2 & Hr2 & [_ Hd2] & Hq2); cbn [isTrue WhenReturned] in *;
    cycle 1.
  { exists (n1 ++ n2). split; [|left; reflexivity].
    rewrite calls_app. apply Phased_two; assumption. }
  { exists (n1 ++ n2). split; [|left; reflexivity].
    rewrite calls_app. apply Phased_two; assumption. }
  specialize (Hd2 eq_refl).
  unfold whenTrue. destruct commit.
  - apply Emits_bind. apply Emits_bind. apply Emits_call.
    + intros a. apply Emits_ret. apply Emits_log.
      exists (n1 ++ n2). split; [rewrite calls_app; apply Phased_two; assumption|].
      right. exists (Resolved a), [Logged (LF ++ "deleted S3 Bucket: " ++ show b)].
      split; [rewrite <- !app_assoc; reflexivity|].
      split; [reflexivity|]. split; [reflexivity|].
      split; [rewrite allResolved_app, Hr1, Hr2; reflexivity|].
      rewrite !stepsOf_app, Hq1, Hq2, app_nil_r. split; assumption.
    + intros e.
      exists (n1 ++ n2). split; [rewrite calls_app; apply Phased_two; assumption|].
      right. exists (Rejected e), [].
      split; [rewrite <- !app_assoc; reflexivity|].
      split; [reflexivity|]. split; [reflexivity|].
      split; [rewrite allResolved_app, Hr1, Hr2; reflexivity|].
      rewrite !stepsOf_app, Hq1, Hq2, app_nil_r. split; assumption.
  - apply Emits_bind. apply Emits_ret. apply Emits_log.
    exists (n1 ++ n2 ++ [] ++ [Logged (LF ++ "deleted S3 Bucket: " ++ show b)]).
    split; [|left; reflexivity].
    rewrite !calls_app. cbn [calls app]. rewrite app_nil_r.
    apply Phased_two; assumption.
Qed.

(** *** The buckets of a workspace teardown *)

Lemma objectPhase_on (b : option string) (c : Call) : objectPhase b c -> teardownOn b c.
Proof. intros [(token & ->)|(key & ->)]; reflexivity. Qed.

Lemma versionPhase_on (b : option string) (c : Call) : versionPhase b c -> teardownOn b c.
Proof. intros [(v & k & ->)|(key & v & ->)]; reflexivity. Qed.

Lemma deleteS3Bucket_on (fuel : nat) (b : option string) (commit : bool) :
  Always (callsAll (teardownOn b)) (deleteS3Bucket fuel b commit).
Proof.
  unfold deleteS3Bucket.
  apply Always_bind; [apply callsAll_app| |intros _].
  { eapply Emits_weaken; [apply deleteObjectsLoop_phase|]. cbn beta. intros o new H.
    unfold callsAll. eapply Forall_impl; [apply objectPhase_on|exact H]. }
  apply Always_bind; [apply callsAll_app| |intros _].
  { eapply Emits_weaken; [apply deleteVersionsLoop_phase|]. cbn beta. intros o new H.
    unfold callsAll. eapply Forall_impl; [apply versionPhase_on|exact H]. }
  repeat names_step (teardownOn b).
Qed.

Lemma deleteS3Bucket_starts (fuel : nat) (b : option string) (commit : bool) :
  fuel <> 0%nat ->
  Emits (deleteS3Bucket fuel b commit)
    (fun o new =>
       exists (r : Result ListObjectsV2CommandOutput) (rest : Trace),
         new = Called (ListObjectsV2 b None) r :: rest).
Proof.
  intros Hfuel. destruct fuel as [|fuel]; [contradiction Hfuel; reflexivity|].
  unfold deleteS3Bucket. cbn [deleteObjectsLoop isTrue].
  apply Emits_bind. apply Emits_bind. apply Emits_call; cycle 1.
  { intros e. exists (Rejected e), []. reflexivity. }
  intros page.
  eapply Emits_weaken.
  { apply (Ends_bind (fuel:=fuel));
      [apply Ends_straight; apply gated_deletes_raise
      |intros _; apply deleteObjectsLoop_ends]. }
  cbn beta. intros [[]|e|] n1 _.
  - eapply Emits_weaken.
    { apply (Ends_bind (fuel:=S fuel)); [apply deleteVersionsLoop_ends|intros _].
      apply Ends_straight.
      apply Raises_bind; [|intros _; apply Raises_log].
      unfold whenTrue. destruct commit; [|apply Raises_ret].
      apply Raises_bind; [apply Raises_call; exact I|intros _; apply Raises_ret]. }
    cbn beta. intros o n2 _. exists (Resolved page), (n1 ++ n2).
    rewrite <- app_assoc. reflexivity.
  - exists (Resolved page), n1. reflexivity.
  - exists (Resolved page), n1. reflexivity.
Qed.

Lemma deleteLoggingBucket_calls (fuel : nat) (b : option string) (commit : bool) :
  Emits (deleteLoggingBucket fuel b commit)
    (fun o new =>
       exists (r : Result GetBucketLoggingCommandOutput) (rest : Trace),
         new = Called (GetBucketLogging b) r :: rest
         /\ callsAll (fun c => exists target,
                        loggingTargetOf r = Some target /\ teardownOn target c) rest
         /\ (forall target, loggingTargetOf r = Some target -> fuel <> 0%nat ->
             exists (r' : Result ListObjectsV2CommandOutput) (rest' : Trace),
               rest = Logged "Deleting logging bucket..."
                        :: Called (ListObjectsV2 target None) r' :: rest')).
Proof.
  unfold deleteLoggingBucket. apply Emits_tryCatch. apply Emits_bind.
  apply Emits_call; cycle 1.
  { intros e. destruct (instanceofError e && messageIncludes e _).
    - apply Emits_log. exists (Rejected e), [Logged "Logging Bucket not found, moving on with deletion."].
      split; [reflexivity|]. split; [apply callsAll_nil|]. intros target H. discriminate H.
    - apply Emits_throw. exists (Rejected e), [].
      split; [reflexivity|]. split; [apply callsAll_nil|]. intros target H. discriminate H. }
  intros resp. cbn in resp.
  destruct (LoggingEnabled resp) as [loggingEnabled|] eqn:Hle; cycle 1.
  { apply Emits_ret. cbn [app]. exists (Resolved resp), [].
    split; [reflexivity|]. split; [apply callsAll_nil|].
    intros target H. cbn in H. rewrite Hle in H. discriminate H. }
  apply Emits_bind. apply Emits_log. cbn beta iota.
  assert (Htarget : loggingTargetOf (Resolved resp)
                    = Some (Some (show (TargetBucket loggingEnabled)))).
  { cbn. rewrite Hle. reflexivity. }
  destruct (Nat.eq_dec fuel 0) as [Hzero|Hfuel].
  - eapply Emits_weaken; [apply deleteS3Bucket_on|].
    cbn beta. intros o n2 Hon.
    assert (Hall : callsAll
                     (fun c => exists target,
                        loggingTargetOf (Resolved resp) = Some target
                        /\ teardownOn target c) n2).
    { unfold callsAll. eapply Forall_impl; [|exact Hon].
      intros c Hc. eexists. split; [exact Htarget|exact Hc]. }
    destruct o as [[]|e|].
    + exists (Resolved resp), (Logged "Deleting logging bucket..." :: n2).
      split; [reflexivity|]. split; [exact Hall|].
      intros target _ H. contradiction (H Hzero).
    + destruct (instanceofError e && messageIncludes e _).
      * apply Emits_log.
        exists (Resolved resp),
          ((Logged "Deleting logging bucket..." :: n2)
             ++ [Logged "Logging Bucket not found, moving on with deletion."]).
        split; [reflexivity|]. split.
        { apply (@callsAll_app _ (Logged "Deleting logging bucket..." :: n2));
            [exact Hall|apply callsAll_nil]. }
        intros target _ H. contradiction (H Hzero).
      * apply Emits_throw.
        exists (Resolved resp), (Logged "Deleting logging bucket..." :: n2).
        split; [cbn; rewrite app_nil_r; reflexivity|]. split; [exact Hall|].
        intros target _ H. contradiction (H Hzero).
    + exists (Resolved resp), (Logged "Deleting logging bucket..." :: n2).
      split; [reflexivity|]. split; [exact Hall|].
      intros target _ H. contradiction (H Hzero).
  - eapply Emits_weaken;
      [apply Emits_and; [apply deleteS3Bucket_on|apply deleteS3Bucket_starts; exact Hfuel]|].
    cbn beta. intros o n2 [Hon (r' & rest' & ->)].
    assert (Hall : callsAll
                     (fun c => exists target,
                        loggingTargetOf (Resolved resp) = Some target
                        /\ teardownOn target c)
                     (Called (ListObjectsV2 (Some (show (TargetBucket loggingEnabled)))
                                None) r' :: rest')).
    { unfold callsAll. eapply Forall_impl; [|exact Hon].
      intros c Hc. eexists. split; [exact Htarget|exact Hc]. }
    destruct o as [[]|e|].
    + eexists (Resolved resp), _. split; [reflexivity|]. split; [exact Hall|].
      intros target H _. rewrite Htarget in H. injection H as <-.
      exists r', rest'. reflexivity.
    + destruct (instanceofError e && messageIncludes e _).
      * apply Emits_log. eexists (Resolved resp), _. split; [cbn; reflexivity|]. split.
        { apply (@callsAll_app _
                   (Logged "Deleting logging bucket..."
                      :: Called (ListObjectsV2
                                   (Some (show (TargetBucket loggingEnabled))) None) r'
                      :: rest'));
            [exact Hall|apply callsAll_nil]. }
        intros target H _. rewrite Htarget in H. injection H as <-.
        eexists r', _. reflexivity.
      * apply Emits_throw. eexists (Resolved resp), _.
        split; [cbn; rewrite app_nil_r; reflexivity|]. split; [exact Hall|].
        intros target H _. rewrite Htarget in H. injection H as <-.
        exists r', rest'. reflexivity.
    + eexists (Resolved resp), _. split; [reflexivity|]. split; [exact Hall|].
      intros target H _. rewrite Htarget in H. injection H as <-.
      exists r', rest'. reflexivity.
Qed.

Lemma deleteWorkspaceBucket_on (fuel : nat) (b : option string) (commit : bool) :
  Always (callsAll (teardownOn b)) (deleteWorkspaceBucket fuel b commit).
Proof.
  unfold deleteWorkspaceBucket.
  apply Always_tryCatch; [apply callsAll_app| |intros e].
  - apply Always_bind; [apply callsAll_app| |intros _].
    + apply Always_log. apply callsAll_nil.
    + apply deleteS3Bucket_on.
  - destruct (instanceofNoSuchBucket e).
    + apply Always_log. apply callsAll_nil.
    + apply Always_throw. apply callsAll_nil.
Qed.

(** X12.  The teardown of a workspace bucket and its logs starts with the
    logging query on the bucket.  The bucket it then empties and deletes
    first is the target bucket that the answer names, read as a string
    (the text "undefined" when the logging configuration names none), not a
    name derived from the bucket; when the answer has logging enabled and
    there is fuel, the object listing of that target is the next call.  All
    calls on the target come before all calls on the bucket itself, no
    other bucket is touched, and when the query is rejected or logging is
    not enabled, only the bucket itself is. *)
Theorem deleteWorkspaceBucketAndLogs_targets (fuel : nat) (b : option string)
    (commit : bool) :
  Emits (deleteWorkspaceBucketAndLogs fuel b commit)
    (fun o new =>
       exists (r : Result GetBucketLoggingCommandOutput) (rest : Trace),
         new = Called (GetBucketLogging b) r :: rest
         /\ Phased
              [fun c => exists target,
                 loggingTargetOf r = Some target /\ teardownOn target c;
               teardownOn b]
              (calls rest)
         /\ (forall target, loggingTargetOf r = Some target -> fuel <> 0%nat ->
             exists (r' : Result ListObjectsV2CommandOutput) (rest' : Trace),
               rest = Logged "Deleting logging bucket..."
                        :: Called (ListObjectsV2 target None) r' :: rest')).
Proof.
  unfold deleteWorkspaceBucketAndLogs. apply Emits_bind.
  eapply Emits_weaken; [apply deleteLoggingBucket_calls|].
  cbn beta. intros [[]|e|] n1 (r & rest & -> & Hall & Hfirst).
  - eapply Emits_weaken; [apply deleteWorkspaceBucket_on|].
    cbn beta. intros o n2 Hon. exists r, (rest ++ n2).
    split; [reflexivity|]. split.
    + rewrite calls_app. apply Phased_two; assumption.
    + intros target Ht Hfuel. destruct (Hfirst target Ht Hfuel) as (r' & rest' & ->).
      exists r', (rest' ++ n2). reflexivity.
  - exists r, rest. split; [reflexivity|]. split; [|exact Hfirst].
    rewrite <- (app_nil_r (calls rest)). apply Phased_two; [exact Hall|constructor].
  - exists r, rest. split; [reflexivity|]. split; [|exact Hfirst].
    rewrite <- (app_nil_r (calls rest)). apply Phased_two; [exact Hall|constructor].
Qed.

(** *** What the retry loop returns *)

(** X13.  A retry loop that returns, returns the arn that its last
    [createWorkspace] call resolved with, which is not empty, and ends by
    logging it.  Every call before that one was rejected with an error the
    loop retries on and was followed by one sleep, and there were fewer of
    them than the budget. *)
Theorem retryWorkspaceCreation_returns_last (w r b : string) (n : nat) :
  Emits (retryWorkspaceCreation w r b n)
    (WhenReturned
       (fun arn new =>
          exists (pre : Trace) (created : CreateWorkspaceCommandOutput),
            new = pre ++ [Called (CreateWorkspace w r b) (Resolved created);
                          Logged ("Created Workspace: " ++ arn)]
            /\ cw_arn created = Some arn
            /\ arn <> ""%string
            /\ Forall retriedFailure (attemptsOf pre)
            /\ (length (sleepsOf pre) = length (calls pre)
                /\ S (length (calls pre)) <= n)%nat)).
Proof.
  intros t. destruct (retry_run w r b n t) as (out & new & Hrun & HR).
  exists out, new. split; [exact Hrun|].
  destruct out as [arn|e|]; cbn; [|exact I|exact I].
  apply (retry_run_returned HR).
Qed.

(** *** deleteWorkspace *)

(** X14.  A committed [deleteWorkspace] makes the one call.  When the call
    resolves it logs the deletion and returns; when the call is rejected it
    logs 'Unable to delete workspace <id>:', a line feed, a space and the
    text of what the call was rejected with, and throws that same value
    again.  A dry run makes no call, cannot throw, and logs the same
    'deleted workspace: <id>' line as a deletion that took place. *)
Theorem deleteWorkspace_outcomes (workspaceId : string) (nonDryRun : bool) :
  Emits (deleteWorkspace workspaceId nonDryRun)
    (fun o new =>
       if nonDryRun
       then exists r : Result unit,
              match r with
              | Resolved _ =>
                  o = Returned tt
                  /\ new = [Called (DeleteWorkspace workspaceId) r;
                            Logged ("deleted workspace: " ++ workspaceId)]
              | Rejected e =>
                  o = Threw e
                  /\ new = [Called (DeleteWorkspace workspaceId) r;
                            Logged ("Unable to delete workspace " ++ workspaceId ++ ":"
                                      ++ LF ++ " " ++ errorToString e)]
              end
       else o = Returned tt /\ new = [Logged ("deleted workspace: " ++ workspaceId)]).
Proof.
  unfold deleteWorkspace, whenTrue. destruct nonDryRun.
  - apply Emits_tryCatch. apply Emits_bind. apply Emits_bind. apply Emits_call.
    + intros a. apply Emits_ret. apply Emits_log.
      exists (Resolved a). split; reflexivity.
    + intros e. apply Emits_bind. apply Emits_log. apply Emits_throw.
      exists (Rejected e). split; reflexivity.
  - apply Emits_tryCatch. apply Emits_bind. apply Emits_ret. apply Emits_log.
    split; reflexivity.
Qed.

(** *** How the derived names relate *)

(** On the strings of the model lower-casing works unit by unit, so it
    distributes over concatenation. *)
Lemma toLowerCase_app (s1 s2 : string) :
  toLowerCase (s1 ++ s2) = (toLowerCase s1 ++ toLowerCase s2)%string.
Proof.
  induction s1 as [|c s1 IH]; cbn [toLowerCase String.append]; [reflexivity|].
  rewrite IH. reflexivity.
Qed.

Lemma string_app_assoc (s1 s2 s3 : string) :
  ((s1 ++ s2) ++ s3 = s1 ++ (s2 ++ s3))%string.
Proof.
  induction s1 as [|c s1 IH]; cbn [String.append]; [reflexivity|].
  rewrite IH. reflexivity.
Qed.

(** X15.  The derived names do not tell apart workspace ids that differ
    only in the case of their letters, be they of 'A'..'Z' or of the
    Latin-1 supplement: ids that lower-case to the same string get the same
    bucket name and, for either role type, the same role name and policy
    name. *)
Theorem derived_names_ignore_case (workspaceId workspaceId' accountId region : string) :
  toLowerCase workspaceId = toLowerCase workspaceId' ->
  workspaceBucketName workspaceId accountId region
  = workspaceBucketName workspaceId' accountId region
  /\ (forall roleType : RoleType,
        roleNameOf roleType workspaceId accountId region
        = roleNameOf roleType workspaceId' accountId region
        /\ policyNameOf roleType workspaceId accountId region
           = policyNameOf roleType workspaceId' accountId region).
Proof.
  intros H. split.
  - unfold workspaceBucketName. rewrite !toLowerCase_app, H. reflexivity.
  - intros []; split; unfold roleNameOf, policyNameOf;
      rewrite !toLowerCase_app, H; reflexivity.
Qed.

(** X16.  For workspace ids, account ids and regions made of units below
    256, on which lower-casing works unit by unit: for either role type the
    policy name is the role name followed by "-autopolicy"; the name of a
    workspace role is never the name of a dashboard role, and likewise for
    their policies; and the workspace role that [prepareWorkspace] creates,
    for the airport code of the region, has the name of the workspace
    bucket. *)
Theorem derived_names_related (workspaceId accountId region : string) :
  (forall roleType : RoleType,
     policyNameOf roleType workspaceId accountId region
     = (roleNameOf roleType workspaceId accountId region ++ "-autopolicy")%string)
  /\ (forall workspaceId' accountId' region' : string,
        roleNameOf WorkspaceRole workspaceId accountId region
        <> roleNameOf WorkspaceDashboardRole workspaceId' accountId' region'
        /\ policyNameOf WorkspaceRole workspaceId accountId region
           <> policyNameOf WorkspaceDashboardRole workspaceId' accountId' region')
  /\ roleNameOf WorkspaceRole workspaceId accountId (regionToAirportCode region)
     = workspaceBucketName workspaceId accountId region.
Proof.
  split; [|split].
  - intros []; unfold policyNameOf, roleNameOf, roleTypeText;
      rewrite !toLowerCase_app; rewrite !string_app_assoc; reflexivity.
  - intros w' a' r'. unfold roleNameOf, policyNameOf, roleTypeText.
    rewrite !toLowerCase_app. split; intros H; vm_compute in H; discriminate H.
  - reflexivity.
Qed.

End Workspace.

(** ** Worked examples *)

(** [createWorkspaceIfNotExists] and [prepareWorkspace] with the stand-ins
    for the imports. *)
Abbreviation createWith env :=
  (createWorkspaceIfNotExists env Sample.airportCode Sample.fillTemplate
     Sample.stringify Sample.document Sample.document Sample.document
     Sample.document).

Abbreviation prepareWith env :=
  (prepareWorkspace env Sample.airportCode Sample.fillTemplate
     Sample.stringify Sample.document Sample.document Sample.document
     Sample.document).

(** Nine rejections for role propagation, then success: ten calls, and the
    arn of the tenth is returned. *)
Example retry_nine_then_created :
  exists new : Trace,
    retryWorkspaceCreation (Sample.provisioning 9 Sample.arnless)
      "demo" "role-arn" "bucket-arn" 10 []
    = (Returned "arn:aws:iottwinmaker:us-west-2:123456789012:workspace/demo", new)
    /\ calls new = repeat Sample.createDemo 10.
Proof. eexists. split; reflexivity. Qed.

(** Ten rejections: ten calls, no eleventh, and 'Retry exhausted'. *)
Example retry_ten_then_exhausted :
  exists new : Trace,
    retryWorkspaceCreation (Sample.provisioning 10 Sample.arnless)
      "demo" "role-arn" "bucket-arn" 10 []
    = (Threw (newError "Retry exhausted"), new)
    /\ calls new = repeat Sample.createDemo 10.
Proof. eexists. split; reflexivity. Qed.

(** Which rejections make the loop retry. *)
Example retry_eligibility :
  retryEligible
    (JsError ValidationException
       "Could not assume the role provided, role arn: arn:aws:iam::123456789012:role/r")
    = true
  /\ retryEligible
       (JsError ValidationException "Could not access S3 with the role provided.")
     = true
  /\ retryEligible (JsError ValidationException "Workspace id is not valid") = false
  /\ retryEligible
       (JsError (OtherError "AccessDeniedException")
          "Could not assume the role provided")
     = false
  /\ retryEligible (NonError "Could not assume the role provided") = false.
Proof. repeat split; reflexivity. Qed.

(** A validation failure with an unrelated message is thrown at once. *)
Example retry_unrelated_validation_failure :
  retryWorkspaceCreation
    (Sample.refusing (JsError ValidationException "Workspace id is not valid"))
    "demo" "role-arn" "bucket-arn" 10 []
  = (Threw (JsError ValidationException "Workspace id is not valid"),
     [Called Sample.createDemo
        (Rejected (JsError ValidationException "Workspace id is not valid"))]).
Proof. reflexivity. Qed.

(** The role-propagation rejection of the sample account makes the loop
    sleep and go on with nine attempts. *)
Lemma retryWorkspaceCreation_on_failure_witness :
  respond (Sample.provisioning 3 Sample.arnless) [] Sample.createDemo
    = Rejected Sample.roleNotPropagated
  /\ retryEligible Sample.roleNotPropagated = true
  /\ retryWorkspaceCreation (Sample.provisioning 3 Sample.arnless)
       "demo" "role-arn" "bucket-arn" 10 []
     = retryWorkspaceCreation (Sample.provisioning 3 Sample.arnless)
         "demo" "role-arn" "bucket-arn" 9
         [Called Sample.createDemo (Rejected Sample.roleNotPropagated);
          Logged "Waiting for the newly created role to be propagated...";
          Slept 2000].
Proof.
  split; [reflexivity|]. split; [reflexivity|].
  exact (proj1 (proj2 (retryWorkspaceCreation_on_failure
                         (Sample.provisioning 3 Sample.arnless)
                         (w:="demo") (r:="role-arn") (b:="bucket-arn") 9 []
                         (e:=Sample.roleNotPropagated) eq_refl))
           eq_refl).
Defined.

(** C3 as stated fails: the fetch resolves, with a record that has an arn
    and no [workspaceId], and the function throws instead of returning. *)
Lemma createWorkspaceIfNotExists_found_without_id :
  respond (Sample.existing Sample.idless)
    [Logged "Creating a new Workspace: demo"] (GetWorkspace "demo")
    = Resolved Sample.idless
  /\ createWith (Sample.existing Sample.idless) "demo" []
     = (Threw (newError "Unable to get a valid workspace"),
        [Logged "Creating a new Workspace: demo";
         Called (GetWorkspace "demo") (Resolved Sample.idless);
         Logged "Found an existing Workspace with the same Id. Skip creating Workspace."]).
Proof. split; reflexivity. Qed.

(** A fetch that finds a workspace with its id: the id and the fetched arn
    are returned after that one call. *)
Lemma createWorkspaceIfNotExists_fetch_witness :
  createWith (Sample.existing Sample.arnless) "demo" []
  = (Returned {| ref_workspaceId := "demo"; ref_workspaceArn := None |},
     [Logged "Creating a new Workspace: demo";
      Called (GetWorkspace "demo") (Resolved Sample.arnless);
      Logged "Found an existing Workspace with the same Id. Skip creating Workspace."]).
Proof.
  exact (proj1 (createWorkspaceIfNotExists_fetch
                  (Sample.existing Sample.arnless) Sample.airportCode
                  Sample.fillTemplate Sample.stringify Sample.document
                  Sample.document Sample.document Sample.document "demo" [])
           Sample.arnless eq_refl).
Defined.

(** C10.  Whenever [createWorkspaceIfNotExists] returns, it returns the
    requested id and the [arn] field of the record its last [getWorkspace]
    call resolved with, a record that has a [workspaceId]; nothing is
    required of that [arn].  On the path that finds the workspace the
    returned arn can be absent.  On the path that provisions it,
    [prepareWorkspace] returns the arn [createWorkspace] answered, and what
    is returned is still the arn of the fetch: absent here. *)
Theorem createWorkspaceIfNotExists_arn_source :
  (forall (env : Env) (regionToAirportCode : string -> string)
          (replaceTemplateVars : string -> list (string * string) -> string)
          (JSON_stringify : Json -> string)
          (assumePolicy dashboardAssumePolicy policyTemplate dashboardPolicyTemplate : Json)
          (workspaceId : string) (t t' : Trace) (ref : WorkspaceRef),
     createWorkspaceIfNotExists env regionToAirportCode replaceTemplateVars
       JSON_stringify assumePolicy dashboardAssumePolicy policyTemplate
       dashboardPolicyTemplate workspaceId t = (Returned ref, t') ->
     exists (before after : Trace) (workspace : GetWorkspaceCommandOutput),
       t' = before ++ Called (GetWorkspace workspaceId) (Resolved workspace) :: after
       /\ calls after = []
       /\ truthy (gw_workspaceId workspace) = true
       /\ ref = {| ref_workspaceId := workspaceId;
                   ref_workspaceArn := gw_arn workspace |})
  /\ fst (createWith (Sample.existing Sample.arnless) "demo" [])
     = Returned {| ref_workspaceId := "demo"; ref_workspaceArn := None |}
  /\ (exists (t1 t2 : Trace) (provisioned : ProvisionedWorkspace),
        prepareWith (Sample.provisioning 2 Sample.arnless) "demo" t1
          = (Returned provisioned, t2)
        /\ workspaceArn provisioned
           = "arn:aws:iottwinmaker:us-west-2:123456789012:workspace/demo"
        /\ createWith (Sample.provisioning 2 Sample.arnless) "demo" []
           = (Returned {| ref_workspaceId := "demo"; ref_workspaceArn := None |},
              t2 ++ [Called (GetWorkspace "demo") (Resolved Sample.arnless)])).
Proof.
  split; [|split].
  - intros env regionToAirportCode replaceTemplateVars JSON_stringify
      assumePolicy dashboardAssumePolicy policyTemplate dashboardPolicyTemplate.
    apply createWorkspaceIfNotExists_returned.
  - reflexivity.
  - exists [Logged "Creating a new Workspace: demo";
            Called (GetWorkspace "demo")
              (Rejected (JsError ResourceNotFoundException "Workspace not found"))].
    eexists. eexists. split; [vm_compute; reflexivity|].
    split; [reflexivity|]. vm_compute. reflexivity.
Qed.



(** The dry run of the sample: every page of objects and versions is
    listed, five entries in all, and nothing is deleted. *)
Example dry_run_lists_and_deletes_nothing :
  exists new : Trace,
    deleteS3Bucket Sample.storage 5 (Some "demo-bucket") false [] = (Returned tt, new)
    /\ calls new
       = [ListObjectsV2 (Some "demo-bucket") None;
          ListObjectsV2 (Some "demo-bucket") (Some "page-2");
          ListObjectVersions (Some "demo-bucket") None None]
    /\ length (flat_map (accountedCalls true) new) = (3 + 5)%nat.
Proof. eexists. repeat split; reflexivity. Qed.

(** The committed run of the sample. *)
Example committed_run_deletes_what_it_lists :
  exists new : Trace,
    deleteS3Bucket Sample.storage 5 (Some "demo-bucket") true [] = (Returned tt, new)
    /\ calls new
       = [ListObjectsV2 (Some "demo-bucket") None;
          DeleteObject (Some "demo-bucket") (Some "a.json") None;
          DeleteObject (Some "demo-bucket") (Some "b.json") None;
          ListObjectsV2 (Some "demo-bucket") (Some "page-2");
          DeleteObject (Some "demo-bucket") (Some "c.json") None;
          ListObjectVersions (Some "demo-bucket") None None;
          DeleteObject (Some "demo-bucket") (Some "a.json") (Some "v1");
          DeleteObject (Some "demo-bucket") (Some "b.json") (Some "v1");
          DeleteBucket (Some "demo-bucket")].
Proof. eexists. split; reflexivity. Qed.

(** A listing that never stops being truncated uses up any fuel. *)
Example endless_listing_runs_out_of_fuel :
  fst (deleteObjectsLoop
         {| respond := fun _ c =>
              match c as c0 return Result (RespOf c0) with
              | ListObjectsV2 _ _ =>
                  Resolved {| lo_IsTruncated := Some true;
                              lo_NextContinuationToken := Some "again";
                              Contents := None |}
              | c' => Resolved (Sample.answer c')
              end;
            aws_region := "us-west-2" |}
         7 (Some "demo-bucket") true (Some true) None [])
  = OutOfFuel.
Proof. reflexivity. Qed.

(** The role of the sample account: one profile, two inline policies, one
    attached policy. *)
Example role_teardown_order :
  calls (snd (deleteIAMroleAndPolicy Sample.identities (Some "demo-role") []))
  = [ListInstanceProfilesForRole (Some "demo-role");
     RemoveRoleFromInstanceProfile (Some "demo-role") (Some "profile-1");
     ListRolePolicies (Some "demo-role");
     DeleteRolePolicy (Some "demo-role") "inline-a";
     DeleteRolePolicy (Some "demo-role") "inline-b";
     ListAttachedRolePolicies (Some "demo-role");
     DetachRolePolicy (Some "demo-role")
       (Some "arn:aws:iam::123456789012:policy/managed-1");
     DeletePolicy (Some "arn:aws:iam::123456789012:policy/managed-1");
     DeleteRole (Some "demo-role")].
Proof. reflexivity. Qed.

(** A role for which every listing comes back without its list. *)
Example role_teardown_without_lists :
  deleteIAMroleAndPolicy (Sample.existing Sample.arnless) (Some "demo-role") []
  = (Returned tt,
     [Called (ListInstanceProfilesForRole (Some "demo-role"))
        (Resolved {| InstanceProfiles := None |});
      Called (ListRolePolicies (Some "demo-role")) (Resolved {| PolicyNames := None |});
      Called (ListAttachedRolePolicies (Some "demo-role"))
        (Resolved {| AttachedPolicies := None |});
      Called (DeleteRole (Some "demo-role")) (Resolved tt);
      Logged "deleted role: demo-role"]).
Proof. reflexivity. Qed.

(** The names derived for workspace "Demo" of account 123456789012 in
    us-west-2. *)
Example names_of_demo :
  workspaceBucketName Sample.airportCode "Demo" "123456789012" "us-west-2"
    = "twinmaker-workspace-demo-123456789012-pdx"
  /\ roleNameOf WorkspaceRole "Demo" "123456789012" "pdx"
     = "twinmaker-workspace-demo-123456789012-pdx"
  /\ policyNameOf WorkspaceRole "Demo" "123456789012" "pdx"
     = "twinmaker-workspace-demo-123456789012-pdx-autopolicy"
  /\ roleNameOf WorkspaceDashboardRole "Demo" "123456789012" "pdx"
     = "twinmaker-workspacedashboardrole-demo-123456789012-pdx"
  /\ policyNameOf WorkspaceDashboardRole "Demo" "123456789012" "pdx"
     = "twinmaker-workspacedashboardrole-demo-123456789012-pdx-autopolicy".
Proof. repeat split; reflexivity. Qed.

(** The location constraint is left out for us-east-1 only. *)
Example location_constraint :
  hd_error (calls (snd (createS3Bucket Sample.storage Sample.stringify
                          "demo-bucket" "us-east-1" [])))
    = Some (CreateBucket "demo-bucket" None)
  /\ hd_error (calls (snd (createS3Bucket Sample.storage Sample.stringify
                             "demo-bucket" "eu-west-1" [])))
     = Some (CreateBucket "demo-bucket" (Some "eu-west-1")).
Proof. split; reflexivity. Qed.

(** Neither bucket exists: the logging query is rejected with the phrase,
    the listing of the bucket with a [NoSuchBucket], and the teardown
    returns. *)
Lemma deleteWorkspaceBucketAndLogs_absent_witness :
  deleteWorkspaceBucketAndLogs Sample.nothingThere 1 (Some "demo-bucket") true []
  = (Returned tt,
     [Called (GetBucketLogging (Some "demo-bucket"))
        (Rejected (JsError (OtherError "NoSuchBucket")
                     "The specified bucket does not exist"));
      Logged "Logging Bucket not found, moving on with deletion.";
      Logged "Deleting workspace bucket...";
      Called (ListObjectsV2 (Some "demo-bucket") None) (Rejected Sample.bucketMissing);
      Logged "Bucket does not exist and cannot be deleted: demo-bucket"]).
Proof.
  etransitivity.
  - exact (proj1 (deleteWorkspaceBucketAndLogs_absent Sample.nothingThere 1
                    (Some "demo-bucket") true [])
             (JsError (OtherError "NoSuchBucket") "The specified bucket does not exist")
             eq_refl).
  - exact (proj2 (deleteWorkspaceBucketAndLogs_absent Sample.nothingThere 1
                    (Some "demo-bucket") true
                    [Called (GetBucketLogging (Some "demo-bucket"))
                       (Rejected (JsError (OtherError "NoSuchBucket")
                                    "The specified bucket does not exist"));
                     Logged "Logging Bucket not found, moving on with deletion."])
             Sample.bucketMissing
             [Called (GetBucketLogging (Some "demo-bucket"))
                (Rejected (JsError (OtherError "NoSuchBucket")
                             "The specified bucket does not exist"));
              Logged "Logging Bucket not found, moving on with deletion.";
              Logged "Deleting workspace bucket...";
              Called (ListObjectsV2 (Some "demo-bucket") None)
                (Rejected Sample.bucketMissing)]
             eq_refl).
Defined.

(** C9 as stated fails: the logging configuration names a target bucket
    that is absent, the deletion of that bucket throws a [NoSuchBucket]
    with the usual message, and [deleteWorkspaceBucketAndLogs] logs, goes on
    and returns. *)
Lemma absent_logging_target_is_swallowed :
  respond (Sample.targetGone "The specified bucket does not exist")
    [] (GetBucketLogging (Some "demo-bucket"))
    = Resolved {| LoggingEnabled := Some {| TargetBucket := Some "demo-bucket-logs" |} |}
  /\ deleteS3Bucket (Sample.targetGone "The specified bucket does not exist")
       1 (Some "demo-bucket-logs") true []
     = (Threw Sample.bucketMissing,
        [Called (ListObjectsV2 (Some "demo-bucket-logs") None)
           (Rejected Sample.bucketMissing)])
  /\ deleteWorkspaceBucketAndLogs (Sample.targetGone "The specified bucket does not exist")
       1 (Some "demo-bucket") true []
     = (Returned tt,
        [Called (GetBucketLogging (Some "demo-bucket"))
           (Resolved {| LoggingEnabled :=
                          Some {| TargetBucket := Some "demo-bucket-logs" |} |});
         Logged "Deleting logging bucket...";
         Called (ListObjectsV2 (Some "demo-bucket-logs") None)
           (Rejected Sample.bucketMissing);
         Logged "Logging Bucket not found, moving on with deletion.";
         Logged "Deleting workspace bucket...";
         Called (ListObjectsV2 (Some "demo-bucket") None)
           (Resolved (Sample.answer (ListObjectsV2 (Some "demo-bucket") None)));
         Called (ListObjectVersions (Some "demo-bucket") None None)
           (Resolved (Sample.answer (ListObjectVersions (Some "demo-bucket") None None)));
         Called (DeleteBucket (Some "demo-bucket")) (Resolved tt);
         Logged (LF ++ "deleted S3 Bucket: demo-bucket")]).
Proof. repeat split; reflexivity. Qed.

(** The same account when the rejection carries another message: the
    [NoSuchBucket] of the logging target is thrown out of the teardown. *)
Lemma deleteWorkspaceBucketAndLogs_logging_target_witness :
  deleteWorkspaceBucketAndLogs (Sample.targetGone "Not Found") 1 (Some "demo-bucket") true []
  = (Threw (JsError NoSuchBucket "Not Found"),
     [Called (GetBucketLogging (Some "demo-bucket"))
        (Resolved {| LoggingEnabled := Some {| TargetBucket := Some "demo-bucket-logs" |} |});
      Logged "Deleting logging bucket...";
      Called (ListObjectsV2 (Some "demo-bucket-logs") None)
        (Rejected (JsError NoSuchBucket "Not Found"))]).
Proof.
  exact (deleteWorkspaceBucketAndLogs_logging_target
           (Sample.targetGone "Not Found") 1 (b:=Some "demo-bucket") true []
           (resp:={| LoggingEnabled := Some {| TargetBucket := Some "demo-bucket-logs" |} |})
           (loggingEnabled:={| TargetBucket := Some "demo-bucket-logs" |})
           (e:=JsError NoSuchBucket "Not Found")
           eq_refl eq_refl eq_refl).
Defined.

(** Both logging-setup calls are refused and the bucket pair is provisioned
    all the same. *)
Example logging_refused_bucket_provisioned :
  fst (createWorkspaceS3Bucket Sample.noLogging Sample.airportCode Sample.stringify
         "Demo" "123456789012" "us-west-2" [])
  = Returned {| s3BucketName := "twinmaker-workspace-demo-123456789012-pdx";
                s3BucketArn := "arn:aws:s3:::twinmaker-workspace-demo-123456789012-pdx" |}
  /\ fst (grantPermissionsToWriteLogs Sample.noLogging "demo-bucket-logs" [])
      = Returned false
  /\ fst (putBucketLogging Sample.noLogging "demo-bucket" "demo-bucket-logs" [])
      = Returned false.
Proof. repeat split; reflexivity. Qed.

(** ** Further worked examples *)

(** A [createWorkspace] call that resolves without an arn ends the loop at
    its first attempt, with nine attempts left. *)
Lemma retryWorkspaceCreation_missing_arn_witness :
  respond Sample.storage [] Sample.createDemo = Resolved {| cw_arn := None |}
  /\ truthy (cw_arn {| cw_arn := None |}) = false
  /\ retryWorkspaceCreation Sample.storage "demo" "role-arn" "bucket-arn" 10 []
     = (Threw (newError "Failed to create Workspace"),
        [Called Sample.createDemo (Resolved {| cw_arn := None |})]).
Proof.
  split; [reflexivity|]. split; [reflexivity|].
  exact (@retryWorkspaceCreation_missing_arn Sample.storage "demo" "role-arn"
           "bucket-arn" 9 [] {| cw_arn := None |} eq_refl eq_refl).
Defined.

(** "École" and "école", written with the units 201 and 233, get the same
    bucket. *)
Lemma derived_names_ignore_case_witness :
  toLowerCase (String "201"%char "cole") = toLowerCase (String "233"%char "cole")
  /\ workspaceBucketName Sample.airportCode (String "201"%char "cole") "123456789012"
       "us-west-2"
     = workspaceBucketName Sample.airportCode (String "233"%char "cole") "123456789012"
         "us-west-2".
Proof.
  split; [reflexivity|].
  exact (proj1 (@derived_names_ignore_case Sample.airportCode
                  (String "201"%char "cole") (String "233"%char "cole")
                  "123456789012" "us-west-2" eq_refl)).
Defined.

(** Lower-casing beyond 'A'..'Z': "ÉCOLE" becomes "école", while the
    multiplication sign (215), the sharp s (223) and the y with diaeresis
    (255) stay as they are. *)
Example lower_casing_latin1 :
  toLowerCase (String "201"%char "COLE") = String "233"%char "cole"
  /\ toLowerCase (String "215"%char (String "223"%char (String "255"%char "")))
     = String "215"%char (String "223"%char (String "255"%char ""))
  /\ isLowerCase (String "201"%char "cole") = false
  /\ roleNameOf WorkspaceRole (String "201"%char "COLE") "123456789012" "pdx"
     = ("twinmaker-workspace-" ++ String "233"%char "cole" ++ "-123456789012-pdx")%string.
Proof. repeat split; reflexivity. Qed.

(** The role provisioner stops after [createRole] when the response has no
    arn. *)
Example role_without_arn_stops_provisioning :
  let run := createRoleAndPolicy Sample.storage "demo" "123456789012" "pdx"
               WorkspaceRole "{}" "{}" [] in
  fst run = Threw (newError "Failed to create role twinmaker-workspace-demo-123456789012-pdx.")
  /\ calls (snd run)
     = [CreateRole "twinmaker-workspace-demo-123456789012-pdx" "/" "{}"
          "WorkspaceRole generated by AWS IoT TwinMaker TMDT"].
Proof. split; reflexivity. Qed.

(** Both logging calls are made and [true] is returned when both are
    refused. *)
Example logging_refused_still_true :
  let refused := Rejected (JsError (OtherError "AccessDenied") "Access Denied") in
  enableAccessLogging Sample.noLogging "demo-bucket" "demo-bucket-logs" []
  = (Returned true,
     [Called (PutBucketAcl "demo-bucket-logs"
                "URI=http://acs.amazonaws.com/groups/s3/LogDelivery"
                "URI=http://acs.amazonaws.com/groups/s3/LogDelivery") refused;
      Called (PutBucketLogging "demo-bucket" "demo-bucket-logs" "logs/") refused]).
Proof. reflexivity. Qed.

(** What [prepareWorkspace] returns in the sample account, after two
    rejected [createWorkspace] calls. *)
Example prepare_returns_what_the_services_gave :
  fst (prepareWith (Sample.provisioning 2 Sample.arnless) "Demo" [])
  = Returned
      {| workspaceArn := "arn:aws:iottwinmaker:us-west-2:123456789012:workspace/Demo";
         workspaceS3BucketArn := "arn:aws:s3:::twinmaker-workspace-demo-123456789012-pdx";
         workspaceRoleArn :=
           "arn:aws:iam::123456789012:role/twinmaker-workspace-demo-123456789012-pdx";
         workspaceDashboardRoleArn :=
           "arn:aws:iam::123456789012:role/twinmaker-workspacedashboardrole-demo-123456789012-pdx" |}.
Proof. vm_compute. reflexivity. Qed.

(** The two listings of the sample bucket: two pages of objects chained by
    the token "page-2", one page of versions. *)
Example pagination_of_demo_bucket :
  let new := snd (deleteS3Bucket Sample.storage 5 (Some "demo-bucket") true []) in
  stepsOf objectStep new = [(None, More (Some "page-2")); (Some "page-2", Last)]
  /\ stepsOf versionStep new = [((None, None), Last)].
Proof. split; reflexivity. Qed.

(** A logging configuration without a target bucket makes the teardown work
    on a bucket named "undefined" before the bucket itself. *)
Example teardown_of_unnamed_logging_target :
  calls (snd (deleteWorkspaceBucketAndLogs Sample.unnamedTarget 3 (Some "demo-bucket")
                false []))
  = [GetBucketLogging (Some "demo-bucket");
     ListObjectsV2 (Some "undefined") None;
     ListObjectVersions (Some "undefined") None None;
     ListObjectsV2 (Some "demo-bucket") None;
     ListObjectVersions (Some "demo-bucket") None None].
Proof. reflexivity. Qed.
